(** * Causal Effect VAE ([pyro/contrib/cevae/__init__.py])

    A shallow embedding of the CEVAE module: the conditional networks
    ([FullyConnected], [DiagNormalNet], [BernoulliNet]), the generative
    [Model], the inference [Guide], the training objective
    [TraceCausalEffect_ELBO] and the estimator class [CEVAE].

    Conventions.
    - Python exceptions are values of [exn]; a call that may raise returns
      a [result].
    - Tensor entries and Python floats are rationals ([Q]): arithmetic is
      exact.  The rounding of floating-point numbers is not modelled, so
      nothing below compares a Python float (double precision) with the
      entry of a tensor (single precision by default) that the program
      accumulates separately.  The transcendental functions of the numeric backend (ELU,
      softplus, the log-densities) and the random number generator are
      fields of the class [Backend]; nothing is assumed about them.
    - A tensor is a shape with row-major data, as a contiguous torch tensor.
    - Parameters of [nn.Linear] layers are identified by the position at
      which they were allocated; a [store] gives their current values. *)

From Stdlib Require Import ZArith QArith List String Bool Lia Lqa DecimalString.
Import ListNotations.
Open Scope string_scope.
Open Scope list_scope.
Open Scope Z_scope.

Set Implicit Arguments.

(** ** Exceptions and results *)

Inductive exn : Type :=
| AssertionError
| ValueError (msg : string)
| IndexError
| KeyError (key : string)
| RuntimeError
| TypeError
| ZeroDivisionError.

Inductive result (A : Type) : Type :=
| Ok (a : A)
| Raise (e : exn).

Arguments Ok {A} a.
Arguments Raise {A} e.

Definition rbind {A B : Type} (r : result A) (k : A -> result B) : result B :=
  match r with
  | Ok a => k a
  | Raise e => Raise e
  end.

Declare Scope result_scope.
Delimit Scope result_scope with result.
Notation "x <- r ;; k" := (rbind r (fun x => k))
  (at level 61, r at next level, right associativity) : result_scope.
Notation "' p <- r ;; k" := (rbind r (fun x => let p := x in k))
  (at level 61, p pattern, r at next level, right associativity) : result_scope.

(** [assert cond] *)
Definition py_assert (cond : bool) : result unit :=
  if cond then Ok tt else Raise AssertionError.

Fixpoint mapM {A B : Type} (f : A -> result B) (l : list A) : result (list B) :=
  match l with
  | [] => Ok []
  | a :: l' =>
      (b <- f a ;; bs <- mapM f l' ;; Ok (b :: bs))%result
  end.

(** ** Python objects passed as configuration values

    The constructor of [CEVAE] inspects its four arguments with
    [isinstance(size, int)], [size > 0] and [str.format].  [PyInt] and
    [PyBool] are the instances of [int] ([bool] is a subclass of [int]);
    [PyOther] is any other object, carried with its [str()] rendering. *)

Inductive pyobj : Type :=
| PyInt (z : Z)
| PyBool (b : bool)
| PyOther (repr : string).

Definition isinstance_int (v : pyobj) : bool :=
  match v with
  | PyInt _ | PyBool _ => true
  | PyOther _ => false
  end.

(** The integer an instance of [int] stands for ([True] is 1, [False] 0). *)
Definition int_value (v : pyobj) : Z :=
  match v with
  | PyInt z => z
  | PyBool b => if b then 1 else 0
  | PyOther _ => 0
  end.

Definition py_str (v : pyobj) : string :=
  match v with
  | PyInt z => NilZero.string_of_int (Z.to_int z)
  | PyBool b => if b then "True" else "False"
  | PyOther r => r
  end.

(** ** Network construction

    [ctor A] builds an [A], allocating fresh parameter identifiers from a
    counter (each [nn.Linear] creates its own weight and bias). *)

Definition ctor (A : Type) : Type := nat -> result (A * nat).

Definition cret {A : Type} (a : A) : ctor A := fun n => Ok (a, n).

Definition cbind {A B : Type} (c : ctor A) (k : A -> ctor B) : ctor B :=
  fun n =>
    match c n with
    | Ok (a, n') => k a n'
    | Raise e => Raise e
    end.

Definition craise {A : Type} (e : exn) : ctor A := fun _ => Raise e.

Definition clift {A : Type} (r : result A) : ctor A :=
  fun n => match r with Ok a => Ok (a, n) | Raise e => Raise e end.

Declare Scope ctor_scope.
Delimit Scope ctor_scope with ctor.
Notation "x <- c ;; k" := (cbind c (fun x => k))
  (at level 61, c at next level, right associativity) : ctor_scope.

Record Linear : Type := mkLinear {
  in_features : Z;
  out_features : Z;
  weight : nat;
  bias : nat
}.

Inductive layer : Type :=
| Lin (l : Linear)
| ELU.

(** [nn.Linear(in_size, out_size)] allocates a weight of size
    [(out_size, in_size)] and a bias of size [out_size] with
    [torch.empty].  torch wants an [int] other than a [bool] at the head
    of a size and takes the integer value of an instance of [int] in the
    other positions; it raises [TypeError] on anything else and
    [RuntimeError] on a negative dimension.  (An object that is no
    instance of [int] is taken to have no integer value.) *)
Definition nn_Linear (in_size out_size : pyobj) : ctor Linear :=
  match out_size with
  | PyInt o =>
      if isinstance_int in_size then
        let i := int_value in_size in
        if (i <? 0) || (o <? 0) then craise RuntimeError
        else fun n => Ok (mkLinear i o n (S n), S (S n))
      else craise TypeError
  | PyBool _ | PyOther _ => craise TypeError
  end.

(** The loop of [FullyConnected.__init__]. *)
Fixpoint fc_loop (pairs : list (pyobj * pyobj)) : ctor (list layer) :=
  match pairs with
  | [] => cret []
  | (in_size, out_size) :: rest =>
      (l <- nn_Linear in_size out_size ;;
       layers <- fc_loop rest ;;
       cret (Lin l :: ELU :: layers))%ctor
  end.

(** [layers.pop(-1)] *)
Definition list_pop {A : Type} (l : list A) : result (list A) :=
  match l with
  | [] => Raise IndexError
  | _ => Ok (removelast l)
  end.

Definition FullyConnected (sizes : list pyobj) : ctor (list layer) :=
  (layers <- fc_loop (combine sizes (tl sizes)) ;;
   clift (list_pop layers))%ctor.

Record DiagNormalNet : Type := mkDiagNormalNet { dn_fc : list layer }.

(** [size * k] and [k + size] on a size: an instance of [int] gives an
    [int]; another object is taken to give another object. *)
Definition py_mul (size : pyobj) (k : Z) : pyobj :=
  if isinstance_int size then PyInt (int_value size * k) else size.

Definition py_add (k : Z) (size : pyobj) : pyobj :=
  if isinstance_int size then PyInt (k + int_value size) else size.

Definition DiagNormalNet_init (sizes : list pyobj) : ctor DiagNormalNet :=
  (_ <- clift (py_assert (2 <=? List.length sizes)%nat) ;;
   fc <- FullyConnected (removelast sizes ++ [py_mul (last sizes (PyInt 0)) 2]) ;;
   cret (mkDiagNormalNet fc))%ctor.

Record BernoulliNet : Type := mkBernoulliNet { bn_fc : list layer }.

Definition BernoulliNet_init (sizes : list pyobj) : ctor BernoulliNet :=
  (_ <- clift (py_assert (1 <=? List.length sizes)%nat) ;;
   fc <- FullyConnected (sizes ++ [PyInt 1]) ;;
   cret (mkBernoulliNet fc))%ctor.

(** The [config] dict; its keys are fixed, [config_items] lists them in
    insertion order. *)
Record config : Type := mkConfig {
  feature_dim : pyobj;
  latent_dim : pyobj;
  hidden_dim : pyobj;
  num_layers : pyobj
}.

Definition config_items (c : config) : list (string * pyobj) :=
  [("feature_dim", feature_dim c); ("latent_dim", latent_dim c);
   ("hidden_dim", hidden_dim c); ("num_layers", num_layers c)].

(** [[h] * n]: an instance of [int] repeats the list that many times
    ([True] once, a number below 1 gives the empty list); with another
    object Python raises [TypeError]. *)
Definition list_repeat (h : pyobj) (n : pyobj) : result (list pyobj) :=
  if isinstance_int n then Ok (repeat h (Z.to_nat (int_value n)))
  else Raise TypeError.

Record Model : Type := mkModel {
  m_latent_dim : Z;
  m_x_nn : DiagNormalNet;
  m_y0_nn : BernoulliNet;
  m_y1_nn : BernoulliNet;
  m_t_nn : BernoulliNet
}.

(** [self.latent_dim] is kept as the integer value of the configured
    object. *)
Definition Model_init (c : config) : ctor Model :=
  let latent := latent_dim c in
  let hidden := hidden_dim c in
  let layers := num_layers c in
  let feature := feature_dim c in
  (hs <- clift (list_repeat hidden layers) ;;
   x_nn <- DiagNormalNet_init ([latent] ++ hs ++ [feature]) ;;
   hs0 <- clift (list_repeat hidden layers) ;;
   y0_nn <- BernoulliNet_init ([latent] ++ hs0) ;;
   hs1 <- clift (list_repeat hidden layers) ;;
   y1_nn <- BernoulliNet_init ([latent] ++ hs1) ;;
   t_nn <- BernoulliNet_init [latent] ;;
   cret (mkModel (int_value latent) x_nn y0_nn y1_nn t_nn))%ctor.

Record Guide : Type := mkGuide {
  g_latent_dim : Z;
  g_t_nn : BernoulliNet;
  g_y_nn : list layer;
  g_y0_nn : BernoulliNet;
  g_y1_nn : BernoulliNet;
  g_z0_nn : DiagNormalNet;
  g_z1_nn : DiagNormalNet
}.

Definition Guide_init (c : config) : ctor Guide :=
  let latent := latent_dim c in
  let hidden := hidden_dim c in
  let layers := num_layers c in
  let feature := feature_dim c in
  (t_nn <- BernoulliNet_init [feature] ;;
   hs <- clift (list_repeat hidden layers) ;;
   y_nn <- FullyConnected ([feature] ++ hs) ;;
   y0_nn <- BernoulliNet_init [hidden] ;;
   y1_nn <- BernoulliNet_init [hidden] ;;
   hs0 <- clift (list_repeat hidden layers) ;;
   z0_nn <- DiagNormalNet_init ([py_add 1 feature] ++ hs0 ++ [latent]) ;;
   hs1 <- clift (list_repeat hidden layers) ;;
   z1_nn <- DiagNormalNet_init ([py_add 1 feature] ++ hs1 ++ [latent]) ;;
   cret (mkGuide (int_value latent) t_nn y_nn y0_nn y1_nn z0_nn z1_nn))%ctor.

(** ** [CEVAE.__init__] *)

Record CEVAE : Type := mkCEVAE {
  cevae_feature_dim : Z;
  cevae_model : Model;
  cevae_guide : Guide
}.

Definition expected_msg (name : string) (size : pyobj) : string :=
  String.append "Expected "
    (String.append name (String.append " > 0 but got " (py_str size))).

(** [isinstance(size, int) and size > 0] *)
Definition valid_size (size : pyobj) : bool :=
  isinstance_int size && (0 <? int_value size).

(** The validation loop over [config.items()]. *)
Fixpoint validate (items : list (string * pyobj)) : result unit :=
  match items with
  | [] => Ok tt
  | (name, size) :: rest =>
      if negb (valid_size size)
      then Raise (ValueError (expected_msg name size))
      else validate rest
  end.

Definition CEVAE_init (feature latent hidden layers : pyobj) : ctor CEVAE :=
  let c := mkConfig feature latent hidden layers in
  (_ <- clift (validate (config_items c)) ;;
   model <- Model_init c ;;
   guide <- Guide_init c ;;
   cret (mkCEVAE (int_value (feature_dim c)) model guide))%ctor.

(** The defaults of the signature: [latent_dim=20, hidden_dim=200,
    num_layers=3]. *)
Definition CEVAE_default (feature : pyobj) : ctor CEVAE :=
  CEVAE_init feature (PyInt 20) (PyInt 200) (PyInt 3).

(** ** The assertions that open [CEVAE.fit]

    [x.dim() == 2 and x.size(-1) == self.feature_dim],
    [t.shape == x.shape[:1]] and [y.shape == y.shape[:1]], on the shapes
    of the three tensors. *)

Definition shape_eqb (s1 s2 : list nat) : bool :=
  if list_eq_dec Nat.eq_dec s1 s2 then true else false.

Definition fit_asserts (self_feature_dim : Z) (x_shape t_shape y_shape : list nat)
  : result unit :=
  (_ <- py_assert ((List.length x_shape =? 2)%nat
                   && (Z.of_nat (last x_shape 0%nat) =? self_feature_dim)) ;;
   _ <- py_assert (shape_eqb t_shape (firstn 1 x_shape)) ;;
   _ <- py_assert (shape_eqb y_shape (firstn 1 y_shape)) ;;
   Ok tt)%result.

(** [tensor.size(0)], on the shape of the tensor: a tensor without
    dimensions has no size to give. *)
Definition shape_size0 (s : list nat) : result nat :=
  match s with
  | [] => Raise IndexError
  | n :: _ => Ok n
  end.

(** [all(tensors[0].size(0) == tensor.size(0) for tensor in tensors)] *)
Fixpoint all_same_size0 (first : list nat) (tensors : list (list nat)) : result bool :=
  match tensors with
  | [] => Ok true
  | s :: rest =>
      (a <- shape_size0 first ;;
       b <- shape_size0 s ;;
       if (a =? b)%nat then all_same_size0 first rest else Ok false)%result
  end.

(** The constructor of [TensorDataset] in [torch.utils.data], which
    asserts that the tensors agree on their first dimension. *)
Definition TensorDataset (tensors : list (list nat)) : result unit :=
  (ok <- all_same_size0 (hd [] tensors) tensors ;; py_assert ok)%result.

(** The lines of [fit] that precede the training: the three assertions,
    then [dataset = TensorDataset(x, t, y)]. *)
Definition fit_dataset (self_feature_dim : Z) (x_shape t_shape y_shape : list nat)
  : result unit :=
  (_ <- fit_asserts self_feature_dim x_shape t_shape y_shape ;;
   TensorDataset [x_shape; t_shape; y_shape])%result.

(** ** Tensors

    A tensor has a shape and its entries in row-major order. *)

Open Scope Q_scope.

Record tensor : Type := mkTensor {
  shape : list nat;
  data : list Q
}.

Definition numel (s : list nat) : nat := fold_right Nat.mul 1%nat s.

(** [torch.tensor(q)], a 0-dimensional tensor. *)
Definition scalar (q : Q) : tensor := mkTensor [] [q].

(** A tensor of the given shape filled with [q]. *)
Definition full (s : list nat) (q : Q) : tensor :=
  mkTensor s (repeat q (numel s)).

Definition dim (x : tensor) : nat := List.length (shape x).

(** [x.size(0)] *)
Definition size_first (x : tensor) : result nat :=
  match shape x with
  | [] => Raise IndexError
  | n :: _ => Ok n
  end.

(** [x.size(-1)] *)
Definition size_last (x : tensor) : result nat :=
  match shape x with
  | [] => Raise IndexError
  | _ => Ok (last (shape x) 0%nat)
  end.

(** Element-wise application. *)
Definition tmap (f : Q -> Q) (x : tensor) : tensor :=
  mkTensor (shape x) (map f (data x)).

(** [split_rows m w d]: the first [m] consecutive rows of width [w]. *)
Fixpoint split_rows (m w : nat) (d : list Q) : list (list Q) :=
  match m with
  | O => []
  | S m' => firstn w d :: split_rows m' w (skipn w d)
  end.

(** The rows along the last dimension. *)
Definition rows (x : tensor) : list (list Q) :=
  split_rows (numel (removelast (shape x))) (last (shape x) 0%nat) (data x).

(** Rebuild a tensor from transformed rows of width [w]. *)
Definition of_rows (batch : list nat) (w : nat) (rs : list (list Q)) : tensor :=
  mkTensor (batch ++ [w]) (List.concat rs).

(** [x[..., :d]] and [x[..., d:]] *)
Definition slice_to (d : nat) (x : tensor) : result tensor :=
  (w <- size_last x ;;
   Ok (of_rows (removelast (shape x)) (Nat.min d w) (map (firstn d) (rows x))))%result.

Definition slice_from (d : nat) (x : tensor) : result tensor :=
  (w <- size_last x ;;
   Ok (of_rows (removelast (shape x)) (w - d) (map (skipn d) (rows x))))%result.

(** [x.clamp(min=m)], entry by entry. *)
Definition clamp_min (m : Q) (v : Q) : Q := if Qle_bool m v then v else m.

(** [x.squeeze(-1)] and [x.unsqueeze(-1)] *)
Definition squeeze_last (x : tensor) : tensor :=
  match shape x with
  | [] => x
  | _ => if (last (shape x) 0 =? 1)%nat
         then mkTensor (removelast (shape x)) (data x)
         else x
  end.

Definition unsqueeze_last (x : tensor) : tensor :=
  mkTensor (shape x ++ [1%nat]) (data x).

(** Broadcasting of two shapes, aligned at the right; the arguments are
    the reversed shapes. *)
Fixpoint broadcast_rev (r1 r2 : list nat) : result (list nat) :=
  match r1, r2 with
  | [], _ => Ok r2
  | _, [] => Ok r1
  | a :: r1', b :: r2' =>
      (r <- broadcast_rev r1' r2' ;;
       if (a =? b)%nat then Ok (a :: r)
       else if (a =? 1)%nat then Ok (b :: r)
       else if (b =? 1)%nat then Ok (a :: r)
       else Raise RuntimeError)%result
  end.

Definition broadcast_shapes (s1 s2 : list nat) : result (list nat) :=
  (r <- broadcast_rev (rev s1) (rev s2) ;; Ok (rev r))%result.

(** Expansion of data of shape [src] to shape [tgt] of the same rank. *)
Fixpoint expand_data (tgt src : list nat) (d : list Q) : result (list Q) :=
  match tgt, src with
  | [], [] => Ok d
  | k :: tgt', m :: src' =>
      if (m =? k)%nat then
        (rs <- mapM (expand_data tgt' src') (split_rows m (numel src') d) ;;
         Ok (List.concat rs))%result
      else if (m =? 1)%nat then
        (r <- expand_data tgt' src' d ;; Ok (List.concat (repeat r k)))%result
      else Raise RuntimeError
  | _, _ => Raise RuntimeError
  end.

(** [x.expand(tgt)] *)
Definition expand (tgt : list nat) (x : tensor) : result tensor :=
  let pad := (List.length tgt - List.length (shape x))%nat in
  (d <- expand_data tgt (repeat 1%nat pad ++ shape x) (data x) ;;
   Ok (mkTensor tgt d))%result.

(** A binary element-wise operation with broadcasting. *)
Definition tzip (f : Q -> Q -> Q) (x y : tensor) : result tensor :=
  (s <- broadcast_shapes (shape x) (shape y) ;;
   x' <- expand s x ;;
   y' <- expand s y ;;
   Ok (mkTensor s (map (fun p => f (fst p) (snd p))
                       (combine (data x') (data y')))))%result.

Definition tsub : tensor -> tensor -> result tensor := tzip Qminus.
Definition tadd : tensor -> tensor -> result tensor := tzip Qplus.
Definition tneg : tensor -> tensor := tmap Qopp.

(** [x.bool()] on one entry: non-zero is true. *)
Definition to_bool (v : Q) : bool := negb (Qeq_bool v 0).

Definition select (c : bool) (a b : Q) : Q := if c then a else b.

(** [torch.where(cond.bool(), a, b)] *)
Definition torch_where (cond a b : tensor) : result tensor :=
  (s0 <- broadcast_shapes (shape a) (shape b) ;;
   s <- broadcast_shapes (shape cond) s0 ;;
   c' <- expand s cond ;;
   a' <- expand s a ;;
   b' <- expand s b ;;
   Ok (mkTensor s (map (fun p => select (to_bool (fst p)) (fst (snd p)) (snd (snd p)))
                       (combine (data c') (combine (data a') (data b'))))))%result.

(** [torch.cat([a, b], dim=-1)] *)
Definition cat_last (a b : tensor) : result tensor :=
  (wa <- size_last a ;;
   wb <- size_last b ;;
   _ <- (if shape_eqb (removelast (shape a)) (removelast (shape b))
         then Ok tt else Raise RuntimeError) ;;
   Ok (of_rows (removelast (shape a)) (wa + wb)
               (map (fun p => fst p ++ snd p) (combine (rows a) (rows b)))))%result.

(** Entry-wise sum of a list of rows of width [w]. *)
Definition sum_rows (w : nat) (rs : list (list Q)) : list Q :=
  fold_right (fun r acc => map (fun p => fst p + snd p) (combine r acc))
             (repeat 0 w) rs.

(** [x.mean(0)].  For an empty leading dimension torch yields nan entries;
    [Q] has none and the entries are then [0 / 0 = 0]. *)
Definition mean0 (x : tensor) : result tensor :=
  match shape x with
  | [] => Raise IndexError
  | k :: rest =>
      Ok (mkTensor rest
            (map (fun v => v / inject_Z (Z.of_nat k))
                 (sum_rows (numel rest) (split_rows k (numel rest) (data x)))))
  end.

(** [x.sum()], a 0-dimensional tensor. *)
Definition tsum (x : tensor) : tensor :=
  scalar (fold_left Qplus (data x) 0).

(** [x.sum(-1)] *)
Definition sum_last (x : tensor) : result tensor :=
  (_ <- size_last x ;;
   Ok (mkTensor (removelast (shape x))
                (map (fun r => fold_left Qplus r 0) (rows x))))%result.

(** [torch_item(x)]: the Python float held by a one-element tensor. *)
Definition torch_item (x : tensor) : result Q :=
  match data x with
  | [q] => Ok q
  | _ => Raise (ValueError "only one element tensors can be converted to Python scalars")
  end.

(** ** The numeric backend

    The functions that have no rational counterpart and the random number
    generator.  [randn] draws one standard normal variate, [bernoulli]
    one Bernoulli variate for a given logit. *)

Class Backend : Type := {
  elu : Q -> Q;
  softplus : Q -> Q;
  normal_log_prob : Q -> Q -> Q -> Q;   (* loc, scale, value *)
  bernoulli_log_prob : Q -> Q -> Q;     (* logits, value *)
  rng : Type;
  manual_seed : Z -> rng;
  randn : rng -> Q * rng;
  bernoulli : Q -> rng -> Q * rng
}.

(** Parameter values, by parameter identifier. *)
Definition store : Type := nat -> tensor.

Section Networks.
Context {B : Backend}.
Variable params : store.

Fixpoint dot (xs ws : list Q) : Q :=
  match xs, ws with
  | x :: xs', w :: ws' => x * w + dot xs' ws'
  | _, _ => 0
  end.

(** One row through [nn.Linear]: [row @ W.T + b]. *)
Definition linear_row (l : Linear) (row : list Q) : list Q :=
  let n_in := Z.to_nat (in_features l) in
  let W := data (params (weight l)) in
  let b := data (params (bias l)) in
  map (fun j => dot row (firstn n_in (skipn (j * n_in) W)) + nth j b 0)
      (seq 0 (Z.to_nat (out_features l))).

Definition linear_forward (l : Linear) (x : tensor) : result tensor :=
  (w <- size_last x ;;
   if (Z.of_nat w =? in_features l)%Z
   then Ok (of_rows (removelast (shape x)) (Z.to_nat (out_features l))
                    (map (linear_row l) (rows x)))
   else Raise RuntimeError)%result.

Definition layer_forward (ly : layer) (x : tensor) : result tensor :=
  match ly with
  | Lin l => linear_forward l x
  | ELU => Ok (tmap elu x)
  end.

(** [nn.Sequential.forward] *)
Fixpoint FullyConnected_forward (layers : list layer) (x : tensor) : result tensor :=
  match layers with
  | [] => Ok x
  | ly :: rest =>
      (h <- layer_forward ly x ;; FullyConnected_forward rest h)%result
  end.

Definition DiagNormalNet_forward (net : DiagNormalNet) (x : tensor)
  : result (tensor * tensor) :=
  (loc_scale <- FullyConnected_forward (dn_fc net) x ;;
   w <- size_last loc_scale ;;
   let d := (w / 2)%nat in
   loc <- slice_to d loc_scale ;;
   raw <- slice_from d loc_scale ;;
   let scale := tmap (clamp_min (1 # 10000000000)) (tmap softplus raw) in
   Ok (loc, scale))%result.

Definition BernoulliNet_forward (net : BernoulliNet) (x : tensor) : result tensor :=
  (h <- FullyConnected_forward (bn_fc net) x ;; Ok (squeeze_last h))%result.

End Networks.

(** ** Tensors that hold NaN

    The entries above are numbers.  A floating-point tensor may also hold
    NaN, which the arithmetic operations, ELU and softplus hand on, and
    [torch.clamp] as well.  [DiagNormalNet.forward] on such tensors, the
    parameters being numbers: *)

Inductive entry : Type :=
| Num (q : Q)
| NaN.

Definition entry_map (f : Q -> Q) (e : entry) : entry :=
  match e with
  | Num q => Num (f q)
  | NaN => NaN
  end.

Definition entry_zip (f : Q -> Q -> Q) (a b : entry) : entry :=
  match a, b with
  | Num x, Num y => Num (f x y)
  | _, _ => NaN
  end.

Record etensor : Type := mkETensor {
  eshape : list nat;
  edata : list entry
}.

(** A tensor of numbers among the tensors of entries. *)
Definition of_tensor (x : tensor) : etensor :=
  mkETensor (shape x) (map Num (data x)).

Fixpoint esplit_rows (m w : nat) (d : list entry) : list (list entry) :=
  match m with
  | O => []
  | S m' => firstn w d :: esplit_rows m' w (skipn w d)
  end.

Definition erows (x : etensor) : list (list entry) :=
  esplit_rows (numel (removelast (eshape x))) (last (eshape x) 0%nat) (edata x).

Definition eof_rows (batch : list nat) (w : nat) (rs : list (list entry)) : etensor :=
  mkETensor (batch ++ [w]) (List.concat rs).

Definition esize_last (x : etensor) : result nat :=
  match eshape x with
  | [] => Raise IndexError
  | _ => Ok (last (eshape x) 0%nat)
  end.

Definition eslice_to (d : nat) (x : etensor) : result etensor :=
  (w <- esize_last x ;;
   Ok (eof_rows (removelast (eshape x)) (Nat.min d w) (map (firstn d) (erows x))))%result.

Definition eslice_from (d : nat) (x : etensor) : result etensor :=
  (w <- esize_last x ;;
   Ok (eof_rows (removelast (eshape x)) (w - d) (map (skipn d) (erows x))))%result.

Definition etmap (f : Q -> Q) (x : etensor) : etensor :=
  mkETensor (eshape x) (map (entry_map f) (edata x)).

Section NetworksNaN.
Context {B : Backend}.
Variable params : store.

Fixpoint edot (xs : list entry) (ws : list Q) : entry :=
  match xs, ws with
  | x :: xs', w :: ws' => entry_zip Qplus (entry_map (fun v => v * w) x) (edot xs' ws')
  | _, _ => Num 0
  end.

Definition linear_row_nan (l : Linear) (row : list entry) : list entry :=
  let n_in := Z.to_nat (in_features l) in
  let W := data (params (weight l)) in
  let b := data (params (bias l)) in
  map (fun j => entry_zip Qplus (edot row (firstn n_in (skipn (j * n_in) W)))
                          (Num (nth j b 0)))
      (seq 0 (Z.to_nat (out_features l))).

Definition linear_forward_nan (l : Linear) (x : etensor) : result etensor :=
  (w <- esize_last x ;;
   if (Z.of_nat w =? in_features l)%Z
   then Ok (eof_rows (removelast (eshape x)) (Z.to_nat (out_features l))
                     (map (linear_row_nan l) (erows x)))
   else Raise RuntimeError)%result.

Definition layer_forward_nan (ly : layer) (x : etensor) : result etensor :=
  match ly with
  | Lin l => linear_forward_nan l x
  | ELU => Ok (etmap elu x)
  end.

Fixpoint FullyConnected_forward_nan (layers : list layer) (x : etensor)
  : result etensor :=
  match layers with
  | [] => Ok x
  | ly :: rest =>
      (h <- layer_forward_nan ly x ;; FullyConnected_forward_nan rest h)%result
  end.

(** [clamp(min=1e-10)] leaves NaN in place. *)
Definition DiagNormalNet_forward_nan (net : DiagNormalNet) (x : etensor)
  : result (etensor * etensor) :=
  (loc_scale <- FullyConnected_forward_nan (dn_fc net) x ;;
   w <- esize_last loc_scale ;;
   let d := (w / 2)%nat in
   loc <- eslice_to d loc_scale ;;
   raw <- eslice_from d loc_scale ;;
   let scale := etmap (clamp_min (1 # 10000000000)) (etmap softplus raw) in
   Ok (loc, scale))%result.

End NetworksNaN.

(** ** Distributions, sites and traces

    Modelled from the spec: [pyro.distributions], the site dictionaries and
    [pyro.poutine.Trace] are not among the sources.  A distribution is its
    parameter tensors; a site is the record the spec lists (distribution,
    observed flag, value, log-density, auxiliary flag); an execution trace
    is an ordered mapping from site names to sites. *)

Inductive distribution : Type :=
| Normal (loc scale : tensor) (event_dims : nat)
| Bernoulli (logits : tensor).

Definition batch_shape (d : distribution) : list nat :=
  match d with
  | Normal loc _ k => firstn (List.length (shape loc) - k) (shape loc)
  | Bernoulli logits => shape logits
  end.

Definition event_shape (d : distribution) : list nat :=
  match d with
  | Normal loc _ k => skipn (List.length (shape loc) - k) (shape loc)
  | Bernoulli _ => []
  end.

Inductive site_type : Type := SampleSite | ParamSite.

Record site : Type := mkSite {
  site_kind : site_type;
  site_fn : distribution;
  site_value : tensor;
  is_observed : bool;
  site_scale : Q;
  is_auxiliary : bool;
  log_prob : option tensor;
  log_prob_sum : option tensor
}.

Definition trace : Type := list (string * site).

Definition is_sample (s : site) : bool :=
  match site_kind s with SampleSite => true | ParamSite => false end.

Fixpoint lookup {A : Type} (name : string) (l : list (string * A)) : option A :=
  match l with
  | [] => None
  | (k, v) :: rest => if String.eqb k name then Some v else lookup name rest
  end.

Definition mem (name : string) (names : list string) : bool :=
  existsb (String.eqb name) names.

(** [trace.nodes[name]] *)
Definition getitem (name : string) (tr : trace) : result site :=
  match lookup name tr with
  | Some s => Ok s
  | None => Raise (KeyError name)
  end.

(** [del trace.nodes[name]] *)
Definition del_node (name : string) (tr : trace) : result trace :=
  match lookup name tr with
  | Some _ => Ok (filter (fun p => negb (String.eqb (fst p) name)) tr)
  | None => Raise (KeyError name)
  end.

(** Recording a site under a name that is already present is an error. *)
Definition add_node (name : string) (s : site) (tr : trace) : result trace :=
  match lookup name tr with
  | Some _ => Raise RuntimeError
  | None => Ok (tr ++ [(name, s)])
  end.

(** [site["log_prob_sum"]] *)
Definition get_log_prob_sum (s : site) : result tensor :=
  match log_prob_sum s with
  | Some v => Ok v
  | None => Raise (KeyError "log_prob_sum")
  end.

Section Pyro.
Context {B : Backend}.

(** *** Sampling and scoring *)

Fixpoint draw_normal (ps : list (Q * Q)) (g : rng) : list Q * rng :=
  match ps with
  | [] => ([], g)
  | (l, s) :: ps' =>
      let (eps, g1) := randn g in
      let (vs, g2) := draw_normal ps' g1 in
      ((l + eps * s) :: vs, g2)
  end.

Fixpoint draw_bernoulli (ls : list Q) (g : rng) : list Q * rng :=
  match ls with
  | [] => ([], g)
  | l :: ls' =>
      let (v, g1) := bernoulli l g in
      let (vs, g2) := draw_bernoulli ls' g1 in
      (v :: vs, g2)
  end.

(** A draw from [d] expanded to the batch shape of the enclosing plates. *)
Definition sample_dist (plate_shape : list nat) (d : distribution) (g : rng)
  : result (tensor * rng) :=
  (bs <- broadcast_shapes (batch_shape d) plate_shape ;;
   let target := bs ++ event_shape d in
   match d with
   | Normal loc scale _ =>
       loc' <- expand target loc ;;
       scale' <- expand target scale ;;
       let (vs, g') := draw_normal (combine (data loc') (data scale')) g in
       Ok (mkTensor target vs, g')
   | Bernoulli logits =>
       logits' <- expand target logits ;;
       let (vs, g') := draw_bernoulli (data logits') g in
       Ok (mkTensor target vs, g')
   end)%result.

Fixpoint sum_event (k : nat) (x : tensor) : result tensor :=
  match k with
  | O => Ok x
  | S k' => (y <- sum_last x ;; sum_event k' y)%result
  end.

(** [d.log_prob(value)] *)
Definition dist_log_prob (d : distribution) (value : tensor) : result tensor :=
  match d with
  | Normal loc scale k =>
      (s0 <- broadcast_shapes (shape loc) (shape scale) ;;
       s <- broadcast_shapes s0 (shape value) ;;
       loc' <- expand s loc ;;
       scale' <- expand s scale ;;
       value' <- expand s value ;;
       sum_event k
         (mkTensor s
            (map (fun p => normal_log_prob (fst p) (fst (snd p)) (snd (snd p)))
                 (combine (data loc') (combine (data scale') (data value'))))))%result
  | Bernoulli logits => tzip bernoulli_log_prob logits value
  end.

(** [trace.compute_log_prob()]: the scaled log-density of every sample
    site and its sum. *)
Definition score_site (s : site) : result site :=
  if is_sample s then
    (lp <- dist_log_prob (site_fn s) (site_value s) ;;
     let scaled := tmap (Qmult (site_scale s)) lp in
     Ok (mkSite (site_kind s) (site_fn s) (site_value s) (is_observed s)
                (site_scale s) (is_auxiliary s) (Some scaled) (Some (tsum scaled))))%result
  else Ok s.

Definition compute_log_prob (tr : trace) : result trace :=
  mapM (fun p => (s <- score_site (snd p) ;; Ok (fst p, s))%result) tr.

(** *** Effect handlers

    Modelled from the spec: [pyro.sample], [pyro.plate] and the handlers
    of [pyro.poutine] ([trace], [block], [do], [replay]) are not among
    the sources.  A site given as data is observed, fixed and still
    recorded; [replay] forces a site to the value recorded in a trace
    instead of resampling; [do] forces a site to a constant; [trace]
    records the sites; [block] keeps the named sites from the handlers
    entered before it; a plate contributes its size to the batch shape
    and the factor [size / subsample_size] to the scale of the sites
    inside. *)

Inductive messenger : Type :=
| PlateMessenger (size subsample_size : nat) (d : nat)  (* dimension [-d] *)
| TraceMessenger
| BlockMessenger (hide : list string)
| DoMessenger (data : list (string * tensor))
| ReplayMessenger (tr : trace).

(** The handlers in force, the innermost first. *)
Definition stack : Type := list messenger.

(** The handlers that the message of the site [name] reaches: those
    inside the innermost block that hides the site. *)
Fixpoint reached (name : string) (hs : stack) : stack :=
  match hs with
  | [] => []
  | BlockMessenger hide :: rest =>
      if mem name hide then [] else reached name rest
  | m :: rest => m :: reached name rest
  end.

(** What a list of handlers does to a site. *)
Record handlers : Type := mkHandlers {
  plates : list (nat * nat);      (* dimension counted from the right, size *)
  scale : Q;
  tracing : bool;
  do_data : list (string * tensor);
  replay : option trace
}.

Definition no_handlers : handlers := mkHandlers [] 1 false [] None.

Fixpoint handlers_of (hs : stack) : handlers :=
  match hs with
  | [] => no_handlers
  | m :: rest =>
      let h := handlers_of rest in
      match m with
      | PlateMessenger size n d =>
          mkHandlers ((d, n) :: plates h)
                     (scale h * (inject_Z (Z.of_nat size) / inject_Z (Z.of_nat n)))
                     (tracing h) (do_data h) (replay h)
      | TraceMessenger =>
          mkHandlers (plates h) (scale h) true (do_data h) (replay h)
      | BlockMessenger _ => h
      | DoMessenger data =>
          mkHandlers (plates h) (scale h) (tracing h) (data ++ do_data h) (replay h)
      | ReplayMessenger tr =>
          mkHandlers (plates h) (scale h) (tracing h) (do_data h) (Some tr)
      end
  end.

Definition plate_size (ps : list (nat * nat)) (d : nat) : nat :=
  match find (fun p => (fst p =? d)%nat) ps with
  | Some p => snd p
  | None => 1%nat
  end.

Definition plate_shape (ps : list (nat * nat)) : list nat :=
  let rank := list_max (map fst ps) in
  map (fun i => plate_size ps (rank - i)) (seq 0 rank).

(** The dimensions taken by the plates in force. *)
Fixpoint plate_dims (hs : stack) : list nat :=
  match hs with
  | [] => []
  | PlateMessenger _ _ d :: rest => d :: plate_dims rest
  | _ :: rest => plate_dims rest
  end.

(** The first dimension from the right that no plate in force uses. *)
Definition free_dim (ds : list nat) : nat :=
  match find (fun d => negb (existsb (Nat.eqb d) ds))
             (seq 1 (S (List.length ds))) with
  | Some d => d
  | None => S (List.length ds)
  end.

(** [with pyro.plate(name, size, subsample_size, dim=-d)] *)
Definition plate (size subsample_size : nat) (d : option nat) (hs : stack)
  : result stack :=
  match subsample_size with
  | O => Raise ZeroDivisionError
  | _ =>
      let d' := match d with Some d' => d' | None => free_dim (plate_dims hs) end in
      Ok (PlateMessenger size subsample_size d' :: hs)
  end.

Record state : Type := mkState {
  gen : rng;
  recorded : trace
}.

Definition M (A : Type) : Type := state -> result (A * state).

Definition mret {A : Type} (a : A) : M A := fun st => Ok (a, st).

Definition mbind {A C : Type} (m : M A) (k : A -> M C) : M C :=
  fun st =>
    match m st with
    | Ok (a, st') => k a st'
    | Raise e => Raise e
    end.

Definition lift {A : Type} (r : result A) : M A :=
  fun st => match r with Ok a => Ok (a, st) | Raise e => Raise e end.

(** The value of a site: an intervention, else the observation, else the
    replayed value, else a fresh draw. *)
Definition site_value_of (h : handlers) (name : string) (fn : distribution)
           (obs : option tensor) (g : rng) : result (tensor * bool * rng) :=
  match lookup name (do_data h) with
  | Some v => Ok (v, true, g)
  | None =>
      match obs with
      | Some v => Ok (v, true, g)
      | None =>
          match match replay h with Some tr => lookup name tr | None => None end with
          | Some s => Ok (site_value s, false, g)
          | None =>
              ('(v, g') <- sample_dist (plate_shape (plates h)) fn g ;;
               Ok (v, false, g'))%result
          end
      end
  end.

(** [pyro.sample(name, fn, obs=obs, infer={"is_auxiliary": aux})] *)
Definition pyro_sample (hs : stack) (name : string) (fn : distribution)
           (obs : option tensor) (aux : bool) : M tensor :=
  fun st =>
    let h := handlers_of (reached name hs) in
    ('(v, observed, g') <- site_value_of h name fn obs (gen st) ;;
     tr' <- (if tracing h
             then add_node name
                    (mkSite SampleSite fn v observed (scale h) aux None None)
                    (recorded st)
             else Ok (recorded st)) ;;
     Ok (v, mkState g' tr'))%result.

(** The constant an enclosing [do] forces on a site, and whether an
    enclosing [trace] records the site. *)
Definition intervened (hs : stack) (name : string) : option tensor :=
  lookup name (do_data (handlers_of (reached name hs))).

Definition records (hs : stack) (name : string) : bool :=
  tracing (handlers_of (reached name hs)).

End Pyro.

Declare Scope pyro_scope.
Delimit Scope pyro_scope with pyro.
Notation "x <- c ;; k" := (mbind c (fun x => k))
  (at level 61, c at next level, right associativity) : pyro_scope.

(** ** The generative model and the guide *)

Section Programs.
Context {B : Backend}.
Variable params : store.

(** [dist.Normal(0, 1).expand([self.latent_dim]).to_event(1)] *)
Definition Model_z_dist (self : Model) : distribution :=
  let l := Z.to_nat (m_latent_dim self) in
  Normal (full [l] 0) (full [l] 1) 1.

Definition Model_x_dist (self : Model) (z : tensor) : result distribution :=
  ('(loc, scale) <- DiagNormalNet_forward params (m_x_nn self) z ;;
   Ok (Normal loc scale 1))%result.

Definition Model_y_dist (self : Model) (t z : tensor) : result distribution :=
  (logits0 <- BernoulliNet_forward params (m_y0_nn self) z ;;
   logits1 <- BernoulliNet_forward params (m_y1_nn self) z ;;
   logits <- torch_where t logits1 logits0 ;;
   Ok (Bernoulli logits))%result.

Definition Model_t_dist (self : Model) (z : tensor) : result distribution :=
  (logits <- BernoulliNet_forward params (m_t_nn self) z ;;
   Ok (Bernoulli logits))%result.

(** The [size] argument, [x.size(0)] when it is [None]. *)
Definition size_or_default (x : tensor) (size : option nat) : result nat :=
  match size with
  | Some n => Ok n
  | None => size_first x
  end.

Definition Model_forward (hs : stack) (self : Model)
           (x : tensor) (t y : option tensor) (size : option nat) : M tensor :=
  (size' <- lift (size_or_default x size) ;;
   n <- lift (size_first x) ;;
   hp <- lift (plate size' n None hs) ;;
   z <- pyro_sample hp "z" (Model_z_dist self) None false ;;
   xd <- lift (Model_x_dist self z) ;;
   x' <- pyro_sample hp "x" xd (Some x) false ;;
   td <- lift (Model_t_dist self z) ;;
   t' <- pyro_sample hp "t" td t false ;;
   yd <- lift (Model_y_dist self t' z) ;;
   y' <- pyro_sample hp "y" yd y false ;;
   mret y')%pyro.

Definition Guide_t_dist (self : Guide) (x : tensor) : result distribution :=
  (logits <- BernoulliNet_forward params (g_t_nn self) x ;;
   Ok (Bernoulli logits))%result.

Definition Guide_y_dist (self : Guide) (t x : tensor) : result distribution :=
  (hidden <- FullyConnected_forward params (g_y_nn self) x ;;
   logits0 <- BernoulliNet_forward params (g_y0_nn self) hidden ;;
   logits1 <- BernoulliNet_forward params (g_y1_nn self) hidden ;;
   logits <- torch_where t logits1 logits0 ;;
   Ok (Bernoulli logits))%result.

Definition Guide_z_dist (self : Guide) (y t x : tensor) : result distribution :=
  (y_x <- cat_last (unsqueeze_last y) x ;;
   '(loc0, scale0) <- DiagNormalNet_forward params (g_z0_nn self) y_x ;;
   '(loc1, scale1) <- DiagNormalNet_forward params (g_z1_nn self) y_x ;;
   loc <- torch_where (unsqueeze_last t) loc1 loc0 ;;
   scale <- torch_where (unsqueeze_last t) scale1 scale0 ;;
   Ok (Normal loc scale 1))%result.

Definition Guide_forward (hs : stack) (self : Guide)
           (x : tensor) (t y : option tensor) (size : option nat) : M unit :=
  (size' <- lift (size_or_default x size) ;;
   n <- lift (size_first x) ;;
   hp <- lift (plate size' n None hs) ;;
   td <- lift (Guide_t_dist self x) ;;
   t' <- pyro_sample hp "t" td t true ;;
   yd <- lift (Guide_y_dist self t' x) ;;
   y' <- pyro_sample hp "y" yd y true ;;
   zd <- lift (Guide_z_dist self y' t' x) ;;
   _ <- pyro_sample hp "z" zd None false ;;
   mret tt)%pyro.

(** *** The objective *)

(** Modelled from the spec: [Trace_ELBO._differentiable_loss_particle]
    (pyro/infer/trace_elbo.py is not among the sources).  The standard
    per-particle loss is the negative log joint of the model minus the
    negative log-density of the guide, over the sample sites; it is
    computed once on Python floats (the reporting loss) and once on
    tensors (the surrogate loss). *)
Fixpoint log_density (tr : trace) (acc : Q * tensor) : result (Q * tensor) :=
  match tr with
  | [] => Ok acc
  | (_, s) :: rest =>
      if is_sample s then
        (lp <- get_log_prob_sum s ;;
         v <- torch_item lp ;;
         a <- tadd (snd acc) lp ;;
         log_density rest (fst acc + v, a))%result
      else log_density rest acc
  end.

Definition Trace_ELBO_differentiable_loss_particle (model_trace guide_trace : trace)
  : result (Q * tensor) :=
  ('(p, pt) <- log_density model_trace (0, scalar 0) ;;
   '(q, qt) <- log_density guide_trace (0, scalar 0) ;;
   surrogate <- tsub (tneg pt) (tneg qt) ;;
   Ok (- p - - q, surrogate))%result.

Section Objective.
(** [super()._differentiable_loss_particle] *)
Variable super_loss_particle : trace -> trace -> result (Q * tensor).

Definition blocked_names (guide_trace : trace) : list string :=
  map fst (filter (fun p => is_sample (snd p) && is_observed (snd p)) guide_trace).

Fixpoint del_nodes (names : list string) (tr : trace) : result trace :=
  match names with
  | [] => Ok tr
  | name :: rest => (tr' <- del_node name tr ;; del_nodes rest tr')%result
  end.

(** The loop that adds the [log q] terms. *)
Fixpoint add_log_q (guide_trace : trace) (names : list string)
         (loss : Q) (surrogate_loss : tensor) : result (Q * tensor) :=
  match names with
  | [] => Ok (loss, surrogate_loss)
  | name :: rest =>
      (s <- getitem name guide_trace ;;
       log_q <- get_log_prob_sum s ;;
       v <- torch_item log_q ;;
       surrogate_loss' <- tsub surrogate_loss log_q ;;
       add_log_q guide_trace rest (loss - v) surrogate_loss')%result
  end.

Definition differentiable_loss_particle (model_trace guide_trace : trace)
  : result (Q * tensor) :=
  let names := blocked_names guide_trace in
  (blocked_guide_trace <- del_nodes names guide_trace ;;
   '(loss, surrogate_loss) <- super_loss_particle model_trace blocked_guide_trace ;;
   add_log_q guide_trace names loss surrogate_loss)%result.
End Objective.

(** [TraceCausalEffect_ELBO._differentiable_loss_particle] *)
Definition TraceCausalEffect_ELBO_differentiable_loss_particle : trace -> trace -> result (Q * tensor) :=
  differentiable_loss_particle Trace_ELBO_differentiable_loss_particle.

(** Modelled from the spec: the traces the objective is evaluated on
    (the trace collection of [Trace_ELBO] is not among the sources): one
    evaluation of the guide, one of the model replayed against it, both
    recorded and scored. *)
Definition svi_traces (model : Model) (guide : Guide)
           (x t y : tensor) (size : nat) (g : rng) : result (trace * trace * rng) :=
  ('(_, st1) <- Guide_forward [TraceMessenger] guide x (Some t) (Some y) (Some size)
                  (mkState g []) ;;
   '(_, st2) <- Model_forward [ReplayMessenger (recorded st1); TraceMessenger] model
                  x (Some t) (Some y) (Some size) (mkState (gen st1) []) ;;
   guide_trace <- compute_log_prob (recorded st1) ;;
   model_trace <- compute_log_prob (recorded st2) ;;
   Ok (model_trace, guide_trace, gen st2))%result.

(** *** [CEVAE.ite] *)

(** [(y1 - y0).mean(0)] *)
Definition ite_effect (y1 y0 : tensor) : result tensor :=
  (d <- tsub y1 y0 ;; mean0 d)%result.

(** The model replayed against the guide trace under [do(t = v)]. *)
Definition counterfactual (hp : stack) (self : CEVAE) (tr : trace)
           (v : Q) (x : tensor) (g : rng) : result (tensor * rng) :=
  let hd := ReplayMessenger tr :: DoMessenger [("t", scalar v)] :: hp in
  ('(y, st) <- Model_forward hd (cevae_model self) x None None None (mkState g []) ;;
   Ok (y, gen st))%result.

(** The two replays of [ite], from the trace of the guide. *)
Definition ite_replays (hp : stack) (self : CEVAE) (tr : trace)
           (x : tensor) (g : rng) : result (tensor * tensor * rng) :=
  ('(y0, g0) <- counterfactual hp self tr 0 x g ;;
   '(y1, g1) <- counterfactual hp self tr 1 x g0 ;;
   Ok (y0, y1, g1))%result.

(** The guide of [ite], traced with the sites [y] and [t] hidden. *)
Definition ite_guide_trace (hp : stack) (self : CEVAE)
           (x : tensor) (g : rng) : result (trace * rng) :=
  let hg := BlockMessenger ["y"; "t"] :: TraceMessenger :: hp in
  ('(_, st) <- Guide_forward hg (cevae_guide self) x None None None (mkState g []) ;;
   Ok (recorded st, gen st))%result.

Definition ite (self : CEVAE) (x : tensor) (num_samples : nat) (g : rng)
  : result (tensor * rng) :=
  (_ <- py_assert ((dim x =? 2)%nat
                   && (Z.of_nat (last (shape x) 0%nat) =? cevae_feature_dim self)%Z) ;;
   hp <- plate num_samples num_samples (Some 2%nat) [] ;;
   '(tr, g1) <- ite_guide_trace hp self x g ;;
   '(y0, y1, g2) <- ite_replays hp self tr x g1 ;;
   effect <- ite_effect y1 y0 ;;
   Ok (effect, g2))%result.

End Programs.

(** ** Auxiliary notions for the statements *)

(** The parameters a network owns. *)
Definition layer_params (ly : layer) : list nat :=
  match ly with
  | Lin l => [weight l; bias l]
  | ELU => []
  end.

Definition fc_params (layers : list layer) : list nat :=
  flat_map layer_params layers.

(** A tensor is well formed when it holds as many entries as its shape
    announces. *)
Definition wf (x : tensor) : Prop := List.length (data x) = numel (shape x).

(** A positive integer, in the sense of [isinstance(size, int)]. *)
Definition positive_int (v : pyobj) : Prop :=
  isinstance_int v = true /\ (0 < int_value v)%Z.

(** An entry that is a number, and one that is a positive number. *)
Definition number (e : entry) : Prop :=
  match e with
  | Num _ => True
  | NaN => False
  end.

Definition positive_entry (e : entry) : Prop :=
  match e with
  | Num v => 0 < v
  | NaN => False
  end.

(** The scale of a raw value: at least [1e-10] for a number, however
    negative, and NaN for NaN. *)
Definition floored (r s : entry) : Prop :=
  match r with
  | Num q => exists v, s = Num v /\ (1 # 10000000000) <= v /\ 0 < v
  | NaN => s = NaN
  end.

(** An [int] that is not a [bool]. *)
Definition is_int (v : pyobj) : Prop := v = PyInt (int_value v).

(** A list of sizes with its members read as integers, and the pairs of
    consecutive sizes of a list of ints. *)
Definition int_values (sizes : list pyobj) : list Z := map int_value sizes.

Definition int_pairs (pairs : list (Z * Z)) : list (pyobj * pyobj) :=
  map (fun p => (PyInt (fst p), PyInt (snd p))) pairs.

(** [h] repeated [k] times, for an integer [k]. *)
Definition repeated (h k : Z) : list Z := repeat h (Z.to_nat k).

(** The relation "is the opposite of" on entries, and on tensors of the
    same shape. *)
Definition opp (a b : Q) : Prop := a == - b.


Definition rmap {A C : Type} (f : A -> C) (r : result A) : result C :=
  match r with
  | Ok a => Ok (f a)
  | Raise e => Raise e
  end.

(** The sites of a scored trace carry 0-dimensional sums. *)
Definition scored (tr : trace) : Prop :=
  Forall (fun p => forall lp, log_prob_sum (snd p) = Some lp -> shape lp = []) tr.

(** A trace that has not been scored yet. *)
Definition unscored (tr : trace) : Prop :=
  Forall (fun p => log_prob_sum (snd p) = None) tr.

(** The log-density recorded at every site of a trace. *)
Definition log_densities (tr : trace) : list (string * option tensor) :=
  map (fun p => (fst p, log_prob (snd p))) tr.

Section Evaluations.
Context {B : Backend}.
Variable params : store.

(** Modelled from the spec: [pyro.set_rng_seed] and
    [poutine.trace(model).get_trace] are not among the sources.  The
    program owns one generator, which every draw advances; seeding
    replaces its state. *)
Definition set_rng_seed (seed : Z) : M unit :=
  fun st => Ok (tt, mkState (manual_seed seed) (recorded st)).

(** One traced and scored evaluation of the model on a minibatch with
    [x], [t] and [y] given: the trace starts empty, the draws are taken
    from the generator of the program in its current state, and the
    generator is left where the draws have moved it. *)
Definition get_trace (self : Model) (x t y : tensor) (size : option nat) : M trace :=
  fun st =>
    ('(_, st') <- Model_forward params [TraceMessenger] self
                    x (Some t) (Some y) size (mkState (gen st) []) ;;
     tr <- compute_log_prob (recorded st') ;;
     Ok (tr, mkState (gen st') (recorded st)))%result.


(** The same two evaluations with the generator seeded once, before the
    first. *)
Definition forward_twice_seeded_once (self : Model) (x t y : tensor)
           (size : option nat) (seed : Z) : M (trace * trace) :=
  (_ <- set_rng_seed seed ;;
   tr1 <- get_trace self x t y size ;;
   tr2 <- get_trace self x t y size ;;
   mret (tr1, tr2))%pyro.
End Evaluations.

Section Exchanged.
Context {B : Backend}.
Variable params : store.


End Exchanged.

(** The width of the output of a stack of layers: the [out_features] of
    its last linear layer. *)
Fixpoint fc_out (layers : list layer) : option Z :=
  match layers with
  | [] => None
  | ly :: rest =>
      match fc_out rest with
      | Some o => Some o
      | None => match ly with Lin l => Some (out_features l) | ELU => None end
      end
  end.

(** ** A small instance

    A backend with rational stand-ins for the transcendental functions
    (its softplus underflows to 0 on negative values) and a counter as
    generator, a store, a model with one hidden layer and a minibatch of
    three units; they serve to run the definitions above. *)

Module Example.

Definition backend : Backend := {|
  elu := fun v => if Qle_bool 0 v then v else v / 2;
  softplus := fun v => if Qle_bool 0 v then v else 0;
  normal_log_prob := fun l s v => v - l;
  bernoulli_log_prob := fun l v => l * v;
  rng := nat;
  manual_seed := Z.to_nat;
  randn := fun g => (inject_Z (Z.of_nat (g mod 2)), S g);
  bernoulli := fun l g =>
    (if Qle_bool (inject_Z (Z.of_nat (g mod 2)) - 1) l then 1 else 0, S g)
|}.

(** Every weight matrix alternates 1, 0, -1; every bias is 1, 0, -1. *)
Definition params : store :=
  fun id => mkTensor [] (map (fun i => inject_Z (1 - Z.of_nat ((i + id) mod 3))) (seq 0 32)).

Definition cevae : CEVAE :=
  Eval vm_compute in
    match CEVAE_init (PyInt 2) (PyInt 1) (PyInt 2) (PyInt 1) 0%nat with
    | Ok (c, _) => c
    | Raise _ =>
        mkCEVAE 0 (mkModel 0 (mkDiagNormalNet []) (mkBernoulliNet [])
                           (mkBernoulliNet []) (mkBernoulliNet []))
                (mkGuide 0 (mkBernoulliNet []) [] (mkBernoulliNet [])
                         (mkBernoulliNet []) (mkDiagNormalNet []) (mkDiagNormalNet []))
    end.

Definition x : tensor := mkTensor [3; 2]%nat [1; 0; 0; 1; -1; 1].
Definition t : tensor := mkTensor [3]%nat [0; 1; 0].
Definition y : tensor := mkTensor [3]%nat [1; 1; 0].

(** The traces of one training step on the minibatch, out of a data set
    of six units, and the generator state the step leaves. *)
Definition svi_outcome : trace * trace * nat :=
  Eval vm_compute in
    match @svi_traces backend params (cevae_model cevae) (cevae_guide cevae)
                      x t y 6%nat (@manual_seed backend 0) with
    | Ok r => r
    | Raise _ => ([], [], 0%nat)
    end.

Definition model_trace : trace := fst (fst svi_outcome).
Definition guide_trace : trace := snd (fst svi_outcome).

Definition log_q (name : string) : tensor :=
  match lookup name guide_trace with
  | Some s => match log_prob_sum s with Some v => v | None => scalar 0 end
  | None => scalar 0
  end.

Definition log_q_t : tensor := Eval vm_compute in log_q "t".
Definition log_q_y : tensor := Eval vm_compute in log_q "y".

Definition q_t : Q := Eval vm_compute in hd 0 (data log_q_t).
Definition q_y : Q := Eval vm_compute in hd 0 (data log_q_y).

(** The two losses of the objective on these traces. *)
Definition losses : Q * tensor :=
  Eval vm_compute in
    match TraceCausalEffect_ELBO_differentiable_loss_particle model_trace guide_trace with
    | Ok p => p
    | Raise _ => (0, scalar 0)
    end.

(** The estimate of [ite] with three particles, and the generator
    state it leaves. *)
Definition ite_outcome : tensor * nat :=
  Eval vm_compute in
    match @ite backend params cevae x 3%nat (@manual_seed backend 0) with
    | Ok p => p
    | Raise _ => (scalar 0, 0%nat)
    end.

End Example.


(** ** Further notions for the statements *)

(** The linear layers of a stack, in order. *)
Definition linears (layers : list layer) : list Linear :=
  flat_map (fun ly => match ly with Lin l => [l] | ELU => [] end) layers.

(** The declared widths of a linear layer. *)
Definition widths (l : Linear) : Z * Z := (in_features l, out_features l).

(** The parameters of the model, of the guide and of the estimator, in the
    order in which their networks are built. *)
Definition Model_params (self : Model) : list nat :=
  fc_params (dn_fc (m_x_nn self)) ++ fc_params (bn_fc (m_y0_nn self))
  ++ fc_params (bn_fc (m_y1_nn self)) ++ fc_params (bn_fc (m_t_nn self)).

Definition Guide_params (self : Guide) : list nat :=
  fc_params (bn_fc (g_t_nn self)) ++ fc_params (g_y_nn self)
  ++ fc_params (bn_fc (g_y0_nn self)) ++ fc_params (bn_fc (g_y1_nn self))
  ++ fc_params (dn_fc (g_z0_nn self)) ++ fc_params (dn_fc (g_z1_nn self)).

Definition CEVAE_params (self : CEVAE) : list nat :=
  Model_params (cevae_model self) ++ Guide_params (cevae_guide self).

(** The sites of a trace that are observed sample sites. *)
Definition is_blocked (p : string * site) : bool :=
  is_sample (snd p) && is_observed (snd p).

(** [rcompat r1 r]: the reversed shape [r1] broadcasts to the reversed
    shape [r]: every dimension is kept or expanded from 1, and missing
    leading dimensions are added. *)
Fixpoint rcompat (r1 r : list nat) : Prop :=
  match r1, r with
  | [], _ => True
  | a :: r1', k :: r' => (a = k \/ a = 1%nat) /\ rcompat r1' r'
  | _ :: _, [] => False
  end.

Definition broadcastable_to (s1 s : list nat) : Prop := rcompat (rev s1) (rev s).

(** A value that is 0 or 1, and a backend whose Bernoulli variates are
    such values. *)
Definition binary (v : Q) : Prop := v == 0 \/ v == 1.

Definition binary_draws (B : Backend) : Prop :=
  forall (l : Q) (g : rng), binary (fst (bernoulli l g)).

(** [s - lp_1 - ... - lp_k], subtracted in this order. *)
Fixpoint tsub_all (s : tensor) (lps : list tensor) : result tensor :=
  match lps with
  | [] => Ok s
  | lp :: rest => (s' <- tsub s lp ;; tsub_all s' rest)%result
  end.

(** A trace whose sample sites all carry the sum of their log-density,
    a 0-dimensional tensor. *)
Definition fully_scored (tr : trace) : Prop :=
  Forall (fun p => is_sample (snd p) = true ->
                   exists q, log_prob_sum (snd p) = Some (scalar q)) tr.

(** * Properties *)

(** ** Construction *)

(** Case analysis on the first computation of a sequence; the branch in
    which it raises is closed at once. *)
Ltac ok_step :=
  match goal with
  | |- context [rbind ?r _] => destruct r eqn:?; cbn [rbind]; [|discriminate]
  end.

Lemma valid_size_spec (v : pyobj) : valid_size v = true <-> positive_int v.
Proof.
  unfold valid_size, positive_int.
  rewrite andb_true_iff, Z.ltb_lt. reflexivity.
Qed.

Lemma validate_ok (items : list (string * pyobj)) :
  Forall (fun p => positive_int (snd p)) items -> validate items = Ok tt.
Proof.
  induction 1 as [|[name size] rest Hp _ IH]; simpl; [reflexivity|].
  apply valid_size_spec in Hp. simpl in Hp. now rewrite Hp.
Qed.

Lemma validate_raises (items : list (string * pyobj)) :
  ~ Forall (fun p => positive_int (snd p)) items ->
  exists name size,
    In (name, size) items /\ ~ positive_int size /\
    validate items = Raise (ValueError (expected_msg name size)).
Proof.
  induction items as [|[name size] rest IH]; intros Hn.
  - exfalso. apply Hn. constructor.
  - simpl. destruct (valid_size size) eqn:Hv; simpl.
    + destruct IH as (name' & size' & Hin & Hbad & Hr).
      * intros Hall. apply Hn. constructor; [|exact Hall].
        simpl. now apply valid_size_spec.
      * exists name', size'. auto.
    + exists name, size. repeat split; auto.
      intros Hp. apply valid_size_spec in Hp. congruence.
Qed.

(** *** Sizes that are Python ints *)

Lemma nn_Linear_int (i o : Z) (n : nat) :
  (0 <= i)%Z -> (0 <= o)%Z ->
  nn_Linear (PyInt i) (PyInt o) n = Ok (mkLinear i o n (S n), S (S n)).
Proof.
  intros Hi Ho. unfold nn_Linear. cbn [isinstance_int int_value].
  destruct (Z.ltb_spec i 0); [lia|]. destruct (Z.ltb_spec o 0); [lia|].
  reflexivity.
Qed.

(** What a successful [nn.Linear] was given. *)
Lemma nn_Linear_inv (a b : pyobj) (n n' : nat) (l : Linear) :
  nn_Linear a b n = Ok (l, n') ->
  l = mkLinear (int_value a) (int_value b) n (S n) /\ n' = S (S n) /\
  isinstance_int a = true /\ is_int b /\
  (0 <= int_value a)%Z /\ (0 <= int_value b)%Z.
Proof.
  unfold nn_Linear, is_int. destruct b as [o| |]; try discriminate.
  destruct (isinstance_int a); [|discriminate].
  cbn [int_value].
  destruct (Z.ltb_spec (int_value a) 0); [discriminate|].
  destruct (Z.ltb_spec o 0); [discriminate|].
  cbn [orb]. intros [= <- <-]. repeat split; auto.
Qed.

(** A [bool] as input width counts as its integer value. *)
Lemma nn_Linear_norm (a b : pyobj) (n : nat) :
  isinstance_int a = true -> is_int b ->
  nn_Linear a b n = nn_Linear (PyInt (int_value a)) (PyInt (int_value b)) n.
Proof.
  unfold is_int. intros Ha Hb. rewrite Hb at 1. unfold nn_Linear.
  rewrite Ha. reflexivity.
Qed.

Lemma nn_Linear_bool_out (a : pyobj) (b : bool) (n : nat) :
  nn_Linear a (PyBool b) n = Raise TypeError.
Proof. reflexivity. Qed.

Lemma combine_map_tl {A C : Type} (f : A -> C) (l : list A) :
  combine (map f l) (tl (map f l))
  = map (fun p => (f (fst p), f (snd p))) (combine l (tl l)).
Proof.
  destruct l as [|a l]; [reflexivity|]. cbn [map tl].
  revert a. induction l as [|b l IH]; intros a; [reflexivity|].
  cbn [map combine fst snd]. f_equal. apply IH.
Qed.

Lemma combine_ints (sizes : list Z) :
  combine (map PyInt sizes) (tl (map PyInt sizes)) = int_pairs (combine sizes (tl sizes)).
Proof. apply combine_map_tl. Qed.

Lemma fc_loop_cons (i o : Z) (ps : list (pyobj * pyobj)) (n0 : nat) :
  (0 <= i)%Z -> (0 <= o)%Z ->
  fc_loop ((PyInt i, PyInt o) :: ps) n0
  = match fc_loop ps (S (S n0)) with
    | Ok (ls, n') => Ok (Lin (mkLinear i o n0 (S n0)) :: ELU :: ls, n')
    | Raise e => Raise e
    end.
Proof.
  intros Hi Ho. cbn [fc_loop]. unfold cbind at 1. rewrite (nn_Linear_int _ Hi Ho).
  unfold cbind, cret. destruct (fc_loop ps (S (S n0))) as [[ls n']|]; reflexivity.
Qed.

Lemma fc_loop_cons_inv (i o : Z) (ps : list (pyobj * pyobj)) (n0 n1 : nat)
      (layers : list layer) :
  fc_loop ((PyInt i, PyInt o) :: ps) n0 = Ok (layers, n1) ->
  exists rest,
    fc_loop ps (S (S n0)) = Ok (rest, n1) /\
    layers = Lin (mkLinear i o n0 (S n0)) :: ELU :: rest /\
    (0 <= i)%Z /\ (0 <= o)%Z.
Proof.
  cbn [fc_loop]. unfold cbind at 1.
  destruct (nn_Linear (PyInt i) (PyInt o) n0) as [[l n2]|] eqn:Hl; [|discriminate].
  apply nn_Linear_inv in Hl as (-> & -> & _ & _ & Hi & Ho). cbn [int_value] in *.
  unfold cbind, cret.
  destruct (fc_loop ps (S (S n0))) as [[rest n3]|]; [|discriminate].
  intros [= <- <-]. eauto.
Qed.

(** The loop on a successful run is the loop on the integer values. *)
Lemma fc_loop_norm (pairs : list (pyobj * pyobj)) (n0 : nat) (r : list layer * nat) :
  fc_loop pairs n0 = Ok r ->
  fc_loop (int_pairs (map (fun p => (int_value (fst p), int_value (snd p))) pairs)) n0 = Ok r /\
  Forall (fun p => (0 <= int_value (fst p))%Z /\ (0 <= int_value (snd p))%Z) pairs.
Proof.
  revert n0 r. induction pairs as [|[a b] rest IH]; intros n0 r.
  - intros H. split; [exact H|constructor].
  - intros H. cbn [fc_loop] in H. unfold cbind at 1 in H.
    destruct (nn_Linear a b n0) as [[l n1]|] eqn:Hl; [|discriminate].
    apply nn_Linear_inv in Hl as (-> & -> & Ha & Hb & Hpa & Hpb).
    unfold cbind at 1 in H.
    destruct (fc_loop rest (S (S n0))) as [[ls n2]|] eqn:Hrest; [|discriminate].
    destruct (IH _ _ Hrest) as [IH1 IH2].
    unfold cret in H. injection H as <-. split.
    + change (int_pairs (map (fun p => (int_value (fst p), int_value (snd p)))
                             ((a, b) :: rest)))
        with ((PyInt (int_value a), PyInt (int_value b))
              :: int_pairs (map (fun p => (int_value (fst p), int_value (snd p))) rest)).
      rewrite (fc_loop_cons _ _ Hpa Hpb), IH1. reflexivity.
    + constructor; [split; assumption|exact IH2].
Qed.

Lemma fc_loop_ok (pairs : list (Z * Z)) (n0 : nat) :
  Forall (fun p => (0 <= fst p)%Z /\ (0 <= snd p)%Z) pairs ->
  exists layers,
    fc_loop (int_pairs pairs) n0 = Ok (layers, (n0 + 2 * List.length pairs)%nat) /\
    (pairs <> [] -> layers <> []) /\
    (forall id, In id (fc_params layers) ->
                (n0 <= id < n0 + 2 * List.length pairs)%nat).
Proof.
  intros Hpos. revert n0.
  induction Hpos as [|[i o] rest [Hi Ho] _ IH]; intros n0.
  - exists []. cbn. rewrite Nat.add_0_r.
    split; [reflexivity|]. split; [congruence|]. simpl. tauto.
  - destruct (IH (S (S n0))) as (layers & Hl & _ & Hids).
    exists (Lin (mkLinear i o n0 (S n0)) :: ELU :: layers).
    change (int_pairs ((i, o) :: rest)) with ((PyInt i, PyInt o) :: int_pairs rest).
    cbn [List.length].
    rewrite (fc_loop_cons _ _ Hi Ho), Hl. repeat split.
    + do 2 f_equal. simpl. lia.
    + discriminate.
    + simpl in *. destruct H as [<-|[<-|Hin]]; try lia.
      apply Hids in Hin. lia.
    + simpl in *. destruct H as [<-|[<-|Hin]]; try lia.
      apply Hids in Hin. lia.
Qed.

Lemma in_removelast {A : Type} (l : list A) (a : A) :
  In a (removelast l) -> In a l.
Proof.
  induction l as [|b l IH]; simpl; [tauto|].
  destruct l as [|c l]; simpl in *; [tauto|].
  intros [->|H]; auto.
Qed.

Lemma fc_params_removelast (layers : list layer) (id : nat) :
  In id (fc_params (removelast layers)) -> In id (fc_params layers).
Proof.
  unfold fc_params. rewrite !in_flat_map.
  intros (ly & Hin & Hid). exists ly. split; [now apply in_removelast|exact Hid].
Qed.

Lemma Forall_pairs (P : Z -> Prop) (sizes : list Z) :
  Forall P sizes -> Forall (fun p => P (fst p) /\ P (snd p)) (combine sizes (tl sizes)).
Proof.
  intros H. apply Forall_forall. intros [a b] Hin. rewrite Forall_forall in H.
  cbn [fst snd]. split.
  - apply H. eapply in_combine_l. exact Hin.
  - apply H. apply in_combine_r in Hin. destruct sizes; [contradiction|]. now right.
Qed.

Lemma FullyConnected_ok (sizes : list Z) (n0 : nat) :
  Forall (fun z => (0 <= z)%Z) sizes ->
  (2 <= List.length sizes)%nat ->
  exists layers,
    FullyConnected (map PyInt sizes) n0
    = Ok (layers, (n0 + 2 * (List.length sizes - 1))%nat) /\
    (forall id, In id (fc_params layers) ->
                (n0 <= id < n0 + 2 * (List.length sizes - 1))%nat).
Proof.
  intros Hpos Hlen. unfold FullyConnected, cbind. rewrite combine_ints.
  assert (Hc : List.length (combine sizes (tl sizes)) = (List.length sizes - 1)%nat).
  { rewrite length_combine. destruct sizes as [|a l]; [simpl in Hlen; lia|].
    cbn [tl List.length]. lia. }
  destruct (@fc_loop_ok (combine sizes (tl sizes)) n0 (Forall_pairs Hpos))
    as (layers & Hl & Hne & Hids).
  rewrite Hl, Hc in *. unfold clift, list_pop.
  destruct layers as [|ly layers].
  - exfalso. apply Hne; [|reflexivity].
    intros E. rewrite E in Hc. simpl in Hc. lia.
  - eexists. split; [reflexivity|].
    intros id Hin. apply Hids. now apply fc_params_removelast.
Qed.

(** A network that was built is the network of the integer values of
    its sizes, none of which is negative. *)
Lemma FullyConnected_norm (sizes : list pyobj) (n0 : nat) (r : list layer * nat) :
  FullyConnected sizes n0 = Ok r ->
  FullyConnected (map PyInt (int_values sizes)) n0 = Ok r /\
  Forall (fun z => (0 <= z)%Z) (int_values sizes).
Proof.
  unfold FullyConnected, cbind, int_values.
  destruct (fc_loop (combine sizes (tl sizes)) n0) as [[layers n1]|] eqn:Hl;
    [|discriminate].
  apply fc_loop_norm in Hl as [Hl Hpos].
  rewrite combine_ints, combine_map_tl, Hl. intros H. split; [exact H|].
  destruct sizes as [|a [|b rest]].
  - constructor.
  - cbn in Hl. injection Hl as <- <-. discriminate.
  - cbn [tl] in Hpos. apply Forall_forall. intros z Hz.
    apply in_map_iff in Hz as (v & <- & Hv).
    rewrite Forall_forall in Hpos.
    destruct Hv as [<-|Hv].
    + apply (Hpos (a, b)). now left.
    + assert (Hin : exists u, In (u, v) (combine (a :: b :: rest) (b :: rest))).
      { clear -Hv. revert a. induction (b :: rest) as [|c l IH]; intros a;
          [contradiction|].
        destruct Hv as [<-|Hv].
        - exists a. now left.
        - destruct (IH Hv c) as (u & Hu). exists u. now right. }
      destruct Hin as (u & Hu). apply (Hpos (u, v) Hu).
Qed.

Lemma removelast_map {A C : Type} (f : A -> C) (l : list A) :
  removelast (map f l) = map f (removelast l).
Proof.
  induction l as [|a l IH]; [reflexivity|].
  destruct l as [|b l]; [reflexivity|].
  cbn [map removelast] in *. now rewrite IH.
Qed.

Lemma last_map {A C : Type} (f : A -> C) (l : list A) (d : A) :
  last (map f l) (f d) = f (last l d).
Proof.
  induction l as [|a l IH]; [reflexivity|].
  destruct l as [|b l]; [reflexivity|]. exact IH.
Qed.

Lemma int_value_py_mul (v : pyobj) (k : Z) : int_value (py_mul v k) = (int_value v * k)%Z.
Proof. unfold py_mul. destruct v; reflexivity. Qed.

Lemma int_value_py_add (k : Z) (v : pyobj) :
  isinstance_int v = true -> py_add k v = PyInt (k + int_value v).
Proof. unfold py_add. now intros ->. Qed.

(** The sizes [DiagNormalNet] hands to its network, for ints. *)
Lemma DiagNormalNet_sizes_ints (sizes : list Z) :
  removelast (map PyInt sizes) ++ [py_mul (last (map PyInt sizes) (PyInt 0)) 2]
  = map PyInt (removelast sizes ++ [(last sizes 0 * 2)%Z]).
Proof.
  rewrite map_app, removelast_map, (last_map PyInt sizes 0%Z). reflexivity.
Qed.

Lemma DiagNormalNet_sizes_values (sizes : list pyobj) :
  int_values (removelast sizes ++ [py_mul (last sizes (PyInt 0)) 2])
  = removelast (int_values sizes) ++ [(last (int_values sizes) 0 * 2)%Z].
Proof.
  unfold int_values. rewrite map_app, removelast_map. cbn [map].
  rewrite int_value_py_mul.
  change 0%Z with (int_value (PyInt 0)) at 2. now rewrite last_map.
Qed.

Lemma DiagNormalNet_init_ok (sizes : list Z) (n0 : nat) :
  Forall (fun z => (0 <= z)%Z) sizes ->
  (2 <= List.length sizes)%nat ->
  exists net,
    DiagNormalNet_init (map PyInt sizes) n0
    = Ok (net, (n0 + 2 * (List.length sizes - 1))%nat) /\
    (forall id, In id (fc_params (dn_fc net)) ->
                (n0 <= id < n0 + 2 * (List.length sizes - 1))%nat).
Proof.
  intros Hpos Hlen. unfold DiagNormalNet_init, cbind, clift, py_assert.
  rewrite length_map. apply Nat.leb_le in Hlen as Hb. rewrite Hb.
  rewrite DiagNormalNet_sizes_ints.
  assert (Hl : List.length (removelast sizes ++ [(last sizes 0 * 2)%Z]) = List.length sizes).
  { rewrite length_app. simpl.
    destruct sizes as [|a l]; [simpl in Hlen; lia|].
    rewrite (app_removelast_last 0%Z (l := a :: l)) at 2 by discriminate.
    rewrite length_app. reflexivity. }
  assert (Hpos' : Forall (fun z => (0 <= z)%Z) (removelast sizes ++ [(last sizes 0 * 2)%Z])).
  { rewrite Forall_forall in Hpos. apply Forall_app. split.
    - apply Forall_forall. intros z Hz. apply Hpos. now apply in_removelast.
    - constructor; [|constructor].
      assert (0 <= last sizes 0)%Z; [|lia].
      destruct sizes as [|a l]; [simpl; lia|].
      apply Hpos. rewrite (app_removelast_last 0%Z (l := a :: l)) at 2 by discriminate.
      apply in_or_app. right. now left. }
  destruct (@FullyConnected_ok (removelast sizes ++ [(last sizes 0 * 2)%Z]) n0 Hpos')
    as (layers & Hfc & Hids); [lia|].
  rewrite Hfc, Hl in *. exists (mkDiagNormalNet layers). split; [reflexivity|exact Hids].
Qed.

Lemma DiagNormalNet_init_norm (sizes : list pyobj) (n0 : nat) (r : DiagNormalNet * nat) :
  DiagNormalNet_init sizes n0 = Ok r ->
  DiagNormalNet_init (map PyInt (int_values sizes)) n0 = Ok r.
Proof.
  unfold DiagNormalNet_init, cbind, clift, py_assert, int_values.
  rewrite !length_map. destruct (2 <=? List.length sizes)%nat; [|discriminate].
  destruct (FullyConnected _ n0) as [[fc n1]|] eqn:Hfc; [|discriminate].
  apply FullyConnected_norm in Hfc as [Hfc _].
  rewrite DiagNormalNet_sizes_values in Hfc.
  rewrite DiagNormalNet_sizes_ints. unfold int_values in Hfc. rewrite Hfc.
  auto.
Qed.

Lemma BernoulliNet_init_ok (sizes : list Z) (n0 : nat) :
  Forall (fun z => (0 <= z)%Z) sizes ->
  (1 <= List.length sizes)%nat ->
  exists net,
    BernoulliNet_init (map PyInt sizes) n0 = Ok (net, (n0 + 2 * List.length sizes)%nat) /\
    (forall id, In id (fc_params (bn_fc net)) ->
                (n0 <= id < n0 + 2 * List.length sizes)%nat).
Proof.
  intros Hpos Hlen. unfold BernoulliNet_init, cbind, clift, py_assert.
  rewrite length_map. apply Nat.leb_le in Hlen as Hb. rewrite Hb.
  change (map PyInt sizes ++ [PyInt 1]) with (map PyInt sizes ++ map PyInt [1%Z]).
  rewrite <- map_app.
  assert (Hl : (List.length (sizes ++ [1%Z]) - 1 = List.length sizes)%nat).
  { rewrite length_app. simpl. lia. }
  destruct (@FullyConnected_ok (sizes ++ [1%Z]) n0) as (layers & Hfc & Hids).
  { apply Forall_app. split; [exact Hpos|]. constructor; [lia|constructor]. }
  { rewrite length_app. simpl. lia. }
  rewrite Hfc, Hl in *. exists (mkBernoulliNet layers). split; [reflexivity|exact Hids].
Qed.

Lemma BernoulliNet_init_norm (sizes : list pyobj) (n0 : nat) (r : BernoulliNet * nat) :
  BernoulliNet_init sizes n0 = Ok r ->
  BernoulliNet_init (map PyInt (int_values sizes)) n0 = Ok r.
Proof.
  unfold BernoulliNet_init, cbind, clift, py_assert, int_values.
  rewrite !length_map. destruct (1 <=? List.length sizes)%nat; [|discriminate].
  destruct (FullyConnected _ n0) as [[fc n1]|] eqn:Hfc; [|discriminate].
  apply FullyConnected_norm in Hfc as [Hfc _].
  unfold int_values in Hfc. rewrite map_app in Hfc. cbn [map int_value] in Hfc.
  change (map PyInt (map int_value sizes) ++ [PyInt 1])
    with (map PyInt (map int_value sizes) ++ map PyInt [1%Z]).
  rewrite <- map_app, Hfc. auto.
Qed.

(** *** Sizes that are instances of [int] *)

(** A [bool] is accepted as the input width of a layer, where it counts
    as 0 or 1, not as its output width. *)
Lemma fc_loop_denorm (pairs : list (pyobj * pyobj)) (n0 : nat) :
  Forall (fun p => isinstance_int (fst p) = true /\ is_int (snd p)) pairs ->
  fc_loop pairs n0
  = fc_loop (int_pairs (map (fun p => (int_value (fst p), int_value (snd p))) pairs)) n0.
Proof.
  intros H. revert n0. induction H as [|[a b] rest [Ha Hb] _ IH]; intros n0;
    [reflexivity|].
  cbn [fc_loop map int_pairs fst snd] in *. unfold cbind at 1 3.
  rewrite (@nn_Linear_norm a b n0 Ha Hb).
  destruct (nn_Linear _ _ n0) as [[l n1]|]; [|reflexivity].
  unfold cbind. fold (int_pairs (map (fun p => (int_value (fst p), int_value (snd p))) rest)).
  now rewrite IH.
Qed.

Lemma is_int_isinstance (v : pyobj) : is_int v -> isinstance_int v = true.
Proof. unfold is_int. now intros ->. Qed.

Lemma FullyConnected_denorm (a : pyobj) (rest : list pyobj) (n0 : nat) :
  isinstance_int a = true -> Forall is_int rest ->
  FullyConnected (a :: rest) n0 = FullyConnected (map PyInt (int_values (a :: rest))) n0.
Proof.
  intros Ha Hrest. unfold FullyConnected, cbind, int_values.
  rewrite combine_ints, combine_map_tl, <- fc_loop_denorm; [reflexivity|].
  cbn [tl]. revert a Ha. induction Hrest as [|b rest Hb _ IH]; intros a Ha;
    [constructor|].
  cbn [combine]. constructor; [split; assumption|].
  apply IH. now apply is_int_isinstance.
Qed.

Lemma Forall_is_int_app_py_mul (mid : list pyobj) (b : pyobj) :
  Forall is_int mid -> isinstance_int b = true -> Forall is_int (mid ++ [py_mul b 2]).
Proof.
  intros Hm Hb. apply Forall_app. split; [exact Hm|].
  constructor; [|constructor]. unfold py_mul, is_int. now rewrite Hb.
Qed.

Lemma removelast_app3 {A : Type} (a : A) (mid : list A) (b : A) :
  removelast ([a] ++ mid ++ [b]) = [a] ++ mid.
Proof.
  change ([a] ++ mid ++ [b]) with ((a :: mid) ++ [b]). apply removelast_last.
Qed.

Lemma last_app3 {A : Type} (a : A) (mid : list A) (b d : A) :
  last ([a] ++ mid ++ [b]) d = b.
Proof.
  change ([a] ++ mid ++ [b]) with ((a :: mid) ++ [b]). apply last_last.
Qed.

Lemma DiagNormalNet_init_denorm (a : pyobj) (mid : list pyobj) (b : pyobj) (n0 : nat) :
  isinstance_int a = true -> Forall is_int mid -> isinstance_int b = true ->
  DiagNormalNet_init ([a] ++ mid ++ [b]) n0
  = DiagNormalNet_init (map PyInt (int_values ([a] ++ mid ++ [b]))) n0.
Proof.
  intros Ha Hm Hb. unfold DiagNormalNet_init, cbind, clift, py_assert, int_values.
  rewrite !length_map.
  destruct (2 <=? List.length ([a] ++ mid ++ [b]))%nat; [|reflexivity].
  rewrite DiagNormalNet_sizes_ints.
  pose proof (DiagNormalNet_sizes_values ([a] ++ mid ++ [b])) as E.
  unfold int_values in E. rewrite <- E.
  rewrite removelast_app3, last_app3.
  change (([a] ++ mid) ++ [py_mul b 2]) with (a :: (mid ++ [py_mul b 2])).
  rewrite (@FullyConnected_denorm a (mid ++ [py_mul b 2]) n0 Ha
             (@Forall_is_int_app_py_mul mid b Hm Hb)).
  reflexivity.
Qed.

Lemma BernoulliNet_init_denorm (a : pyobj) (rest : list pyobj) (n0 : nat) :
  isinstance_int a = true -> Forall is_int rest ->
  BernoulliNet_init (a :: rest) n0
  = BernoulliNet_init (map PyInt (int_values (a :: rest))) n0.
Proof.
  intros Ha Hrest. unfold BernoulliNet_init, cbind, clift, py_assert, int_values.
  rewrite !length_map.
  destruct (1 <=? List.length (a :: rest))%nat; [|reflexivity].
  change ((a :: rest) ++ [PyInt 1]) with (a :: (rest ++ [PyInt 1])).
  rewrite (@FullyConnected_denorm a (rest ++ [PyInt 1]) n0 Ha).
  - unfold int_values. cbn [map]. rewrite !map_app. reflexivity.
  - apply Forall_app. split; [exact Hrest|]. repeat constructor.
Qed.

Lemma int_values_repeat (h : pyobj) (n : nat) :
  int_values (repeat h n) = repeat (int_value h) n.
Proof. unfold int_values. induction n; simpl; congruence. Qed.

Lemma int_values_sizes3 (a h b : pyobj) (n : nat) :
  int_values ([a] ++ repeat h n ++ [b])
  = [int_value a] ++ repeat (int_value h) n ++ [int_value b].
Proof.
  unfold int_values. rewrite !map_app.
  fold (int_values (repeat h n)). now rewrite int_values_repeat.
Qed.

Lemma int_values_sizes2 (a h : pyobj) (n : nat) :
  int_values ([a] ++ repeat h n) = [int_value a] ++ repeat (int_value h) n.
Proof.
  unfold int_values. rewrite !map_app.
  fold (int_values (repeat h n)). now rewrite int_values_repeat.
Qed.

Lemma FullyConnected_denorm2 (a h : pyobj) (n : nat) (n0 : nat) :
  isinstance_int a = true -> is_int h ->
  FullyConnected ([a] ++ repeat h n) n0
  = FullyConnected (map PyInt ([int_value a] ++ repeat (int_value h) n)) n0.
Proof.
  intros Ha Hh. rewrite <- int_values_sizes2.
  apply FullyConnected_denorm; [exact Ha|]. clear -Hh.
  induction n; simpl; constructor; auto.
Qed.

Lemma BernoulliNet_init_denorm2 (a h : pyobj) (n : nat) (n0 : nat) :
  isinstance_int a = true -> is_int h ->
  BernoulliNet_init ([a] ++ repeat h n) n0
  = BernoulliNet_init (map PyInt ([int_value a] ++ repeat (int_value h) n)) n0.
Proof.
  intros Ha Hh. rewrite <- int_values_sizes2.
  apply BernoulliNet_init_denorm; [exact Ha|]. clear -Hh.
  induction n; simpl; constructor; auto.
Qed.

Lemma BernoulliNet_init_denorm1 (a : pyobj) (n0 : nat) :
  isinstance_int a = true ->
  BernoulliNet_init [a] n0 = BernoulliNet_init (map PyInt [int_value a]) n0.
Proof. intros Ha. now apply BernoulliNet_init_denorm. Qed.

Lemma DiagNormalNet_init_denorm3 (a h b : pyobj) (n : nat) (n0 : nat) :
  isinstance_int a = true -> is_int h -> isinstance_int b = true ->
  DiagNormalNet_init ([a] ++ repeat h n ++ [b]) n0
  = DiagNormalNet_init
      (map PyInt ([int_value a] ++ repeat (int_value h) n ++ [int_value b])) n0.
Proof.
  intros Ha Hh Hb. rewrite <- int_values_sizes3.
  apply DiagNormalNet_init_denorm; [exact Ha| |exact Hb]. clear -Hh.
  induction n; simpl; constructor; auto.
Qed.

Lemma list_repeat_int (h k : pyobj) :
  isinstance_int k = true ->
  list_repeat h k = Ok (repeat h (Z.to_nat (int_value k))).
Proof. unfold list_repeat. now intros ->. Qed.

Lemma list_repeat_inv (h k : pyobj) (hs : list pyobj) :
  list_repeat h k = Ok hs ->
  isinstance_int k = true /\ hs = repeat h (Z.to_nat (int_value k)).
Proof.
  unfold list_repeat. destruct (isinstance_int k); [|discriminate].
  intros [= <-]. auto.
Qed.

Lemma Forall_repeat {A : Type} (P : A -> Prop) (a : A) (n : nat) :
  P a -> Forall P (repeat a n).
Proof. intros H. induction n; simpl; constructor; auto. Qed.

Lemma length_repeated (h k : Z) : List.length (repeated h k) = Z.to_nat k.
Proof. unfold repeated. apply repeat_length. Qed.

(** *** The model and the guide *)

Section Networks_of_a_configuration.
Variable c : config.
Let latent := int_value (latent_dim c).
Let hidden := int_value (hidden_dim c).
Let layers := int_value (num_layers c).
Let feature := int_value (feature_dim c).

(** The networks of a model that was built are those of the integer
    values of the configuration. *)
Lemma Model_init_parts (n0 n4 : nat) (self : Model) :
  Model_init c n0 = Ok (self, n4) ->
  exists n1 n2 n3,
    DiagNormalNet_init (map PyInt ([latent] ++ repeated hidden layers ++ [feature])) n0
    = Ok (m_x_nn self, n1) /\
    BernoulliNet_init (map PyInt ([latent] ++ repeated hidden layers)) n1
    = Ok (m_y0_nn self, n2) /\
    BernoulliNet_init (map PyInt ([latent] ++ repeated hidden layers)) n2
    = Ok (m_y1_nn self, n3) /\
    BernoulliNet_init (map PyInt [latent]) n3 = Ok (m_t_nn self, n4) /\
    m_latent_dim self = latent /\
    isinstance_int (num_layers c) = true.
Proof.
  unfold Model_init, cbind, clift.
  destruct (list_repeat (hidden_dim c) (num_layers c)) as [hs|] eqn:Hhs; [|discriminate].
  apply list_repeat_inv in Hhs as [Hk ->].
  destruct (DiagNormalNet_init _ n0) as [[x_nn n1]|] eqn:Hx; [|discriminate].
  destruct (BernoulliNet_init _ n1) as [[y0 n2]|] eqn:Hy0; [|discriminate].
  destruct (BernoulliNet_init _ n2) as [[y1 n3]|] eqn:Hy1; [|discriminate].
  destruct (BernoulliNet_init _ n3) as [[t_nn n4']|] eqn:Ht; [|discriminate].
  unfold cret. intros [= <- <-]. cbn [m_x_nn m_y0_nn m_y1_nn m_t_nn m_latent_dim].
  apply DiagNormalNet_init_norm in Hx. apply BernoulliNet_init_norm in Hy0, Hy1, Ht.
  rewrite int_values_sizes3 in Hx. rewrite int_values_sizes2 in Hy0, Hy1.
  exists n1, n2, n3. unfold repeated, latent, hidden, layers, feature.
  auto 10.
Qed.

Lemma Guide_init_parts (n0 n6 : nat) (self : Guide) :
  Guide_init c n0 = Ok (self, n6) ->
  exists n1 n2 n3 n4 n5,
    BernoulliNet_init (map PyInt [feature]) n0 = Ok (g_t_nn self, n1) /\
    FullyConnected (map PyInt ([feature] ++ repeated hidden layers)) n1
    = Ok (g_y_nn self, n2) /\
    BernoulliNet_init (map PyInt [hidden]) n2 = Ok (g_y0_nn self, n3) /\
    BernoulliNet_init (map PyInt [hidden]) n3 = Ok (g_y1_nn self, n4) /\
    DiagNormalNet_init (map PyInt ([1 + feature]%Z ++ repeated hidden layers ++ [latent])) n4
    = Ok (g_z0_nn self, n5) /\
    DiagNormalNet_init (map PyInt ([1 + feature]%Z ++ repeated hidden layers ++ [latent])) n5
    = Ok (g_z1_nn self, n6) /\
    g_latent_dim self = latent /\
    isinstance_int (num_layers c) = true /\
    isinstance_int (feature_dim c) = true.
Proof.
  unfold Guide_init, cbind, clift.
  destruct (BernoulliNet_init _ n0) as [[t_nn n1]|] eqn:Ht; [|discriminate].
  destruct (list_repeat (hidden_dim c) (num_layers c)) as [hs|] eqn:Hhs; [|discriminate].
  apply list_repeat_inv in Hhs as [Hk ->].
  destruct (FullyConnected _ n1) as [[y_nn n2]|] eqn:Hy; [|discriminate].
  destruct (BernoulliNet_init _ n2) as [[y0 n3]|] eqn:Hy0; [|discriminate].
  destruct (BernoulliNet_init _ n3) as [[y1 n4]|] eqn:Hy1; [|discriminate].
  destruct (DiagNormalNet_init _ n4) as [[z0 n5]|] eqn:Hz0; [|discriminate].
  destruct (DiagNormalNet_init _ n5) as [[z1 n6']|] eqn:Hz1; [|discriminate].
  unfold cret. intros [= <- <-].
  cbn [g_t_nn g_y_nn g_y0_nn g_y1_nn g_z0_nn g_z1_nn g_latent_dim].
  assert (Hf : isinstance_int (feature_dim c) = true).
  { unfold BernoulliNet_init, cbind, clift, py_assert in Ht. cbn [List.length Nat.leb] in Ht.
    destruct (FullyConnected _ n0) as [[fc m]|] eqn:Hfc; [|discriminate].
    unfold FullyConnected, cbind in Hfc. cbn [app tl combine fc_loop] in Hfc.
    unfold cbind at 1 in Hfc.
    destruct (nn_Linear (feature_dim c) (PyInt 1) n0) as [[l m']|] eqn:Hl; [|discriminate].
    now apply nn_Linear_inv in Hl as (_ & _ & Hf & _). }
  apply BernoulliNet_init_norm in Ht, Hy0, Hy1.
  apply FullyConnected_norm in Hy as [Hy _].
  apply DiagNormalNet_init_norm in Hz0, Hz1.
  rewrite int_values_sizes3 in Hz0, Hz1. rewrite int_values_sizes2 in Hy.
  rewrite (@int_value_py_add 1 _ Hf) in Hz0, Hz1. cbn [int_value] in Hz0, Hz1.
  exists n1, n2, n3, n4, n5. unfold repeated, latent, hidden, layers, feature.
  auto 12.
Qed.

(** Conversely, sizes that are instances of [int], the width of the
    hidden layers being an [int] proper, are handed to the layers as
    their integer values. *)
Hypothesis Hfeature : isinstance_int (feature_dim c) = true.
Hypothesis Hlatent : isinstance_int (latent_dim c) = true.
Hypothesis Hhidden : is_int (hidden_dim c).
Hypothesis Hlayers : isinstance_int (num_layers c) = true.

Lemma Model_init_ints (n0 : nat) :
  Model_init c n0
  = (x_nn <- DiagNormalNet_init (map PyInt ([latent] ++ repeated hidden layers ++ [feature])) ;;
     y0_nn <- BernoulliNet_init (map PyInt ([latent] ++ repeated hidden layers)) ;;
     y1_nn <- BernoulliNet_init (map PyInt ([latent] ++ repeated hidden layers)) ;;
     t_nn <- BernoulliNet_init (map PyInt [latent]) ;;
     cret (mkModel latent x_nn y0_nn y1_nn t_nn))%ctor n0.
Proof.
  unfold Model_init, cbind, clift, cret, repeated, latent, hidden, layers, feature.
  rewrite (@list_repeat_int (hidden_dim c) (num_layers c) Hlayers). cbv beta iota.
  rewrite (@DiagNormalNet_init_denorm3 _ _ _ _ n0 Hlatent Hhidden Hfeature).
  destruct (DiagNormalNet_init _ n0) as [[x_nn n1]|]; [|reflexivity].
  rewrite (@BernoulliNet_init_denorm2 _ _ _ n1 Hlatent Hhidden).
  destruct (BernoulliNet_init _ n1) as [[y0 n2]|]; [|reflexivity].
  rewrite (@BernoulliNet_init_denorm2 _ _ _ n2 Hlatent Hhidden).
  destruct (BernoulliNet_init _ n2) as [[y1 n3]|]; [|reflexivity].
  rewrite (@BernoulliNet_init_denorm1 _ n3 Hlatent).
  reflexivity.
Qed.

Lemma Guide_init_ints (n0 : nat) :
  Guide_init c n0
  = (t_nn <- BernoulliNet_init (map PyInt [feature]) ;;
     y_nn <- FullyConnected (map PyInt ([feature] ++ repeated hidden layers)) ;;
     y0_nn <- BernoulliNet_init (map PyInt [hidden]) ;;
     y1_nn <- BernoulliNet_init (map PyInt [hidden]) ;;
     z0_nn <- DiagNormalNet_init
                (map PyInt ([1 + feature]%Z ++ repeated hidden layers ++ [latent])) ;;
     z1_nn <- DiagNormalNet_init
                (map PyInt ([1 + feature]%Z ++ repeated hidden layers ++ [latent])) ;;
     cret (mkGuide latent t_nn y_nn y0_nn y1_nn z0_nn z1_nn))%ctor n0.
Proof.
  unfold Guide_init, cbind, clift, cret, repeated, latent, hidden, layers, feature.
  rewrite (@list_repeat_int (hidden_dim c) (num_layers c) Hlayers). cbv beta iota.
  rewrite (@int_value_py_add 1 _ Hfeature).
  rewrite (@BernoulliNet_init_denorm1 _ n0 Hfeature).
  destruct (BernoulliNet_init _ n0) as [[t_nn n1]|]; [|reflexivity].
  rewrite (@FullyConnected_denorm2 _ _ _ n1 Hfeature Hhidden).
  destruct (FullyConnected _ n1) as [[y_nn n2]|]; [|reflexivity].
  rewrite (@BernoulliNet_init_denorm1 _ n2 (@is_int_isinstance _ Hhidden)).
  destruct (BernoulliNet_init _ n2) as [[y0 n3]|]; [|reflexivity].
  rewrite (@BernoulliNet_init_denorm1 _ n3 (@is_int_isinstance _ Hhidden)).
  destruct (BernoulliNet_init _ n3) as [[y1 n4]|]; [|reflexivity].
  rewrite (@DiagNormalNet_init_denorm3 (PyInt (1 + int_value (feature_dim c))) _ _ _ n4
             eq_refl Hhidden Hlatent).
  destruct (DiagNormalNet_init _ n4) as [[z0 n5]|]; [|reflexivity].
  rewrite (@DiagNormalNet_init_denorm3 (PyInt (1 + int_value (feature_dim c))) _ _ _ n5
             eq_refl Hhidden Hlatent).
  reflexivity.
Qed.

Hypothesis Hfeature_pos : (0 <= feature)%Z.
Hypothesis Hlatent_pos : (0 <= latent)%Z.
Hypothesis Hhidden_pos : (0 <= hidden)%Z.

Lemma Forall_sizes3 (P : Z -> Prop) (a h k b : Z) :
  P a -> P h -> P b -> Forall P ([a] ++ repeated h k ++ [b]).
Proof.
  intros Ha Hh Hb. constructor; [exact Ha|]. apply Forall_app. split.
  - now apply Forall_repeat.
  - now constructor.
Qed.

Lemma Forall_sizes2 (P : Z -> Prop) (a h k : Z) :
  P a -> P h -> Forall P ([a] ++ repeated h k).
Proof.
  intros Ha Hh. constructor; [exact Ha|]. now apply Forall_repeat.
Qed.

Lemma Model_init_ok (n0 : nat) :
  exists self n1 n2 n3 n4,
    Model_init c n0 = Ok (self, n4) /\
    m_latent_dim self = latent /\
    (n1 <= n2 <= n3)%nat /\
    (forall id, In id (fc_params (bn_fc (m_y0_nn self))) -> (n1 <= id < n2)%nat) /\
    (forall id, In id (fc_params (bn_fc (m_y1_nn self))) -> (n2 <= id < n3)%nat).
Proof.
  rewrite Model_init_ints.
  set (k := layers).
  destruct (@DiagNormalNet_init_ok ([latent] ++ repeated hidden k ++ [feature]) n0)
    as (x_nn & Hx & _).
  { now apply Forall_sizes3. }
  { rewrite !length_app. simpl. lia. }
  set (n1 := (n0 + 2 * (List.length ([latent] ++ repeated hidden k ++ [feature]) - 1))%nat) in *.
  destruct (@BernoulliNet_init_ok ([latent] ++ repeated hidden k) n1) as (y0 & Hy0 & Hid0).
  { now apply Forall_sizes2. }
  { rewrite !length_app. simpl. lia. }
  set (n2 := (n1 + 2 * List.length ([latent] ++ repeated hidden k))%nat) in *.
  destruct (@BernoulliNet_init_ok ([latent] ++ repeated hidden k) n2) as (y1 & Hy1 & Hid1).
  { now apply Forall_sizes2. }
  { rewrite !length_app. simpl. lia. }
  set (n3 := (n2 + 2 * List.length ([latent] ++ repeated hidden k))%nat) in *.
  destruct (@BernoulliNet_init_ok [latent] n3) as (t_nn & Ht & _).
  { now constructor. }
  { simpl. lia. }
  exists (mkModel latent x_nn y0 y1 t_nn), n1, n2, n3.
  eexists. unfold cbind. rewrite Hx, Hy0, Hy1, Ht. unfold cret.
  split; [reflexivity|]. split; [reflexivity|]. split; [lia|].
  split; assumption.
Qed.

Lemma Guide_init_ok (n0 : nat) :
  (0 < layers)%Z ->
  exists self n1, Guide_init c n0 = Ok (self, n1).
Proof.
  intros Hk. rewrite Guide_init_ints.
  set (k := layers) in *.
  assert (Hrep : (1 <= List.length (repeated hidden k))%nat).
  { rewrite length_repeated. lia. }
  unfold cbind.
  destruct (@BernoulliNet_init_ok [feature] n0) as (t_nn & -> & _);
    [now constructor|simpl; lia|].
  destruct (@FullyConnected_ok ([feature] ++ repeated hidden k)
              (n0 + 2 * List.length [feature])) as (y_nn & -> & _).
  { now apply Forall_sizes2. }
  { rewrite length_app. simpl. lia. }
  match goal with |- context [BernoulliNet_init (map PyInt [hidden]) ?n] =>
    destruct (@BernoulliNet_init_ok [hidden] n) as (y0 & -> & _);
      [now constructor|simpl; lia|] end.
  match goal with |- context [BernoulliNet_init (map PyInt [hidden]) ?n] =>
    destruct (@BernoulliNet_init_ok [hidden] n) as (y1 & -> & _);
      [now constructor|simpl; lia|] end.
  match goal with |- context [DiagNormalNet_init (map PyInt ?s) ?n] =>
    destruct (@DiagNormalNet_init_ok s n) as (z0 & -> & _);
      [apply Forall_sizes3; lia|rewrite !length_app; simpl; lia|] end.
  match goal with |- context [DiagNormalNet_init (map PyInt ?s) ?n] =>
    destruct (@DiagNormalNet_init_ok s n) as (z1 & -> & _);
      [apply Forall_sizes3; lia|rewrite !length_app; simpl; lia|] end.
  unfold cret. eauto.
Qed.

End Networks_of_a_configuration.

(** *** [CEVAE.__init__] *)

Lemma Forall_config_items (P : pyobj -> Prop) (f l h k : pyobj) :
  Forall (fun p => P (snd p)) (config_items (mkConfig f l h k)) <-> Forall P [f; l; h; k].
Proof.
  unfold config_items; simpl.
  rewrite !Forall_cons_iff. simpl.
  split; intros (Hf & Hl & Hh & Hk & _); repeat split; auto.
Qed.

Lemma Forall4 {A : Type} (P : A -> Prop) (a b c d : A) :
  Forall P [a; b; c; d] <-> P a /\ P b /\ P c /\ P d.
Proof.
  rewrite !Forall_cons_iff. split.
  - intros (Ha & Hb & Hc & Hd & _). auto.
  - intros (Ha & Hb & Hc & Hd). auto.
Qed.

(** With four positive integers construction succeeds, provided the width
    of the hidden layers is an [int] proper. *)
Lemma CEVAE_init_ok (f l h k : pyobj) (n0 : nat) :
  Forall positive_int [f; l; h; k] -> is_int h ->
  exists self n1, CEVAE_init f l h k n0 = Ok (self, n1).
Proof.
  intros Hall Hh.
  pose proof Hall as Hall'. apply Forall4 in Hall' as ([Hf Hfp] & [Hl Hlp] & [_ Hhp] & [Hk Hkp]).
  unfold CEVAE_init, cbind, clift.
  rewrite validate_ok by (apply Forall_config_items; exact Hall).
  destruct (@Model_init_ok (mkConfig f l h k) Hf Hl Hh Hk
              ltac:(simpl; lia) ltac:(simpl; lia) ltac:(simpl; lia) n0)
    as (m & n1 & n2 & n3 & n4 & -> & _).
  destruct (@Guide_init_ok (mkConfig f l h k) Hf Hl Hh Hk
              ltac:(simpl; lia) ltac:(simpl; lia) ltac:(simpl; lia) n4)
    as (gd & n5 & ->); [exact Hkp|].
  unfold cret. eauto.
Qed.

(** [True] as the width of the hidden layers passes the validation and
    is refused by the first layer. *)
Lemma Model_init_hidden_bool (c : config) (b : bool) (n0 : nat) :
  hidden_dim c = PyBool b -> (0 < int_value (num_layers c))%Z ->
  isinstance_int (num_layers c) = true ->
  Model_init c n0 = Raise TypeError.
Proof.
  intros Hh Hk Hi. unfold Model_init. unfold cbind at 1. unfold clift at 1.
  rewrite (@list_repeat_int _ _ Hi), Hh.
  destruct (Z.to_nat (int_value (num_layers c))) as [|k] eqn:E; [lia|].
  unfold cbind at 1. unfold DiagNormalNet_init. unfold cbind at 1.
  unfold clift, py_assert.
  replace (2 <=? List.length ([latent_dim c] ++ repeat (PyBool b) (S k) ++ [feature_dim c]))%nat
    with true by (symmetry; apply Nat.leb_le; rewrite !length_app; simpl; lia).
  unfold cbind at 1. rewrite removelast_app3.
  unfold FullyConnected. unfold cbind at 1.
  cbn [app repeat tl combine fc_loop]. unfold cbind at 1.
  now rewrite nn_Linear_bool_out.
Qed.

Lemma positive_int_cases (v : pyobj) :
  positive_int v -> is_int v \/ v = PyBool true.
Proof.
  unfold positive_int, is_int. destruct v as [z|[|]|r]; cbn.
  - auto.
  - auto.
  - intros [_ H]. lia.
  - intros [H _]. discriminate.
Qed.

Lemma CEVAE_init_hidden_True (f l k : pyobj) (n0 : nat) :
  Forall positive_int [f; l; PyBool true; k] ->
  CEVAE_init f l (PyBool true) k n0 = Raise TypeError.
Proof.
  intros Hall.
  pose proof Hall as Hall'. apply Forall4 in Hall' as (_ & _ & _ & [Hk Hkp]).
  unfold CEVAE_init, cbind, clift.
  rewrite validate_ok by (apply Forall_config_items; exact Hall).
  now rewrite (@Model_init_hidden_bool (mkConfig f l (PyBool true) k) true n0 eq_refl Hkp Hk).
Qed.

Lemma Forall_positive_dec (vs : list pyobj) :
  Forall positive_int vs \/ ~ Forall positive_int vs.
Proof.
  destruct (forallb valid_size vs) eqn:E.
  - left. rewrite forallb_forall in E. apply Forall_forall.
    intros v Hv. apply valid_size_spec. auto.
  - right. intros Hall. rewrite Forall_forall in Hall.
    assert (forallb valid_size vs = true); [|congruence].
    apply forallb_forall. intros v Hv. apply valid_size_spec. auto.
Qed.

Lemma CEVAE_init_invalid (f l h k : pyobj) (n0 : nat) :
  ~ Forall positive_int [f; l; h; k] ->
  exists name size,
    In (name, size) (config_items (mkConfig f l h k)) /\
    ~ positive_int size /\
    CEVAE_init f l h k n0 = Raise (ValueError (expected_msg name size)).
Proof.
  intros Hn. rewrite <- Forall_config_items in Hn.
  destruct (validate_raises Hn) as (name & size & Hin & Hp & Hv).
  exists name, size. repeat split; auto.
  unfold CEVAE_init, cbind, clift. now rewrite Hv.
Qed.

(** The three outcomes of the constructor. *)
Lemma CEVAE_init_cases (f l h k : pyobj) (n0 : nat) :
  (~ Forall positive_int [f; l; h; k] /\
   exists name size,
     In (name, size) (config_items (mkConfig f l h k)) /\
     ~ positive_int size /\
     CEVAE_init f l h k n0 = Raise (ValueError (expected_msg name size))) \/
  (Forall positive_int [f; l; h; k] /\ h = PyBool true /\
   CEVAE_init f l h k n0 = Raise TypeError) \/
  (Forall positive_int [f; l; h; k] /\ is_int h /\
   exists self n1, CEVAE_init f l h k n0 = Ok (self, n1)).
Proof.
  destruct (Forall_positive_dec [f; l; h; k]) as [Hall|Hn].
  - right. pose proof Hall as Hall'. apply Forall4 in Hall' as (_ & _ & Hh & _).
    destruct (positive_int_cases Hh) as [Hi| ->].
    + right. split; [exact Hall|]. split; [exact Hi|]. now apply CEVAE_init_ok.
    + left. split; [exact Hall|]. split; [reflexivity|]. now apply CEVAE_init_hidden_True.
  - left. split; [exact Hn|]. now apply CEVAE_init_invalid.
Qed.

(** C4: construction raises a [ValueError] exactly when one of the four
    values is not a positive instance of [int], and the message then names
    an offending field and its value; when all four are positive ints
    proper construction succeeds; [True] as the width of the hidden
    layers passes the validation and makes the first layer raise
    [TypeError]. *)
Theorem CEVAE_init_validation (f l h k : pyobj) (n0 : nat) :
  ((exists msg, CEVAE_init f l h k n0 = Raise (ValueError msg))
   <-> ~ Forall positive_int [f; l; h; k]) /\
  (forall msg, CEVAE_init f l h k n0 = Raise (ValueError msg) ->
     exists name size,
       In (name, size) (config_items (mkConfig f l h k)) /\
       ~ positive_int size /\
       msg = expected_msg name size) /\
  (Forall positive_int [f; l; h; k] -> Forall is_int [f; l; h; k] ->
   exists self n1, CEVAE_init f l h k n0 = Ok (self, n1)) /\
  (Forall positive_int [f; l; h; k] -> h = PyBool true ->
   CEVAE_init f l h k n0 = Raise TypeError).
Proof.
  destruct (CEVAE_init_cases f l h k n0)
    as [(Hn & name & size & Hin & Hp & Hr)
       |[(Hall & Hh & Hr)|(Hall & Hh & self & n1 & Hr)]];
    rewrite Hr.
  - split; [|split; [|split]].
    + split; [intros _; exact Hn|eauto].
    + intros msg [= <-]. exists name, size. auto.
    + intros Hall. contradiction.
    + intros Hall. contradiction.
  - split; [|split; [|split]].
    + split; [intros (msg & Hm); discriminate|intros Hn; contradiction].
    + discriminate.
    + intros _ Hint. apply Forall4 in Hint as (_ & _ & Hi & _).
      unfold is_int in Hi. rewrite Hh in Hi. discriminate.
    + reflexivity.
  - split; [|split; [|split]].
    + split; [intros (msg & Hm); discriminate|intros Hn; contradiction].
    + discriminate.
    + eauto.
    + intros _ ->. unfold is_int in Hh. discriminate.
Qed.

Lemma CEVAE_init_validation_witness :
  exists self n1, CEVAE_init (PyInt 5) (PyInt 20) (PyInt 200) (PyInt 3) 0%nat = Ok (self, n1).
Proof.
  apply (CEVAE_init_validation (PyInt 5) (PyInt 20) (PyInt 200) (PyInt 3) 0%nat).
  - repeat constructor; simpl; lia.
  - repeat constructor.
Defined.

(** Positive integers do not suffice for the construction to succeed:
    with [hidden_dim = True] the four values are positive instances of
    [int], and construction neither succeeds nor reports a validation
    error. *)
Lemma CEVAE_init_hidden_True_counterexample :
  Forall positive_int [PyInt 2; PyInt 1; PyBool true; PyInt 1] /\
  ~ (exists self n1,
       CEVAE_init (PyInt 2) (PyInt 1) (PyBool true) (PyInt 1) 0%nat = Ok (self, n1)) /\
  ~ (exists msg,
       CEVAE_init (PyInt 2) (PyInt 1) (PyBool true) (PyInt 1) 0%nat
       = Raise (ValueError msg)).
Proof.
  split; [repeat constructor|].
  split; intros (a & H); [destruct H as (n1 & H)|]; vm_compute in H; discriminate.
Qed.




(** ** The assertions of [fit] *)

(** C3: a [y] without dimensions, next to covariates and treatments of
    the right shapes, passes the three assertions of [fit], the third of
    which compares the shape of [y] with itself; the data set then asks
    it for its first dimension, and what [fit] raises is an [IndexError],
    not an [AssertionError]. *)
Theorem fit_raises_IndexError_without_dimension :
  fit_asserts 5 [4; 5]%nat [4]%nat [] = Ok tt /\
  fit_dataset 5 [4; 5]%nat [4]%nat [] = Raise IndexError /\
  fit_dataset 5 [4; 5]%nat [4]%nat [] <> Raise AssertionError.
Proof. split; [reflexivity|]. split; [reflexivity|discriminate]. Qed.

(** The inputs the three assertions accept. *)
Lemma fit_asserts_spec (fd : Z) (xs ts ys : list nat) :
  fit_asserts fd xs ts ys = Ok tt <->
  (exists n w, xs = [n; w] /\ Z.of_nat w = fd /\ ts = [n]) /\ (List.length ys <= 1)%nat.
Proof.
  unfold fit_asserts, py_assert, shape_eqb. split.
  - destruct xs as [|n [|w [|? ?]]]; try discriminate.
    change (firstn 1 [n; w]) with [n]. cbn -[firstn list_eq_dec].
    destruct (Z.of_nat w =? fd)%Z eqn:Hw; cbn -[firstn list_eq_dec]; [|discriminate].
    destruct (list_eq_dec Nat.eq_dec ts [n]) as [->|];
      cbn -[firstn list_eq_dec]; [|discriminate].
    destruct (list_eq_dec Nat.eq_dec ys (firstn 1 ys)) as [E|];
      cbn -[firstn list_eq_dec]; [|discriminate].
    intros _. split.
    + exists n, w. apply Z.eqb_eq in Hw. auto.
    + rewrite E. rewrite length_firstn. lia.
  - intros [(n & w & -> & Hw & ->) Hy].
    change (firstn 1 [n; w]) with [n]. cbn -[firstn list_eq_dec].
    apply Z.eqb_eq in Hw. rewrite Hw. cbn -[firstn list_eq_dec].
    destruct (list_eq_dec Nat.eq_dec [n] [n]) as [_|Hn]; [|congruence].
    cbn -[firstn list_eq_dec].
    destruct (list_eq_dec Nat.eq_dec ys (firstn 1 ys)) as [_|Hn]; [reflexivity|].
    exfalso. apply Hn. destruct ys as [|a [|b ys]]; simpl in *; try reflexivity. lia.
Qed.

(** ** The objective *)

Lemma lookup_filter_neq {A : Type} (name other : string) (l : list (string * A)) :
  name <> other ->
  lookup name (filter (fun p => negb (String.eqb (fst p) other)) l) = lookup name l.
Proof.
  intros Hne. induction l as [|[k v] l IH]; simpl; [reflexivity|].
  destruct (String.eqb_spec k other) as [->|Hk]; simpl.
  - destruct (String.eqb_spec other name) as [E|_]; [congruence|exact IH].
  - rewrite IH. reflexivity.
Qed.

(** The guide trace without the sites [t] and [y]. *)
Lemma del_t_y (guide_trace : trace) (st sy : site) :
  lookup "t" guide_trace = Some st ->
  lookup "y" guide_trace = Some sy ->
  del_nodes ["t"; "y"] guide_trace
  = Ok (filter (fun p => negb (mem (fst p) ["t"; "y"])) guide_trace).
Proof.
  intros Ht Hy. simpl. unfold del_node. rewrite Ht. simpl.
  rewrite lookup_filter_neq by discriminate. rewrite Hy. simpl. f_equal.
  clear. induction guide_trace as [|[k v] l IH]; simpl; [reflexivity|].
  unfold mem. simpl.
  destruct (String.eqb k "t"); simpl; [exact IH|].
  destruct (String.eqb k "y"); simpl; [exact IH|now rewrite IH].
Qed.

Section ObjectiveFacts.
Variable super_loss_particle : trace -> trace -> result (Q * tensor).

(** C1: on a guide trace whose observed sample sites are [t] and [y],
    the particle loss is the loss of the parent class on the trace
    without these two sites, minus the log-density of [t], minus the
    log-density of [y]; the same holds of the surrogate loss. *)
Theorem loss_decomposition
        (model_trace guide_trace : trace) (st sy : site)
        (log_q_t log_q_y : tensor) (qt qy : Q) (loss : Q) (surrogate : tensor) :
  blocked_names guide_trace = ["t"; "y"] ->
  lookup "t" guide_trace = Some st -> log_prob_sum st = Some log_q_t ->
  torch_item log_q_t = Ok qt ->
  lookup "y" guide_trace = Some sy -> log_prob_sum sy = Some log_q_y ->
  torch_item log_q_y = Ok qy ->
  let reduced_trace := filter (fun p => negb (mem (fst p) ["t"; "y"])) guide_trace in
  differentiable_loss_particle super_loss_particle model_trace guide_trace
  = Ok (loss, surrogate)
  <-> exists elbo s0 s1,
      super_loss_particle model_trace reduced_trace = Ok (elbo, s0) /\
      loss = elbo - qt - qy /\
      tsub s0 log_q_t = Ok s1 /\ tsub s1 log_q_y = Ok surrogate.
Proof.
  intros Hb Ht Hlt Hqt Hy Hly Hqy reduced_trace.
  unfold differentiable_loss_particle. rewrite Hb, (del_t_y _ Ht Hy).
  cbn [rbind]. fold reduced_trace.
  destruct (super_loss_particle model_trace reduced_trace) as [[elbo s0]|e];
    cbn [rbind].
  - cbn [add_log_q]. unfold getitem, get_log_prob_sum.
    rewrite Ht, Hy. cbn [rbind]. rewrite Hlt, Hly. cbn [rbind].
    rewrite Hqt. cbn [rbind].
    destruct (tsub s0 log_q_t) as [s1|e1] eqn:E1; cbn [rbind].
    + rewrite Hqy. cbn [rbind].
      destruct (tsub s1 log_q_y) as [s2|e2] eqn:E2; cbn [rbind].
      * split.
        -- intros [= <- <-]. exists elbo, s0, s1. auto.
        -- intros (elbo' & s0' & s1' & [= <- <-] & -> & E1' & E2').
           rewrite E1 in E1'. injection E1' as <-.
           rewrite E2 in E2'. injection E2' as <-. reflexivity.
      * split; [discriminate|].
        intros (elbo' & s0' & s1' & [= <- <-] & -> & E1' & E2').
        rewrite E1 in E1'. injection E1' as <-. congruence.
    + split; [discriminate|].
      intros (elbo' & s0' & s1' & [= <- <-] & -> & E1' & E2'). congruence.
  - split; [discriminate|].
    intros (elbo' & s0' & s1' & Hs & _). discriminate.
Qed.
End ObjectiveFacts.

(** *** Arithmetic of 0-dimensional tensors *)

Lemma torch_item_data (x : tensor) (q : Q) :
  torch_item x = Ok q -> data x = [q].
Proof.
  unfold torch_item. destruct (data x) as [|a [|b l]]; try discriminate.
  now intros [= ->].
Qed.

Lemma tzip_scalar (f : Q -> Q -> Q) (x y : tensor) (a b : Q) :
  shape x = [] -> data x = [a] -> shape y = [] -> data y = [b] ->
  tzip f x y = Ok (scalar (f a b)).
Proof.
  intros Hsx Hdx Hsy Hdy. unfold tzip, expand, broadcast_shapes.
  rewrite Hsx, Hsy, Hdx, Hdy. reflexivity.
Qed.

Lemma lookup_In {A : Type} (name : string) (l : list (string * A)) (v : A) :
  lookup name l = Some v -> In (name, v) l.
Proof.
  induction l as [|[k w] l IH]; simpl; [discriminate|].
  destruct (String.eqb_spec k name) as [->|_].
  - intros [= ->]. now left.
  - intros H. right. auto.
Qed.

Lemma del_nodes_incl (names : list string) (tr tr' : trace) :
  del_nodes names tr = Ok tr' -> incl tr' tr.
Proof.
  revert tr. induction names as [|name names IH]; intros tr; simpl.
  - intros [= ->]. apply incl_refl.
  - unfold del_node. destruct (lookup name tr); [|discriminate]. cbn [rbind].
    intros H. apply IH in H. eapply incl_tran; [exact H|].
    apply incl_filter.
Qed.

(** ** Evaluations of the model *)

Lemma lookup_app_last {A : Type} (name : string) (l : list (string * A)) (v : A) :
  lookup name l = None -> lookup name (l ++ [(name, v)]) = Some v.
Proof.
  induction l as [|[k w] l IH]; simpl.
  - intros _. now rewrite String.eqb_refl.
  - destruct (String.eqb k name); [discriminate|exact IH].
Qed.

(** A plate changes neither what is forced on a site nor whether the site
    is recorded. *)
Lemma plate_keeps (size n : nat) (d : option nat) (hs hp : stack) (name : string) :
  plate size n d hs = Ok hp ->
  intervened hp name = intervened hs name /\ records hp name = records hs name /\
  replay (handlers_of (reached name hp)) = replay (handlers_of (reached name hs)).
Proof.
  unfold plate. destruct n; [discriminate|]. intros [= <-].
  unfold intervened, records. simpl. auto.
Qed.

Section ModelFacts.
Context {B : Backend}.
Variable params : store.

Lemma mbind_ok {A C : Type} (m : M A) (k : A -> M C) (st st' : state) (c : C) :
  mbind m k st = Ok (c, st') ->
  exists a st1, m st = Ok (a, st1) /\ k a st1 = Ok (c, st').
Proof.
  unfold mbind. destruct (m st) as [[a st1]|e]; [|discriminate]. eauto.
Qed.

Lemma lift_ok {A : Type} (r : result A) (st st' : state) (a : A) :
  lift r st = Ok (a, st') -> r = Ok a /\ st' = st.
Proof.
  unfold lift. destruct r; [|discriminate]. intros [= -> ->]. auto.
Qed.

(** What one [pyro.sample] statement returns and records. *)
Lemma pyro_sample_value (hs : stack) (name : string) (fn : distribution)
      (obs : option tensor) (aux : bool) (st st' : state) (v : tensor) :
  intervened hs name = None ->
  pyro_sample hs name fn obs aux st = Ok (v, st') ->
  (forall o, obs = Some o -> v = o) /\
  (records hs name = true ->
   exists s, lookup name (recorded st') = Some s /\ site_value s = v /\
             is_observed s = match obs with Some _ => true | None => false end).
Proof.
  unfold intervened, records, pyro_sample, site_value_of.
  set (h := handlers_of (reached name hs)). intros Hdo. rewrite Hdo.
  assert (Hrec : forall observed g',
    (tr' <- (if tracing h
             then add_node name (mkSite SampleSite fn v observed (scale h) aux None None)
                           (recorded st)
             else Ok (recorded st)) ;;
     Ok (v, mkState g' tr'))%result = Ok (v, st') ->
    tracing h = true ->
    exists s, lookup name (recorded st') = Some s /\ site_value s = v /\
              is_observed s = observed).
  { intros observed g' H Ht. rewrite Ht in H. unfold add_node in H.
    destruct (lookup name (recorded st)) eqn:Hl; [discriminate|].
    cbn [rbind] in H. injection H as <-. cbn [recorded].
    eexists. split; [now apply lookup_app_last|]. split; reflexivity. }
  assert (Hval : forall u observed g',
    (tr' <- (if tracing h
             then add_node name (mkSite SampleSite fn u observed (scale h) aux None None)
                           (recorded st)
             else Ok (recorded st)) ;;
     Ok (u, mkState g' tr'))%result = Ok (v, st') -> v = u).
  { intros u observed g' H. destruct (tracing h); cbn [rbind] in H.
    - destruct (add_node _ _ _); [|discriminate]. cbn [rbind] in H. congruence.
    - congruence. }
  destruct obs as [o|].
  - cbn [rbind]. intros H. pose proof (Hval _ _ _ H) as ->. split.
    + now intros o' [= <-].
    + eauto.
  - intros H. split; [discriminate|].
    destruct (match replay h with Some tr => lookup name tr | None => None end)
      as [s|].
    + cbn [rbind] in H. pose proof (Hval _ _ _ H) as ->. eauto.
    + destruct (sample_dist (plate_shape (plates h)) fn (gen st)) as [[v0 g0]|];
        [|discriminate]. cbn [rbind] in H.
      pose proof (Hval _ _ _ H) as ->. eauto.
Qed.

(** C9: [Model.forward] returns the outcome it was given; without one
    it returns the value of the site [y]. *)
Theorem Model_forward_returns_y (hs : stack) (self : Model)
        (x : tensor) (t y : option tensor) (size : option nat)
        (st st' : state) (v : tensor) :
  intervened hs "y" = None ->
  Model_forward params hs self x t y size st = Ok (v, st') ->
  (forall obs, y = Some obs -> v = obs) /\
  (records hs "y" = true ->
   exists s, lookup "y" (recorded st') = Some s /\ site_value s = v /\
             is_observed s = match y with Some _ => true | None => false end).
Proof.
  intros Hdo H. unfold Model_forward in H.
  apply mbind_ok in H as (size' & s1 & H1 & H). apply lift_ok in H1 as [_ ->].
  apply mbind_ok in H as (n & s1 & H1 & H). apply lift_ok in H1 as [_ ->].
  apply mbind_ok in H as (hp & s1 & H1 & H). apply lift_ok in H1 as [Hp ->].
  destruct (@plate_keeps _ _ _ _ _ "y" Hp) as (Hi & Hr & _).
  apply mbind_ok in H as (z & s1 & _ & H).
  apply mbind_ok in H as (xd & s2 & _ & H).
  apply mbind_ok in H as (x' & s3 & _ & H).
  apply mbind_ok in H as (td & s4 & _ & H).
  apply mbind_ok in H as (t' & s5 & _ & H).
  apply mbind_ok in H as (yd & s6 & _ & H).
  apply mbind_ok in H as (y' & s7 & Hy & H).
  unfold mret in H. injection H as <- <-.
  rewrite <- Hr. apply (@pyro_sample_value hp "y" yd y false s6).
  - now rewrite Hi.
  - exact Hy.
Qed.
End ModelFacts.

(** ** The traces of a training step *)

Lemma mapM_Forall2 {A C : Type} (f : A -> result C) (l : list A) (l' : list C) :
  mapM f l = Ok l' -> Forall2 (fun a c => f a = Ok c) l l'.
Proof.
  revert l'. induction l as [|a l IH]; intros l'; simpl.
  - intros [= <-]. constructor.
  - destruct (f a) as [c|] eqn:Hc; [|discriminate]. cbn [rbind].
    destruct (mapM f l) as [cs|]; [|discriminate]. cbn [rbind].
    intros [= <-]. constructor; auto.
Qed.

Section TrainingTraces.
Context {B : Backend}.
Variable params : store.

(** What one [pyro.sample] statement adds to the trace. *)
Lemma pyro_sample_recorded (hs : stack) (name : string) (fn : distribution)
      (obs : option tensor) (aux : bool) (st st' : state) (v : tensor) :
  pyro_sample hs name fn obs aux st = Ok (v, st') ->
  exists observed,
    recorded st'
    = (if records hs name
       then recorded st
            ++ [(name, mkSite SampleSite fn v observed
                              (scale (handlers_of (reached name hs))) aux None None)]
       else recorded st) /\
    (intervened hs name = None ->
     replay (handlers_of (reached name hs)) = None ->
     observed = match obs with Some _ => true | None => false end).
Proof.
  unfold pyro_sample, records, intervened.
  set (h := handlers_of (reached name hs)).
  destruct (site_value_of h name fn obs (gen st)) as [[[v0 observed] g']|] eqn:Hv;
    [|discriminate]. cbn [rbind].
  intros H. exists observed. split.
  - destruct (tracing h); cbn [rbind] in H.
    + unfold add_node in H. destruct (lookup name (recorded st)); [discriminate|].
      cbn [rbind] in H. now injection H as <- <-.
    + now injection H as <- <-.
  - intros Hdo Hrep. unfold site_value_of in Hv. rewrite Hdo, Hrep in Hv.
    destruct obs as [o|]; [congruence|].
    destruct (sample_dist _ _ _) as [[v1 g1]|]; [|discriminate].
    cbn [rbind] in Hv. congruence.
Qed.

Lemma pyro_sample_unscored (hs : stack) (name : string) (fn : distribution)
      (obs : option tensor) (aux : bool) (st st' : state) (v : tensor) :
  pyro_sample hs name fn obs aux st = Ok (v, st') ->
  unscored (recorded st) -> unscored (recorded st').
Proof.
  intros H Hu. destruct (pyro_sample_recorded _ _ _ _ _ _ H) as (observed & -> & _).
  destruct (records hs name); [|exact Hu].
  apply Forall_app. split; [exact Hu|]. repeat constructor.
Qed.

Lemma Model_forward_unscored (hs : stack) (self : Model)
      (x : tensor) (t y : option tensor) (size : option nat)
      (st st' : state) (v : tensor) :
  Model_forward params hs self x t y size st = Ok (v, st') ->
  unscored (recorded st) -> unscored (recorded st').
Proof.
  intros H Hu. unfold Model_forward in H.
  apply mbind_ok in H as (size' & s1 & H1 & H). apply lift_ok in H1 as [_ ->].
  apply mbind_ok in H as (n & s1 & H1 & H). apply lift_ok in H1 as [_ ->].
  apply mbind_ok in H as (hp & s1 & H1 & H). apply lift_ok in H1 as [_ ->].
  apply mbind_ok in H as (z & s1 & Hz & H).
  apply mbind_ok in H as (xd & s2 & H2 & H). apply lift_ok in H2 as [_ ->].
  apply mbind_ok in H as (x' & s3 & Hx & H).
  apply mbind_ok in H as (td & s4 & H4 & H). apply lift_ok in H4 as [_ ->].
  apply mbind_ok in H as (t' & s5 & Ht & H).
  apply mbind_ok in H as (yd & s6 & H6 & H). apply lift_ok in H6 as [_ ->].
  apply mbind_ok in H as (y' & s7 & Hy & H).
  unfold mret in H. injection H as _ <-.
  eauto using pyro_sample_unscored.
Qed.

(** The trace of the guide on a minibatch with [t] and [y] given: the
    sites [t] and [y], observed, then the site [z], sampled. *)
Lemma Guide_forward_recorded (self : Guide) (x t y : tensor) (size : option nat)
      (g : rng) (u : unit) (st' : state) :
  Guide_forward params [TraceMessenger] self x (Some t) (Some y) size (mkState g [])
  = Ok (u, st') ->
  exists st sy sz,
    recorded st' = [("t", st); ("y", sy); ("z", sz)] /\
    Forall (fun s => site_kind s = SampleSite /\ log_prob_sum s = None) [st; sy; sz] /\
    is_observed st = true /\ is_observed sy = true /\ is_observed sz = false.
Proof.
  intros H. unfold Guide_forward in H.
  apply mbind_ok in H as (size' & s1 & H1 & H). apply lift_ok in H1 as [_ ->].
  apply mbind_ok in H as (n & s1 & H1 & H). apply lift_ok in H1 as [_ ->].
  apply mbind_ok in H as (hp & s1 & H1 & H). apply lift_ok in H1 as [Hp ->].
  unfold plate in Hp. destruct n as [|n]; [discriminate|]. injection Hp as <-.
  apply mbind_ok in H as (td & s2 & H2 & H). apply lift_ok in H2 as [_ ->].
  apply mbind_ok in H as (t' & s3 & Ht & H).
  apply mbind_ok in H as (yd & s4 & H4 & H). apply lift_ok in H4 as [_ ->].
  apply mbind_ok in H as (y' & s5 & Hy & H).
  apply mbind_ok in H as (zd & s6 & H6 & H). apply lift_ok in H6 as [_ ->].
  apply mbind_ok in H as (z' & s7 & Hz & H).
  unfold mret in H. injection H as _ <-.
  apply pyro_sample_recorded in Ht as (ot & Rt & Ot).
  apply pyro_sample_recorded in Hy as (oy & Ry & Oy).
  apply pyro_sample_recorded in Hz as (oz & Rz & Oz).
  cbn in Rt, Ry, Rz, Ot, Oy, Oz.
  rewrite Rz, Ry, Rt. cbn [app].
  do 3 eexists. split; [reflexivity|]. cbn.
  rewrite (Ot eq_refl eq_refl), (Oy eq_refl eq_refl), (Oz eq_refl eq_refl).
  repeat split; repeat constructor.
Qed.

Lemma score_site_keeps (s s' : site) :
  score_site s = Ok s' ->
  site_kind s' = site_kind s /\ is_observed s' = is_observed s.
Proof.
  unfold score_site. destruct (is_sample s).
  - destruct (dist_log_prob _ _); [|discriminate]. cbn [rbind].
    intros [= <-]. auto.
  - intros [= <-]. auto.
Qed.

Lemma compute_log_prob_blocked_names (tr tr' : trace) :
  compute_log_prob tr = Ok tr' -> blocked_names tr' = blocked_names tr.
Proof.
  intros H. apply mapM_Forall2 in H. unfold blocked_names.
  induction H as [|[name s] [name' s'] tr tr' Hs _ IH]; [reflexivity|].
  cbn [fst snd] in Hs.
  destruct (score_site s) as [s0|] eqn:Hsc; [|discriminate]. cbn [rbind] in Hs.
  injection Hs as <- <-. apply score_site_keeps in Hsc as [Hk Ho].
  assert (Hb : is_sample s0 && is_observed s0 = is_sample s && is_observed s).
  { unfold is_sample. now rewrite Hk, Ho. }
  cbn [filter snd]. rewrite Hb.
  destruct (is_sample s && is_observed s); cbn [map fst]; now rewrite IH.
Qed.

Lemma compute_log_prob_scored (tr tr' : trace) :
  unscored tr -> compute_log_prob tr = Ok tr' -> scored tr'.
Proof.
  intros Hu H. apply mapM_Forall2 in H. unfold scored, unscored in *.
  induction H as [|[name s] [name' s'] tr tr' Hs _ IH]; [constructor|].
  apply Forall_cons_iff in Hu as [Hu0 Hu]. cbn [snd fst] in *.
  constructor; [|now apply IH].
  cbn [snd]. unfold score_site in Hs. destruct (is_sample s).
  - destruct (dist_log_prob _ _); [|discriminate]. cbn [rbind] in Hs.
    injection Hs as _ <-. cbn [log_prob_sum]. now intros lp [= <-].
  - injection Hs as _ <-. rewrite Hu0. discriminate.
Qed.

(** The traces of a training step: both are scored, and the observed
    sample sites of the guide trace are [t] and [y]. *)
Lemma svi_traces_spec (model : Model) (guide : Guide) (x t y : tensor)
      (size : nat) (g g' : rng) (model_trace guide_trace : trace) :
  svi_traces params model guide x t y size g = Ok (model_trace, guide_trace, g') ->
  scored model_trace /\ scored guide_trace /\
  blocked_names guide_trace = ["t"; "y"].
Proof.
  unfold svi_traces.
  destruct (Guide_forward _ _ _ _ _ _ _ _) as [[u st1]|] eqn:Hg; [|discriminate].
  cbn [rbind].
  destruct (Model_forward _ _ _ _ _ _ _ _) as [[v st2]|] eqn:Hm; [|discriminate].
  cbn [rbind].
  destruct (compute_log_prob (recorded st1)) as [gt|] eqn:Hcg; [|discriminate].
  cbn [rbind].
  destruct (compute_log_prob (recorded st2)) as [mt|] eqn:Hcm; [|discriminate].
  cbn [rbind]. intros [= <- <- _].
  apply Guide_forward_recorded in Hg as (st & sy & sz & Hrec & Hsites & Ht & Hy & Hz).
  apply Model_forward_unscored in Hm; [|constructor].
  split; [now apply (compute_log_prob_scored Hm)|].
  assert (Hk : Forall (fun s => site_kind s = SampleSite) [st; sy; sz]).
  { eapply Forall_impl; [|exact Hsites]. now intros s [Hs _]. }
  assert (Hn : unscored (recorded st1)).
  { rewrite Hrec. unfold unscored.
    repeat match goal with H : Forall _ (_ :: _) |- _ =>
      apply Forall_cons_iff in H; destruct H as [[_ ?] ?] end.
    repeat constructor; assumption. }
  split; [now apply (compute_log_prob_scored Hn)|].
  rewrite (compute_log_prob_blocked_names _ Hcg), Hrec.
  repeat match goal with H : Forall _ (_ :: _) |- _ =>
    apply Forall_cons_iff in H; destruct H as [? ?] end.
  unfold blocked_names, is_sample. cbn [filter snd].
  repeat match goal with H : site_kind _ = _ |- _ => rewrite H; clear H end.
  rewrite Ht, Hy, Hz. reflexivity.
Qed.

End TrainingTraces.

(** ** Binding a lifted result *)

Section Lifted.
Context {B : Backend}.

Lemma mbind_lift {A C : Type} (r : result A) (k : A -> M C) (s : state) :
  mbind (lift r) k s = match r with Ok a => k a s | Raise e => Raise e end.
Proof. unfold mbind, lift. destruct r; reflexivity. Qed.
End Lifted.

(** ** The floor of the scale *)

Lemma clamp_min_floor (m v : Q) : m <= clamp_min m v.
Proof.
  unfold clamp_min. destruct (Qle_bool m v) eqn:E.
  - now apply Qle_bool_iff.
  - apply Qle_refl.
Qed.

Lemma clamp_min_positive (v : Q) : 0 < clamp_min (1 # 10000000000) v.
Proof.
  eapply Qlt_le_trans; [|apply clamp_min_floor]. reflexivity.
Qed.

Lemma esplit_rows_map (m w : nat) (d : list Q) :
  esplit_rows m w (map Num d) = map (map Num) (split_rows m w d).
Proof.
  revert d. induction m as [|m IH]; intros d; [reflexivity|].
  cbn [esplit_rows split_rows map].
  now rewrite firstn_map, skipn_map, IH.
Qed.

Lemma etmap_of_tensor (f : Q -> Q) (x : tensor) :
  etmap f (of_tensor x) = of_tensor (tmap f x).
Proof.
  unfold etmap, of_tensor, tmap. cbn [eshape edata shape data].
  now rewrite !map_map.
Qed.

Lemma erows_of_tensor (x : tensor) : erows (of_tensor x) = map (map Num) (rows x).
Proof. unfold erows, rows, of_tensor. cbn [eshape edata]. apply esplit_rows_map. Qed.

Lemma esize_last_of_tensor (x : tensor) : esize_last (of_tensor x) = size_last x.
Proof. reflexivity. Qed.

Lemma eof_rows_map (batch : list nat) (w : nat) (rs : list (list Q)) :
  eof_rows batch w (map (map Num) rs) = of_tensor (of_rows batch w rs).
Proof.
  unfold eof_rows, of_tensor, of_rows. cbn [shape data]. now rewrite concat_map.
Qed.

Lemma eslice_to_of_tensor (d : nat) (x : tensor) :
  eslice_to d (of_tensor x) = rmap of_tensor (slice_to d x).
Proof.
  unfold eslice_to, slice_to. rewrite esize_last_of_tensor.
  destruct (size_last x) as [w|]; [|reflexivity]. cbn [rbind rmap].
  rewrite erows_of_tensor, map_map.
  rewrite <- (eof_rows_map _ _ (map (firstn d) (rows x))), map_map.
  do 2 f_equal. apply map_ext. intros r. apply firstn_map.
Qed.

Lemma eslice_from_of_tensor (d : nat) (x : tensor) :
  eslice_from d (of_tensor x) = rmap of_tensor (slice_from d x).
Proof.
  unfold eslice_from, slice_from. rewrite esize_last_of_tensor.
  destruct (size_last x) as [w|]; [|reflexivity]. cbn [rbind rmap].
  rewrite erows_of_tensor, map_map.
  rewrite <- (eof_rows_map _ _ (map (skipn d) (rows x))), map_map.
  do 2 f_equal. apply map_ext. intros r. apply skipn_map.
Qed.

Section ScaleFloor.
Context {B : Backend}.
Variable params : store.

(** *** On tensors of numbers the two forward passes agree *)

Lemma edot_map (xs ws : list Q) : edot (map Num xs) ws = Num (dot xs ws).
Proof.
  revert ws. induction xs as [|x xs IH]; intros [|w ws]; try reflexivity.
  cbn [map edot dot]. now rewrite IH.
Qed.

Lemma linear_row_nan_map (l : Linear) (row : list Q) :
  linear_row_nan params l (map Num row) = map Num (linear_row params l row).
Proof.
  unfold linear_row_nan, linear_row. rewrite map_map.
  apply map_ext. intros j. now rewrite edot_map.
Qed.

Lemma linear_forward_nan_of_tensor (l : Linear) (x : tensor) :
  linear_forward_nan params l (of_tensor x) = rmap of_tensor (linear_forward params l x).
Proof.
  unfold linear_forward_nan, linear_forward. rewrite esize_last_of_tensor.
  destruct (size_last x) as [w|]; [|reflexivity]. cbn [rbind].
  destruct (Z.of_nat w =? in_features l)%Z; [|reflexivity]. cbn [rmap].
  rewrite erows_of_tensor, map_map.
  rewrite <- (eof_rows_map _ _ (map (linear_row params l) (rows x))), map_map.
  do 2 f_equal. apply map_ext. intros r. apply linear_row_nan_map.
Qed.

Lemma FullyConnected_forward_nan_of_tensor (layers : list layer) (x : tensor) :
  FullyConnected_forward_nan params layers (of_tensor x)
  = rmap of_tensor (FullyConnected_forward params layers x).
Proof.
  revert x. induction layers as [|ly rest IH]; intros x; [reflexivity|].
  cbn [FullyConnected_forward_nan FullyConnected_forward].
  destruct ly as [l|]; cbn [layer_forward_nan layer_forward].
  - rewrite linear_forward_nan_of_tensor.
    destruct (linear_forward params l x) as [h|]; [|reflexivity].
    cbn [rmap rbind]. apply IH.
  - cbn [rbind]. rewrite etmap_of_tensor. apply IH.
Qed.

Lemma DiagNormalNet_forward_nan_of_tensor (net : DiagNormalNet) (x : tensor) :
  DiagNormalNet_forward_nan params net (of_tensor x)
  = rmap (fun p => (of_tensor (fst p), of_tensor (snd p)))
         (DiagNormalNet_forward params net x).
Proof.
  unfold DiagNormalNet_forward_nan, DiagNormalNet_forward.
  rewrite FullyConnected_forward_nan_of_tensor.
  destruct (FullyConnected_forward params (dn_fc net) x) as [h|]; [|reflexivity].
  cbn [rmap rbind]. rewrite esize_last_of_tensor.
  destruct (size_last h) as [w|]; [|reflexivity]. cbn [rbind].
  rewrite eslice_to_of_tensor, eslice_from_of_tensor.
  destruct (slice_to (w / 2) h) as [loc|]; [|reflexivity]. cbn [rmap rbind].
  destruct (slice_from (w / 2) h) as [raw|]; [|reflexivity]. cbn [rmap rbind fst snd].
  now rewrite !etmap_of_tensor.
Qed.

(** *** The scale, entry by entry *)

Lemma number_of_tensor (x : etensor) :
  Forall number (edata x) -> exists x', x = of_tensor x'.
Proof.
  intros H. exists (mkTensor (eshape x)
                      (map (fun e => match e with Num q => q | NaN => 0 end) (edata x))).
  destruct x as [sh d]. unfold of_tensor. cbn [shape data eshape edata] in *.
  f_equal. rewrite map_map. induction H as [|e d He _ IH]; [reflexivity|].
  cbn [map]. rewrite <- IH. destruct e; [reflexivity|contradiction].
Qed.

Lemma floored_scale (raw : list entry) :
  Forall2 floored raw
          (map (entry_map (clamp_min (1 # 10000000000))) (map (entry_map softplus) raw)).
Proof.
  induction raw as [|r raw IH]; cbn [map]; constructor; [|exact IH].
  destruct r as [q|]; cbn [floored entry_map]; [|reflexivity].
  eexists. split; [reflexivity|].
  split; [apply clamp_min_floor|apply clamp_min_positive].
Qed.

(** C2: every entry of the scale returned by [DiagNormalNet.forward] is
    the floored softplus of the entry of the raw output it comes from: at
    least [1e-10], hence positive, where that entry is a number, however
    negative, and NaN where it is NaN.  On an input without NaN the raw
    output has none, and every entry of the scale is positive. *)
Theorem DiagNormalNet_scale_positive_or_nan
        (net : DiagNormalNet) (x loc scale : etensor) :
  DiagNormalNet_forward_nan params net x = Ok (loc, scale) ->
  (exists loc_scale w raw,
     FullyConnected_forward_nan params (dn_fc net) x = Ok loc_scale /\
     esize_last loc_scale = Ok w /\
     eslice_from (w / 2) loc_scale = Ok raw /\
     Forall2 floored (edata raw) (edata scale)) /\
  (Forall number (edata x) -> Forall positive_entry (edata scale)).
Proof.
  intros H. split.
  - unfold DiagNormalNet_forward_nan in H.
    destruct (FullyConnected_forward_nan params (dn_fc net) x) as [loc_scale|];
      [|discriminate]. cbn [rbind] in H.
    destruct (esize_last loc_scale) as [w|] eqn:Hw; [|discriminate].
    cbn [rbind] in H.
    destruct (eslice_to (w / 2) loc_scale) as [loc'|]; [|discriminate].
    cbn [rbind] in H.
    destruct (eslice_from (w / 2) loc_scale) as [raw|] eqn:Hraw; [|discriminate].
    cbn [rbind] in H. injection H as _ <-.
    exists loc_scale, w, raw.
    split; [reflexivity|]. split; [exact Hw|]. split; [exact Hraw|].
    unfold etmap. cbn [edata]. apply floored_scale.
  - intros Hx. destruct (number_of_tensor x Hx) as (x' & ->).
    rewrite DiagNormalNet_forward_nan_of_tensor in H.
    destruct (DiagNormalNet_forward params net x') as [[loc' scale']|] eqn:Hf;
      [|discriminate].
    cbn [rmap fst snd] in H. injection H as _ <-.
    unfold of_tensor. cbn [edata]. apply Forall_map.
    unfold DiagNormalNet_forward in Hf. revert Hf. repeat ok_step.
    intros [= _ <-]. unfold tmap. cbn [data].
    apply Forall_forall. intros v Hv.
    apply in_map_iff in Hv as (u & <- & _).
    apply clamp_min_positive.
Qed.
End ScaleFloor.

(** ** Anti-symmetry of the effect estimate *)

Lemma broadcast_rev_sym (r1 r2 : list nat) :
  broadcast_rev r1 r2 = broadcast_rev r2 r1.
Proof.
  revert r2. induction r1 as [|a r1 IH]; intros [|b r2]; simpl; try reflexivity.
  rewrite (IH r2). destruct (broadcast_rev r2 r1) as [r|]; cbn [rbind]; [|reflexivity].
  destruct (Nat.eqb_spec a b) as [->|Hab].
  - now rewrite Nat.eqb_refl.
  - destruct (Nat.eqb_spec b a) as [E|_]; [congruence|].
    destruct (Nat.eqb_spec a 1) as [->|Ha], (Nat.eqb_spec b 1) as [->|Hb];
      reflexivity.
Qed.

Lemma broadcast_shapes_sym (s1 s2 : list nat) :
  broadcast_shapes s1 s2 = broadcast_shapes s2 s1.
Proof. unfold broadcast_shapes. now rewrite broadcast_rev_sym. Qed.


Lemma opp_firstn (w : nat) (d d' : list Q) :
  Forall2 opp d d' -> Forall2 opp (firstn w d) (firstn w d').
Proof.
  intros H. revert w. induction H; intros [|w]; simpl; constructor; auto.
Qed.

Lemma opp_skipn (w : nat) (d d' : list Q) :
  Forall2 opp d d' -> Forall2 opp (skipn w d) (skipn w d').
Proof.
  intros H. revert w. induction H; intros [|w]; simpl; auto.
Qed.

Lemma opp_split_rows (m w : nat) (d d' : list Q) :
  Forall2 opp d d' -> Forall2 (Forall2 opp) (split_rows m w d) (split_rows m w d').
Proof.
  revert d d'. induction m as [|m IH]; intros d d' H; simpl; constructor.
  - now apply opp_firstn.
  - apply IH. now apply opp_skipn.
Qed.

Lemma opp_repeat_zero (w : nat) : Forall2 opp (repeat 0 w) (repeat 0 w).
Proof. induction w; simpl; constructor; auto. unfold opp. ring. Qed.

Lemma opp_add (r r' acc acc' : list Q) :
  Forall2 opp r r' -> Forall2 opp acc acc' ->
  Forall2 opp (map (fun p => fst p + snd p) (combine r acc))
              (map (fun p => fst p + snd p) (combine r' acc')).
Proof.
  intros Hr. revert acc acc'. induction Hr as [|a a' r r' Ha _ IH];
    intros acc acc' Hacc; simpl; [constructor|].
  destruct Hacc as [|b b' acc acc' Hb Hacc]; simpl; constructor.
  - unfold opp in *. simpl. rewrite Ha, Hb. ring.
  - now apply IH.
Qed.

Lemma opp_sum_rows (w : nat) (rs rs' : list (list Q)) :
  Forall2 (Forall2 opp) rs rs' -> Forall2 opp (sum_rows w rs) (sum_rows w rs').
Proof.
  unfold sum_rows. induction 1; simpl.
  - apply opp_repeat_zero.
  - now apply opp_add.
Qed.

Lemma opp_div (k : Q) (d d' : list Q) :
  Forall2 opp d d' -> Forall2 opp (map (fun v => v / k) d) (map (fun v => v / k) d').
Proof.
  induction 1 as [|a a' d d' Ha _ IH]; simpl; constructor; [|exact IH].
  unfold opp, Qdiv in *. rewrite Ha. ring.
Qed.

Create HintDb opposite.
#[local] Hint Resolve opp_firstn opp_skipn opp_split_rows opp_repeat_zero
  opp_add opp_sum_rows opp_div : opposite.




Section Antisymmetry.
Context {B : Backend}.
Variable params : store.


End Antisymmetry.

(** ** Shapes *)

Lemma numel_app (s1 s2 : list nat) : numel (s1 ++ s2) = (numel s1 * numel s2)%nat.
Proof.
  unfold numel. induction s1 as [|a s1 IH]; simpl; [lia|]. rewrite IH. lia.
Qed.

Lemma length_split_rows (m w : nat) (d : list Q) : List.length (split_rows m w d) = m.
Proof. revert d. induction m; intros d; simpl; auto. Qed.

Lemma split_rows_widths (m w : nat) (d : list Q) :
  (m * w <= List.length d)%nat ->
  Forall (fun r => List.length r = w) (split_rows m w d).
Proof.
  revert d. induction m as [|m IH]; intros d Hd; simpl; constructor.
  - rewrite length_firstn. lia.
  - apply IH. rewrite length_skipn. lia.
Qed.

Lemma concat_split_rows (m w : nat) (d : list Q) :
  List.length d = (m * w)%nat -> List.concat (split_rows m w d) = d.
Proof.
  revert d. induction m as [|m IH]; intros d Hd; simpl.
  - destruct d; [reflexivity|discriminate].
  - rewrite IH; [apply firstn_skipn|]. rewrite length_skipn. lia.
Qed.

Lemma length_concat_rows {A : Type} (w : nat) (rs : list (list A)) :
  Forall (fun r => List.length r = w) rs ->
  List.length (List.concat rs) = (List.length rs * w)%nat.
Proof.
  induction 1 as [|r rs Hr _ IH]; simpl; [reflexivity|].
  rewrite length_app, IH, Hr. reflexivity.
Qed.

Lemma mapM_self {A : Type} (f : A -> result A) (l : list A) :
  Forall (fun a => f a = Ok a) l -> mapM f l = Ok l.
Proof.
  induction 1 as [|a l Ha _ IH]; simpl; [reflexivity|]. now rewrite Ha, IH.
Qed.

Lemma expand_data_same (s : list nat) (d : list Q) :
  List.length d = numel s -> expand_data s s d = Ok d.
Proof.
  revert d. induction s as [|k s IH]; intros d Hd; simpl; [reflexivity|].
  rewrite Nat.eqb_refl. simpl in Hd.
  rewrite mapM_self.
  - cbn [rbind]. f_equal. now apply concat_split_rows.
  - eapply Forall_impl; [|apply split_rows_widths; fold (numel s); lia].
    intros r Hr. now apply IH.
Qed.

Lemma expand_same (x : tensor) : wf x -> expand (shape x) x = Ok x.
Proof.
  unfold wf, expand. intros H. rewrite Nat.sub_diag. cbn [repeat app].
  rewrite (expand_data_same _ _ H). destruct x; reflexivity.
Qed.

Lemma broadcast_shapes_same (s : list nat) : broadcast_shapes s s = Ok s.
Proof.
  unfold broadcast_shapes.
  assert (H : forall r, broadcast_rev r r = Ok r).
  { induction r as [|a r IH]; simpl; [reflexivity|].
    rewrite IH. cbn [rbind]. now rewrite Nat.eqb_refl. }
  rewrite H. cbn [rbind]. now rewrite rev_involutive.
Qed.

Lemma torch_where_same_shape (cond a b : tensor) :
  wf cond -> wf a -> wf b -> shape cond = shape a -> shape b = shape a ->
  torch_where cond a b
  = Ok (mkTensor (shape a)
          (map (fun p => select (to_bool (fst p)) (fst (snd p)) (snd (snd p)))
               (combine (data cond) (combine (data a) (data b))))).
Proof.
  intros Hc Ha Hb Hsc Hsb. unfold torch_where.
  rewrite Hsb, Hsc, broadcast_shapes_same. cbn [rbind].
  rewrite broadcast_shapes_same. cbn [rbind].
  rewrite <- Hsc at 1. rewrite (expand_same Hc). cbn [rbind].
  rewrite (expand_same Ha). cbn [rbind].
  rewrite <- Hsb at 1. rewrite (expand_same Hb). reflexivity.
Qed.


Lemma removelast_app_one {A : Type} (l : list A) (a : A) : removelast (l ++ [a]) = l.
Proof. apply removelast_last. Qed.

Section Forward.
Context {B : Backend}.
Variable params : store.

Lemma length_linear_row (l : Linear) (row : list Q) :
  List.length (linear_row params l row) = Z.to_nat (out_features l).
Proof. unfold linear_row. now rewrite length_map, length_seq. Qed.

Lemma of_rows_wf (batch : list nat) (w : nat) (rs : list (list Q)) :
  List.length rs = numel batch ->
  Forall (fun r => List.length r = w) rs ->
  wf (of_rows batch w rs).
Proof.
  intros Hn Hw. unfold wf, of_rows. cbn [data shape].
  rewrite (length_concat_rows Hw), numel_app, Hn. simpl. lia.
Qed.

Lemma linear_forward_shape (l : Linear) (x h : tensor) :
  linear_forward params l x = Ok h ->
  shape h = removelast (shape x) ++ [Z.to_nat (out_features l)] /\ wf h.
Proof.
  unfold linear_forward. destruct (size_last x) as [w|]; [|discriminate].
  cbn [rbind]. destruct (Z.of_nat w =? in_features l)%Z; [|discriminate].
  intros [= <-]. split; [reflexivity|].
  apply of_rows_wf.
  - unfold rows. now rewrite length_map, length_split_rows.
  - apply Forall_forall. intros r Hr. apply in_map_iff in Hr as (r0 & <- & _).
    apply length_linear_row.
Qed.

Lemma tmap_wf (f : Q -> Q) (x : tensor) : wf x -> wf (tmap f x).
Proof. unfold wf, tmap. cbn [data shape]. now rewrite length_map. Qed.

Lemma FullyConnected_forward_shape (layers : list layer) (x h : tensor) :
  FullyConnected_forward params layers x = Ok h ->
  match fc_out layers with
  | Some o => shape h = removelast (shape x) ++ [Z.to_nat o] /\ wf h
  | None => shape h = shape x /\ (wf x -> wf h)
  end.
Proof.
  revert x. induction layers as [|ly rest IH]; intros x; simpl.
  - intros [= <-]. auto.
  - destruct (layer_forward params ly x) as [h1|] eqn:H1; [|discriminate].
    cbn [rbind]. intros Hr. specialize (IH _ Hr).
    destruct ly as [l|]; simpl in H1.
    + apply linear_forward_shape in H1 as [Hs Hw].
      destruct (fc_out rest) as [o|].
      * destruct IH as [-> Hwh]. rewrite Hs, removelast_app_one. auto.
      * destruct IH as [-> Hwh]. auto.
    + injection H1 as <-.
      destruct (fc_out rest) as [o|].
      * exact IH.
      * destruct IH as [-> Hwh]. split; [reflexivity|].
        intros Hx. apply Hwh. now apply tmap_wf.
Qed.

Lemma FullyConnected_forward_app (l1 l2 : list layer) (x : tensor) :
  FullyConnected_forward params (l1 ++ l2) x
  = (h <- FullyConnected_forward params l1 x ;;
     FullyConnected_forward params l2 h)%result.
Proof.
  revert x. induction l1 as [|ly l1 IH]; intros x; simpl; [reflexivity|].
  destruct (layer_forward params ly x); cbn [rbind]; [apply IH|reflexivity].
Qed.

(** A stack that runs still runs without its last layer. *)
Lemma FullyConnected_forward_removelast (layers : list layer) (x h : tensor) :
  FullyConnected_forward params layers x = Ok h ->
  exists h', FullyConnected_forward params (removelast layers) x = Ok h'.
Proof.
  induction layers as [|ly rest _] using rev_ind; simpl; [eauto|].
  rewrite removelast_app_one, FullyConnected_forward_app.
  destruct (FullyConnected_forward params rest x); [eauto|discriminate].
Qed.

(** The layers built for [sizes] run on an input of width [sizes[0]]. *)
Lemma fc_loop_forward_total (sizes : list Z) :
  forall (n0 n1 : nat) (layers : list layer) (x : tensor),
    fc_loop (int_pairs (combine sizes (tl sizes))) n0 = Ok (layers, n1) ->
    Forall (fun z => (0 <= z)%Z) sizes ->
    shape x <> [] ->
    Z.of_nat (last (shape x) 0%nat) = hd 0%Z sizes ->
    exists h, FullyConnected_forward params layers x = Ok h.
Proof.
  induction sizes as [|a s IH]; intros n0 n1 layers x Hl Hpos Hne Hw.
  - simpl in Hl. unfold cret in Hl. injection Hl as <- _. simpl. eauto.
  - destruct s as [|b s'].
    + simpl in Hl. unfold cret in Hl. injection Hl as <- _. simpl. eauto.
    + change (int_pairs (combine (a :: b :: s') (tl (a :: b :: s'))))
        with ((PyInt a, PyInt b) :: int_pairs (combine (b :: s') (tl (b :: s')))) in Hl.
      apply fc_loop_cons_inv in Hl as (rest & Hrest & -> & _ & _).
      cbn [FullyConnected_forward layer_forward]. unfold linear_forward.
      unfold size_last. destruct (shape x) as [|d0 sh] eqn:Hsh; [congruence|].
      cbn [rbind in_features]. simpl hd in Hw. rewrite Hw, Z.eqb_refl.
      cbn [rbind].
      apply Forall_cons_iff in Hpos as [_ Hpos].
      apply (IH (S (S n0)) n1 rest).
      * exact Hrest.
      * exact Hpos.
      * unfold tmap, of_rows. cbn [shape]. now destruct (removelast (d0 :: sh)).
      * unfold tmap, of_rows. cbn [shape out_features]. rewrite last_last.
        apply Forall_cons_iff in Hpos as [Hb _]. simpl. lia.
Qed.
End Forward.


(** ** The twin heads of the model *)

Lemma fc_loop_sizes_out (sizes : list Z) :
  forall (n0 n1 : nat) (layers : list layer),
    fc_loop (int_pairs (combine sizes (tl sizes))) n0 = Ok (layers, n1) ->
    (2 <= List.length sizes)%nat ->
    fc_out (removelast layers) = Some (last sizes 0%Z).
Proof.
  induction sizes as [|a s IH]; intros n0 n1 layers Hl Hlen; [simpl in Hlen; lia|].
  destruct s as [|b s']; [simpl in Hlen; lia|].
  change (int_pairs (combine (a :: b :: s') (tl (a :: b :: s'))))
    with ((PyInt a, PyInt b) :: int_pairs (combine (b :: s') (tl (b :: s')))) in Hl.
  apply fc_loop_cons_inv in Hl as (rest & Hrest & -> & _ & _).
  destruct s' as [|c s''].
  - simpl in Hrest. unfold cret in Hrest. injection Hrest as <- _. reflexivity.
  - specialize (@IH _ _ _ Hrest ltac:(simpl; lia)).
    change (int_pairs (combine (b :: c :: s'') (tl (b :: c :: s''))))
      with ((PyInt b, PyInt c) :: int_pairs (combine (c :: s'') (tl (c :: s'')))) in Hrest.
    apply fc_loop_cons_inv in Hrest as (rest' & _ & -> & _ & _).
    change (removelast (Lin (mkLinear a b n0 (S n0)) :: ELU ::
                        Lin (mkLinear b c (S (S n0)) (S (S (S n0)))) :: ELU :: rest'))
      with (Lin (mkLinear a b n0 (S n0)) :: ELU ::
            removelast (Lin (mkLinear b c (S (S n0)) (S (S (S n0)))) :: ELU :: rest')).
    cbn [fc_out]. rewrite IH. reflexivity.
Qed.

Lemma BernoulliNet_init_inv (sizes : list Z) (n0 n1 : nat) (net : BernoulliNet) :
  BernoulliNet_init (map PyInt sizes) n0 = Ok (net, n1) ->
  exists layers,
    fc_loop (int_pairs (combine (sizes ++ [1%Z]) (tl (sizes ++ [1%Z])))) n0
    = Ok (layers, n1) /\
    bn_fc net = removelast layers.
Proof.
  unfold BernoulliNet_init, FullyConnected, cbind, clift, py_assert, list_pop, cret.
  change (map PyInt sizes ++ [PyInt 1]) with (map PyInt sizes ++ map PyInt [1%Z]).
  rewrite <- map_app, combine_ints.
  destruct (1 <=? List.length (map PyInt sizes))%nat; [|discriminate].
  destruct (fc_loop _ n0) as [[layers n2]|]; [|discriminate].
  destruct layers as [|ly layers]; [discriminate|].
  intros [= <- <-]. eauto.
Qed.

Section TwinHeads.
Context {B : Backend}.
Variable params : store.

(** A Bernoulli head built for [sizes] maps a batch of rows of width
    [sizes[0]] to one logit per row. *)
Lemma BernoulliNet_forward_total (sizes : list Z) (n0 n1 : nat)
      (net : BernoulliNet) (batch : list nat) (x : tensor) :
  BernoulliNet_init (map PyInt sizes) n0 = Ok (net, n1) ->
  sizes <> [] ->
  Forall (fun z => (0 <= z)%Z) sizes ->
  shape x = batch ++ [Z.to_nat (hd 0%Z sizes)] ->
  exists logits,
    BernoulliNet_forward params net x = Ok logits /\
    shape logits = batch /\ wf logits.
Proof.
  intros Hinit Hne Hpos Hx.
  destruct (BernoulliNet_init_inv _ _ Hinit) as (layers & Hl & Hfc).
  destruct (@fc_loop_forward_total B params (sizes ++ [1%Z]) n0 n1 layers x Hl)
    as (h & Hh).
  { apply Forall_app. split; [exact Hpos|]. constructor; [lia|constructor]. }
  { rewrite Hx. now destruct batch. }
  { rewrite Hx, last_last. destruct sizes as [|a s]; [congruence|].
    simpl. apply Forall_cons_iff in Hpos as [Ha _]. lia. }
  destruct (FullyConnected_forward_removelast _ _ _ Hh) as (h' & Hh').
  pose proof (FullyConnected_forward_shape _ _ _ Hh') as Hs.
  rewrite (@fc_loop_sizes_out _ _ _ _ Hl) in Hs.
  2:{ rewrite length_app. destruct sizes; [congruence|]. simpl. lia. }
  rewrite last_last, Hx, removelast_app_one in Hs. destruct Hs as [Hs Hw].
  assert (Hn : List.length (data h') = numel batch).
  { unfold wf in Hw. rewrite Hw, Hs, numel_app. simpl. lia. }
  unfold BernoulliNet_forward. rewrite Hfc, Hh'. cbn [rbind].
  eexists. split; [reflexivity|].
  unfold squeeze_last. rewrite Hs.
  destruct (batch ++ [Z.to_nat 1]) as [|d0 sh] eqn:E.
  { now destruct batch. }
  rewrite <- E, last_last, removelast_app_one. simpl Nat.eqb.
  split; [reflexivity|exact Hn].
Qed.

End TwinHeads.

(** * Further properties *)

(** ** The layers of a fully connected network *)

Lemma fc_loop_structure (pairs : list (Z * Z)) :
  forall (n0 n1 : nat) (layers : list layer),
    fc_loop (int_pairs pairs) n0 = Ok (layers, n1) ->
    n1 = (n0 + 2 * List.length pairs)%nat /\
    map widths (linears layers) = pairs /\
    fc_params layers = seq n0 (2 * List.length pairs) /\
    List.length layers = (2 * List.length pairs)%nat /\
    (forall i, (i < List.length layers)%nat ->
               nth i layers ELU = ELU <-> Nat.odd i = true).
Proof.
  induction pairs as [|[a b] ps IH]; intros n0 n1 layers H.
  - simpl in H. unfold cret in H. injection H as <- <-. simpl.
    repeat split; try lia; intros; simpl in *; lia.
  - change (int_pairs ((a, b) :: ps)) with ((PyInt a, PyInt b) :: int_pairs ps) in H.
    apply fc_loop_cons_inv in H as (rest & Hr & -> & _ & _).
    destruct (IH _ _ _ Hr) as (-> & Hw & Hp & Hl & Hpar).
    split; [simpl; lia|]. split; [simpl; now rewrite Hw|].
    split; [|split].
    + change (fc_params (Lin (mkLinear a b n0 (S n0)) :: ELU :: rest))
        with (n0 :: S n0 :: fc_params rest).
      rewrite Hp.
      replace (2 * List.length ((a, b) :: ps))%nat
        with (S (S (2 * List.length ps))) by (simpl; lia).
      reflexivity.
    + simpl. rewrite Hl. lia.
    + intros i Hi. destruct i as [|[|i]]; simpl.
      * split; discriminate.
      * split; reflexivity.
      * simpl in Hi. rewrite (Hpar i) by lia.
        rewrite <- (Nat.odd_succ_succ i). reflexivity.
Qed.

Lemma last_is_nth {A : Type} (l : list A) (d : A) :
  last l d = nth (List.length l - 1) l d.
Proof.
  induction l as [|a [|b l] IH]; try reflexivity.
  change (last (a :: b :: l) d) with (last (b :: l) d). rewrite IH.
  simpl. now rewrite Nat.sub_0_r.
Qed.

Lemma fc_loop_ends_with_ELU (pairs : list (Z * Z)) (n0 n1 : nat) (layers : list layer) :
  fc_loop (int_pairs pairs) n0 = Ok (layers, n1) -> pairs <> [] ->
  layers = removelast layers ++ [ELU].
Proof.
  intros H Hne. destruct (fc_loop_structure _ _ H) as (_ & _ & _ & Hl & Hpar).
  assert (Hlen : (0 < List.length layers)%nat).
  { rewrite Hl. destruct pairs; [congruence|simpl; lia]. }
  rewrite (app_removelast_last ELU) at 1 by (intros ->; simpl in Hlen; lia).
  f_equal. f_equal.
  rewrite last_is_nth. apply Hpar; [lia|].
  rewrite Hl. replace (2 * List.length pairs - 1)%nat
    with (S (2 * (List.length pairs - 1))) by lia.
  rewrite Nat.odd_succ. apply Nat.even_spec. now exists (List.length pairs - 1)%nat.
Qed.

Lemma linears_app (l1 l2 : list layer) : linears (l1 ++ l2) = linears l1 ++ linears l2.
Proof. unfold linears. apply flat_map_app. Qed.

Lemma fc_params_app (l1 l2 : list layer) : fc_params (l1 ++ l2) = fc_params l1 ++ fc_params l2.
Proof. unfold fc_params. apply flat_map_app. Qed.

(** [FullyConnected.__init__] pops the activation that follows the last
    linear layer; for positive sizes, with fewer than two of them there is
    nothing to pop and the call raises [IndexError]; with two or more it
    succeeds and allocates two parameters per consecutive pair of sizes. *)
Theorem FullyConnected_needs_two_sizes (sizes : list Z) (n0 : nat) :
  Forall (fun z => (0 < z)%Z) sizes ->
  match FullyConnected (map PyInt sizes) n0 with
  | Ok (layers, n1) =>
      (2 <= List.length sizes)%nat /\ n1 = (n0 + 2 * (List.length sizes - 1))%nat
  | Raise e => e = IndexError /\ (List.length sizes < 2)%nat
  end.
Proof.
  intros Hpos.
  assert (Hpos' : Forall (fun z => (0 <= z)%Z) sizes).
  { eapply Forall_impl; [|exact Hpos]. intros z Hz. simpl in Hz. lia. }
  destruct (Nat.le_gt_cases 2 (List.length sizes)) as [Hlen|Hlen].
  - destruct (FullyConnected_ok n0 Hpos' Hlen) as (layers & -> & _). auto.
  - destruct sizes as [|a [|b s]]; simpl in Hlen; try lia; vm_compute; auto.
Qed.

Lemma FullyConnected_inv (sizes : list Z) (n0 n1 : nat) (layers : list layer) :
  FullyConnected (map PyInt sizes) n0 = Ok (layers, n1) ->
  exists full,
    fc_loop (int_pairs (combine sizes (tl sizes))) n0 = Ok (full, n1) /\
    layers = removelast full /\ full = layers ++ [ELU] /\
    (2 <= List.length sizes)%nat.
Proof.
  unfold FullyConnected, cbind, clift, list_pop. rewrite combine_ints.
  destruct (fc_loop (int_pairs (combine sizes (tl sizes))) n0) as [[full n2]|] eqn:Hf;
    [|discriminate].
  destruct full as [|ly full]; [discriminate|]. intros [= <- <-].
  change (match full with [] => [] | _ :: _ => ly :: removelast full end)
    with (removelast (ly :: full)).
  assert (Hne : combine sizes (tl sizes) <> []).
  { intros E. rewrite E in Hf. simpl in Hf. unfold cret in Hf. discriminate. }
  exists (ly :: full). split; [reflexivity|]. split; [reflexivity|].
  split; [exact (fc_loop_ends_with_ELU _ Hf Hne)|].
  destruct sizes as [|a [|b s]]; simpl in Hne; try congruence. simpl. lia.
Qed.

Lemma length_combine_tl {A : Type} (l : list A) :
  List.length (combine l (tl l)) = (List.length l - 1)%nat.
Proof.
  rewrite length_combine. destruct l as [|a s]; [reflexivity|].
  cbn [tl List.length]. lia.
Qed.

Lemma FullyConnected_structure (sizes : list Z) (n0 n1 : nat) (layers : list layer) :
  FullyConnected (map PyInt sizes) n0 = Ok (layers, n1) ->
  (2 <= List.length sizes)%nat /\
  n1 = (n0 + 2 * (List.length sizes - 1))%nat /\
  map widths (linears layers) = combine sizes (tl sizes) /\
  List.length layers = (2 * (List.length sizes - 1) - 1)%nat /\
  (forall i, (i < List.length layers)%nat ->
             nth i layers ELU = ELU <-> Nat.odd i = true) /\
  fc_params layers = seq n0 (n1 - n0) /\
  fc_out layers = Some (last sizes 0%Z).
Proof.
  intros H. destruct (FullyConnected_inv _ _ H) as (full & Hf & Hrl & Hend & Hlen).
  destruct (fc_loop_structure _ _ Hf) as (Hn & Hw & Hp & Hl & Hpar).
  rewrite length_combine_tl in *.
  assert (Hlb : List.length full = S (List.length layers)).
  { rewrite Hend, length_app. simpl. lia. }
  split; [exact Hlen|]. split; [exact Hn|]. split; [|split; [|split; [|split]]].
  - rewrite <- Hw, Hend, linears_app. simpl. now rewrite app_nil_r.
  - lia.
  - intros i Hi. rewrite <- (Hpar i) by lia.
    rewrite Hend. rewrite app_nth1 by exact Hi. reflexivity.
  - replace (n1 - n0)%nat with (2 * (List.length sizes - 1))%nat by lia.
    rewrite <- Hp, Hend, fc_params_app. simpl. now rewrite app_nil_r.
  - rewrite Hrl. exact (fc_loop_sizes_out _ _ Hf Hlen).
Qed.

(** The layers of a fully connected network: the linear layers map
    [sizes[i]] to [sizes[i+1]], in order; an activation stands between any
    two of them and none after the last; the parameters are the fresh
    identifiers allocated by the call, in order. *)
Theorem FullyConnected_layers (sizes : list Z) (n0 n1 : nat) (layers : list layer) :
  FullyConnected (map PyInt sizes) n0 = Ok (layers, n1) ->
  map widths (linears layers) = combine sizes (tl sizes) /\
  List.length layers = (2 * (List.length sizes - 1) - 1)%nat /\
  (forall i, (i < List.length layers)%nat ->
             nth i layers ELU = ELU <-> Nat.odd i = true) /\
  fc_params layers = seq n0 (n1 - n0).
Proof.
  intros H.
  destruct (FullyConnected_structure _ _ H) as (_ & _ & Hw & Hl & Hpar & Hp & _).
  auto.
Qed.

(** ** The assertions of the two conditional networks *)

Lemma last_app_one {A : Type} (l : list A) (a d : A) : last (l ++ [a]) d = a.
Proof. apply last_last. Qed.

Lemma length_removelast_app_one {A : Type} (l : list A) (a : A) :
  l <> [] -> List.length (removelast l ++ [a]) = List.length l.
Proof.
  intros Hne. rewrite (app_removelast_last a Hne) at 2.
  now rewrite !length_app.
Qed.

Lemma DiagNormalNet_init_fc (sizes : list Z) (n0 n1 : nat) (net : DiagNormalNet) :
  DiagNormalNet_init (map PyInt sizes) n0 = Ok (net, n1) ->
  (2 <= List.length sizes)%nat /\
  FullyConnected (map PyInt (removelast sizes ++ [last sizes 0 * 2]%Z)) n0
  = Ok (dn_fc net, n1).
Proof.
  unfold DiagNormalNet_init, cbind, clift, py_assert, cret.
  rewrite DiagNormalNet_sizes_ints, length_map.
  destruct (2 <=? List.length sizes)%nat eqn:Hlen; [|discriminate].
  apply Nat.leb_le in Hlen.
  destruct (FullyConnected _ n0) as [[fc n2]|]; [|discriminate].
  intros [= <- <-]. auto.
Qed.

Lemma BernoulliNet_init_fc (sizes : list Z) (n0 n1 : nat) (net : BernoulliNet) :
  BernoulliNet_init (map PyInt sizes) n0 = Ok (net, n1) ->
  (1 <= List.length sizes)%nat /\
  FullyConnected (map PyInt (sizes ++ [1%Z])) n0 = Ok (bn_fc net, n1).
Proof.
  unfold BernoulliNet_init, cbind, clift, py_assert, cret.
  rewrite map_app, length_map. cbn [map].
  destruct (1 <=? List.length sizes)%nat eqn:Hlen; [|discriminate].
  apply Nat.leb_le in Hlen.
  destruct (FullyConnected _ n0) as [[fc n2]|]; [|discriminate].
  intros [= <- <-]. auto.
Qed.

Lemma DiagNormalNet_init_structure (sizes : list Z) (n0 n1 : nat) (net : DiagNormalNet) :
  DiagNormalNet_init (map PyInt sizes) n0 = Ok (net, n1) ->
  (2 <= List.length sizes)%nat /\
  n1 = (n0 + 2 * (List.length sizes - 1))%nat /\
  fc_params (dn_fc net) = seq n0 (n1 - n0) /\
  fc_out (dn_fc net) = Some (last sizes 0 * 2)%Z /\
  List.length (linears (dn_fc net)) = (List.length sizes - 1)%nat.
Proof.
  intros H. destruct (DiagNormalNet_init_fc _ _ H) as (Hlen & Hfc).
  destruct (FullyConnected_structure _ _ Hfc) as (_ & Hn & Hw & _ & _ & Hp & Ho).
  assert (Hne : sizes <> []) by (intros ->; simpl in Hlen; lia).
  rewrite (length_removelast_app_one _ Hne) in Hn.
  rewrite last_app_one in Ho.
  repeat split; auto.
  rewrite <- (length_map widths), Hw, length_combine_tl.
  now rewrite (length_removelast_app_one _ Hne).
Qed.

Lemma BernoulliNet_init_structure (sizes : list Z) (n0 n1 : nat) (net : BernoulliNet) :
  BernoulliNet_init (map PyInt sizes) n0 = Ok (net, n1) ->
  sizes <> [] /\
  n1 = (n0 + 2 * List.length sizes)%nat /\
  fc_params (bn_fc net) = seq n0 (n1 - n0) /\
  fc_out (bn_fc net) = Some 1%Z /\
  List.length (linears (bn_fc net)) = List.length sizes.
Proof.
  intros H. destruct (BernoulliNet_init_fc _ _ H) as (Hlen & Hfc).
  destruct (FullyConnected_structure _ _ Hfc) as (_ & Hn & Hw & _ & _ & Hp & Ho).
  rewrite length_app in Hn. cbn [List.length] in Hn.
  rewrite last_app_one in Ho.
  split; [intros ->; simpl in Hlen; lia|].
  split; [lia|]. repeat split; auto.
  rewrite <- (length_map widths), Hw, length_combine_tl, length_app. simpl. lia.
Qed.

(** For positive sizes, [DiagNormalNet.__init__] refuses fewer than two
    of them with an [AssertionError] and raises nothing else; the network
    it builds has one linear layer per consecutive pair of sizes and its
    output is twice as wide as [sizes[-1]]. *)
Theorem DiagNormalNet_init_asserts (sizes : list Z) (n0 : nat) :
  Forall (fun z => (0 < z)%Z) sizes ->
  match DiagNormalNet_init (map PyInt sizes) n0 with
  | Ok (net, n1) =>
      (2 <= List.length sizes)%nat /\
      n1 = (n0 + 2 * (List.length sizes - 1))%nat /\
      fc_out (dn_fc net) = Some (last sizes 0 * 2)%Z /\
      List.length (linears (dn_fc net)) = (List.length sizes - 1)%nat
  | Raise e => e = AssertionError /\ (List.length sizes < 2)%nat
  end.
Proof.
  intros Hpos.
  assert (Hpos' : Forall (fun z => (0 <= z)%Z) sizes).
  { eapply Forall_impl; [|exact Hpos]. intros z Hz. simpl in Hz. lia. }
  destruct (DiagNormalNet_init (map PyInt sizes) n0) as [[net n1]|e] eqn:H.
  - destruct (DiagNormalNet_init_structure _ _ H) as (? & ? & _ & ? & ?). auto.
  - destruct (Nat.le_gt_cases 2 (List.length sizes)) as [Hlen|Hlen].
    + destruct (DiagNormalNet_init_ok n0 Hpos' Hlen) as (net & Hn & _). congruence.
    + revert H. unfold DiagNormalNet_init, cbind, clift, py_assert.
      rewrite length_map.
      destruct (Nat.leb_spec 2 (List.length sizes)); [lia|]. intros [= <-]. auto.
Qed.

(** For positive sizes, [BernoulliNet.__init__] refuses an empty list
    with an [AssertionError] and raises nothing else; the network it
    builds has one linear layer per size and a single output. *)
Theorem BernoulliNet_init_asserts (sizes : list Z) (n0 : nat) :
  Forall (fun z => (0 < z)%Z) sizes ->
  match BernoulliNet_init (map PyInt sizes) n0 with
  | Ok (net, n1) =>
      sizes <> [] /\
      n1 = (n0 + 2 * List.length sizes)%nat /\
      fc_out (bn_fc net) = Some 1%Z /\
      List.length (linears (bn_fc net)) = List.length sizes
  | Raise e => e = AssertionError /\ sizes = []
  end.
Proof.
  intros Hpos.
  assert (Hpos' : Forall (fun z => (0 <= z)%Z) sizes).
  { eapply Forall_impl; [|exact Hpos]. intros z Hz. simpl in Hz. lia. }
  destruct (BernoulliNet_init (map PyInt sizes) n0) as [[net n1]|e] eqn:H.
  - destruct (BernoulliNet_init_structure _ _ H) as (? & ? & _ & ? & ?). auto.
  - destruct sizes as [|a s].
    + vm_compute in H. injection H as <-. auto.
    + destruct (@BernoulliNet_init_ok (a :: s) n0 Hpos' ltac:(simpl; lia))
        as (net & Hn & _).
      congruence.
Qed.

(** ** The networks of the model and of the guide *)

Lemma cbind_ok {A C : Type} (c : ctor A) (k : A -> ctor C) (n0 n1 : nat) (r : C) :
  cbind c k n0 = Ok (r, n1) ->
  exists a n, c n0 = Ok (a, n) /\ k a n = Ok (r, n1).
Proof.
  unfold cbind. destruct (c n0) as [[a n]|]; [|discriminate]. eauto.
Qed.

Lemma cbind_raise {A C : Type} (c : ctor A) (k : A -> ctor C) (n0 : nat) (e : exn) :
  cbind c k n0 = Raise e ->
  c n0 = Raise e \/ exists a n, c n0 = Ok (a, n) /\ k a n = Raise e.
Proof.
  unfold cbind. destruct (c n0) as [[a n]|e']; intros H; [right; eauto|left; congruence].
Qed.

Lemma seq_join (a b c : nat) :
  (a <= b <= c)%nat -> seq a (b - a) ++ seq b (c - b) = seq a (c - a).
Proof.
  intros H. replace (c - a)%nat with ((b - a) + (c - b))%nat by lia.
  rewrite seq_app. do 2 f_equal. lia.
Qed.

Lemma Model_init_params (c : config) (n0 n1 : nat) (self : Model) :
  Model_init c n0 = Ok (self, n1) ->
  n1 = (n0 + 6 * Z.to_nat (int_value (num_layers c)) + 8)%nat /\
  Model_params self = seq n0 (n1 - n0).
Proof.
  intros H.
  destruct (@Model_init_parts c n0 n1 self H) as (a & b & d & Hx & Hy0 & Hy1 & Ht & _).
  apply DiagNormalNet_init_structure in Hx as (_ & Ha & Hpx & _).
  apply BernoulliNet_init_structure in Hy0 as (_ & Hb & Hpy0 & _).
  apply BernoulliNet_init_structure in Hy1 as (_ & Hd & Hpy1 & _).
  apply BernoulliNet_init_structure in Ht as (_ & Hn & Hpt & _).
  rewrite !length_app, ?length_repeated in *. cbn [List.length] in *.
  split; [lia|].
  unfold Model_params. rewrite Hpx, Hpy0, Hpy1, Hpt.
  rewrite <- (@seq_join n0 a n1) by lia. f_equal.
  rewrite <- (@seq_join a b n1) by lia. f_equal.
  apply seq_join. lia.
Qed.

Lemma Guide_init_params (c : config) (n0 n1 : nat) (self : Guide) :
  Guide_init c n0 = Ok (self, n1) ->
  (0 < int_value (num_layers c))%Z /\
  n1 = (n0 + 6 * Z.to_nat (int_value (num_layers c)) + 10)%nat /\
  Guide_params self = seq n0 (n1 - n0).
Proof.
  intros H.
  destruct (@Guide_init_parts c n0 n1 self H)
    as (a & b & d & e & f & Ht & Hy & Hy0 & Hy1 & Hz0 & Hz1 & _).
  apply BernoulliNet_init_structure in Ht as (_ & Ha & Hpt & _).
  apply FullyConnected_structure in Hy as (Hlen & Hb & _ & _ & _ & Hpy & _).
  apply BernoulliNet_init_structure in Hy0 as (_ & Hd & Hpy0 & _).
  apply BernoulliNet_init_structure in Hy1 as (_ & He & Hpy1 & _).
  apply DiagNormalNet_init_structure in Hz0 as (_ & Hf & Hpz0 & _).
  apply DiagNormalNet_init_structure in Hz1 as (_ & Hn & Hpz1 & _).
  rewrite !length_app, ?length_repeated in *. cbn [List.length] in *.
  split; [lia|]. split; [lia|].
  unfold Guide_params. rewrite Hpt, Hpy, Hpy0, Hpy1, Hpz0, Hpz1.
  rewrite <- (@seq_join n0 a n1) by lia. f_equal.
  rewrite <- (@seq_join a b n1) by lia. f_equal.
  rewrite <- (@seq_join b d n1) by lia. f_equal.
  rewrite <- (@seq_join d e n1) by lia. f_equal.
  apply seq_join. lia.
Qed.

(** For widths that are positive ints, [Model.__init__] succeeds for
    every integer number of hidden layers, also none or a negative one
    ([[hidden] * num_layers] is then empty), and allocates
    [6 * max(num_layers, 0) + 8] parameters, all fresh. *)
Theorem Model_init_any_depth (c : config) (n0 : nat) :
  is_int (feature_dim c) -> is_int (latent_dim c) -> is_int (hidden_dim c) ->
  is_int (num_layers c) ->
  (0 < int_value (feature_dim c))%Z -> (0 < int_value (latent_dim c))%Z ->
  (0 < int_value (hidden_dim c))%Z ->
  exists self,
    Model_init c n0
    = Ok (self, (n0 + 6 * Z.to_nat (int_value (num_layers c)) + 8)%nat) /\
    m_latent_dim self = int_value (latent_dim c) /\
    Model_params self = seq n0 (6 * Z.to_nat (int_value (num_layers c)) + 8).
Proof.
  intros Hf Hl Hh Hk Hfp Hlp Hhp.
  destruct (@Model_init_ok c (is_int_isinstance Hf) (is_int_isinstance Hl) Hh
              (is_int_isinstance Hk) ltac:(lia) ltac:(lia) ltac:(lia) n0)
    as (self & _ & _ & _ & n4 & H & Hlat & _).
  destruct (Model_init_params _ _ H) as (Hn & Hp).
  exists self. subst n4. split; [exact H|]. split; [exact Hlat|].
  rewrite Hp. f_equal. lia.
Qed.

(** [Guide.__init__] needs a hidden layer: for widths that are positive
    ints and an integer [num_layers <= 0] the trunk [y_nn] is built
    from the single size [feature_dim] and the call raises [IndexError];
    otherwise it succeeds and allocates [6 * num_layers + 10] parameters,
    all fresh. *)
Theorem Guide_init_needs_a_layer (c : config) (n0 : nat) :
  is_int (feature_dim c) -> is_int (latent_dim c) -> is_int (hidden_dim c) ->
  is_int (num_layers c) ->
  (0 < int_value (feature_dim c))%Z -> (0 < int_value (latent_dim c))%Z ->
  (0 < int_value (hidden_dim c))%Z ->
  match Guide_init c n0 with
  | Ok (self, n1) =>
      (0 < int_value (num_layers c))%Z /\
      n1 = (n0 + 6 * Z.to_nat (int_value (num_layers c)) + 10)%nat /\
      Guide_params self = seq n0 (n1 - n0)
  | Raise e => e = IndexError /\ (int_value (num_layers c) <= 0)%Z
  end.
Proof.
  intros Hf Hl Hh Hk Hfp Hlp Hhp.
  destruct (Guide_init c n0) as [[self n1]|e] eqn:H.
  - exact (Guide_init_params _ _ H).
  - destruct (Z.lt_ge_cases 0 (int_value (num_layers c))) as [Hpos|Hneg].
    + destruct (@Guide_init_ok c (is_int_isinstance Hf) (is_int_isinstance Hl) Hh
                  (is_int_isinstance Hk) ltac:(lia) ltac:(lia) ltac:(lia) n0 Hpos)
        as (self & n1 & Hok).
      congruence.
    + split; [|lia]. revert H.
      rewrite (@Guide_init_ints c (is_int_isinstance Hf) (is_int_isinstance Hl) Hh
                 (is_int_isinstance Hk) n0).
      unfold repeated.
      replace (Z.to_nat (int_value (num_layers c))) with 0%nat by lia.
      cbn [repeat app]. unfold cbind at 1.
      destruct (@BernoulliNet_init_ok [int_value (feature_dim c)] n0) as (t_nn & -> & _).
      { constructor; [lia|constructor]. }
      { simpl. lia. }
      unfold cbind at 1. cbn. congruence.
Qed.

(** The parameters of a [CEVAE]: the constructor allocates
    [12 * num_layers + 18] tensors, the weights and biases of the linear
    layers of the model and then of the guide, and no two networks share
    one. *)
Theorem CEVAE_parameters (f l h k : pyobj) (n0 n1 : nat) (self : CEVAE) :
  CEVAE_init f l h k n0 = Ok (self, n1) ->
  n1 = (n0 + 12 * Z.to_nat (int_value k) + 18)%nat /\
  CEVAE_params self = seq n0 (n1 - n0) /\
  NoDup (CEVAE_params self) /\
  cevae_feature_dim self = int_value f.
Proof.
  unfold CEVAE_init. intros H.
  apply cbind_ok in H as (u & n & Hv & H).
  unfold clift in Hv. destruct (validate _); [|discriminate]. injection Hv as _ <-.
  apply cbind_ok in H as (model & n2 & Hm & H).
  apply cbind_ok in H as (guide & n3 & Hg & H).
  unfold cret in H. injection H as <- <-.
  apply Model_init_params in Hm as (Hn2 & Hpm).
  apply Guide_init_params in Hg as (_ & Hn3 & Hpg).
  cbn in Hn2, Hn3.
  assert (Hp : CEVAE_params (mkCEVAE (int_value f) model guide) = seq n0 (n3 - n0)).
  { unfold CEVAE_params. cbn. rewrite Hpm, Hpg. apply seq_join. lia. }
  split; [lia|]. split; [exact Hp|]. split; [|reflexivity].
  rewrite Hp. apply seq_NoDup.
Qed.

(** ** Shapes through the networks *)

Section ForwardShapes.
Context {B : Backend}.
Variable params : store.

Lemma FullyConnected_forward_total (sizes : list Z) (n0 n1 : nat)
      (layers : list layer) (batch : list nat) (x : tensor) :
  FullyConnected (map PyInt sizes) n0 = Ok (layers, n1) ->
  Forall (fun z => (0 <= z)%Z) sizes ->
  shape x = batch ++ [Z.to_nat (hd 0%Z sizes)] ->
  exists h,
    FullyConnected_forward params layers x = Ok h /\
    shape h = batch ++ [Z.to_nat (last sizes 0%Z)] /\ wf h.
Proof.
  intros Hfc Hpos Hx.
  destruct (FullyConnected_inv _ _ Hfc) as (full & Hf & Hrl & _ & Hlen).
  destruct (FullyConnected_structure _ _ Hfc) as (_ & _ & _ & _ & _ & _ & Hout).
  destruct (@fc_loop_forward_total B params sizes n0 n1 full x Hf Hpos) as (h0 & Hh0).
  { rewrite Hx. now destruct batch. }
  { rewrite Hx, last_last. destruct sizes as [|a s]; [simpl in Hlen; lia|].
    apply Forall_cons_iff in Hpos as [Ha _]. simpl. lia. }
  destruct (FullyConnected_forward_removelast _ _ _ Hh0) as (h & Hh).
  rewrite <- Hrl in Hh. exists h. split; [exact Hh|].
  pose proof (FullyConnected_forward_shape _ _ _ Hh) as Hs.
  rewrite Hout, Hx, removelast_app_one in Hs. exact Hs.
Qed.

Lemma FullyConnected_forward_wrong_width (sizes : list Z) (n0 n1 : nat)
      (layers : list layer) (x : tensor) :
  FullyConnected (map PyInt sizes) n0 = Ok (layers, n1) ->
  shape x <> [] ->
  Z.of_nat (last (shape x) 0%nat) <> hd 0%Z sizes ->
  FullyConnected_forward params layers x = Raise RuntimeError.
Proof.
  intros Hfc Hne Hw.
  destruct (FullyConnected_inv _ _ Hfc) as (full & Hf & Hrl & _ & Hlen).
  destruct sizes as [|a [|b s]]; try (simpl in Hlen; lia).
  change (int_pairs (combine (a :: b :: s) (tl (a :: b :: s))))
    with ((PyInt a, PyInt b) :: int_pairs (combine (b :: s) (tl (b :: s)))) in Hf.
  apply fc_loop_cons_inv in Hf as (rest & _ & -> & _ & _). subst layers.
  change (removelast (Lin (mkLinear a b n0 (S n0)) :: ELU :: rest))
    with (Lin (mkLinear a b n0 (S n0)) :: removelast (ELU :: rest)).
  cbn [FullyConnected_forward layer_forward]. unfold linear_forward, size_last.
  destruct (shape x) as [|d0 sh] eqn:Hsh; [congruence|].
  cbn [rbind in_features]. simpl hd in Hw.
  destruct (Z.eqb_spec (Z.of_nat (last (d0 :: sh) 0%nat)) a); [contradiction|].
  reflexivity.
Qed.

(** A fully connected network built for [sizes] checks the width of its
    input: on a tensor whose last dimension is [sizes[0]] it returns a
    well-formed tensor with the same leading dimensions and last dimension
    [sizes[-1]]; on any other tensor of one dimension or more it raises
    [RuntimeError]. *)
Theorem FullyConnected_forward_checks_width (sizes : list Z) (n0 n1 : nat)
        (layers : list layer) (x : tensor) :
  FullyConnected (map PyInt sizes) n0 = Ok (layers, n1) ->
  Forall (fun z => (0 <= z)%Z) sizes ->
  shape x <> [] ->
  if (Z.of_nat (last (shape x) 0%nat) =? hd 0%Z sizes)%Z
  then exists h,
      FullyConnected_forward params layers x = Ok h /\
      shape h = removelast (shape x) ++ [Z.to_nat (last sizes 0%Z)] /\ wf h
  else FullyConnected_forward params layers x = Raise RuntimeError.
Proof.
  intros Hfc Hpos Hne.
  destruct (Z.eqb_spec (Z.of_nat (last (shape x) 0%nat)) (hd 0%Z sizes)) as [Hw|Hw].
  - apply (@FullyConnected_forward_total sizes n0 n1 layers (removelast (shape x)) x
             Hfc Hpos).
    rewrite <- Hw, Nat2Z.id. now apply app_removelast_last.
  - now apply (@FullyConnected_forward_wrong_width sizes n0 n1 layers x Hfc).
Qed.

Lemma rows_widths (x : tensor) (batch : list nat) (w : nat) :
  shape x = batch ++ [w] -> wf x ->
  List.length (rows x) = numel batch /\
  Forall (fun r => List.length r = w) (rows x).
Proof.
  intros Hs Hw. unfold rows. rewrite Hs, removelast_app_one, last_last.
  split; [apply length_split_rows|].
  apply split_rows_widths. unfold wf in Hw. rewrite Hw, Hs, numel_app. simpl. lia.
Qed.

Lemma size_last_app (x : tensor) (batch : list nat) (w : nat) :
  shape x = batch ++ [w] -> size_last x = Ok w.
Proof.
  intros Hs. unfold size_last. rewrite Hs, last_last. now destruct batch.
Qed.

Lemma slice_to_shape (d w : nat) (batch : list nat) (x : tensor) :
  shape x = batch ++ [w] -> wf x -> (d <= w)%nat ->
  exists y, slice_to d x = Ok y /\ shape y = batch ++ [d] /\ wf y.
Proof.
  intros Hs Hw Hd. destruct (@rows_widths x batch w Hs Hw) as [Hn Hr].
  unfold slice_to. rewrite (@size_last_app x batch w Hs). cbn [rbind].
  rewrite Hs, removelast_app_one, Nat.min_l by exact Hd.
  eexists. split; [reflexivity|]. split; [reflexivity|].
  apply of_rows_wf; [now rewrite length_map|].
  apply Forall_map. eapply Forall_impl; [|exact Hr].
  intros r Hlr. cbv beta in *. rewrite length_firstn, Hlr. now apply Nat.min_l.
Qed.

Lemma slice_from_shape (d w : nat) (batch : list nat) (x : tensor) :
  shape x = batch ++ [w] -> wf x ->
  exists y, slice_from d x = Ok y /\ shape y = batch ++ [(w - d)%nat] /\ wf y.
Proof.
  intros Hs Hw. destruct (@rows_widths x batch w Hs Hw) as [Hn Hr].
  unfold slice_from. rewrite (@size_last_app x batch w Hs). cbn [rbind].
  rewrite Hs, removelast_app_one.
  eexists. split; [reflexivity|]. split; [reflexivity|].
  apply of_rows_wf; [now rewrite length_map|].
  apply Forall_map. eapply Forall_impl; [|exact Hr].
  intros r Hlr. cbv beta in *. rewrite length_skipn, Hlr. reflexivity.
Qed.

Lemma DiagNormalNet_forward_total (sizes : list Z) (n0 n1 : nat)
      (net : DiagNormalNet) (batch : list nat) (x : tensor) :
  DiagNormalNet_init (map PyInt sizes) n0 = Ok (net, n1) ->
  Forall (fun z => (0 <= z)%Z) sizes ->
  shape x = batch ++ [Z.to_nat (hd 0%Z sizes)] ->
  exists loc scale,
    DiagNormalNet_forward params net x = Ok (loc, scale) /\
    shape loc = batch ++ [Z.to_nat (last sizes 0%Z)] /\
    shape scale = batch ++ [Z.to_nat (last sizes 0%Z)] /\
    wf loc /\ wf scale.
Proof.
  intros Hinit Hpos Hx.
  destruct (DiagNormalNet_init_fc _ _ Hinit) as (Hlen & Hfc).
  assert (Hne : sizes <> []) by (intros ->; simpl in Hlen; lia).
  assert (Hlast : (0 <= last sizes 0)%Z).
  { rewrite Forall_forall in Hpos. apply Hpos.
    rewrite (app_removelast_last 0%Z Hne) at 2. apply in_or_app. right. now left. }
  destruct (@FullyConnected_forward_total _ n0 n1 (dn_fc net) batch x Hfc)
    as (h & Hh & Hs & Hw).
  { apply Forall_app. split.
    - rewrite Forall_forall in Hpos |- *. intros z Hz. apply Hpos.
      now apply in_removelast.
    - constructor; [lia|constructor]. }
  { rewrite Hx. do 3 f_equal.
    destruct sizes as [|a [|b s]]; try (simpl in Hlen; lia). reflexivity. }
  rewrite last_last in Hs.
  set (d := Z.to_nat (last sizes 0%Z)) in *.
  assert (Hd : Z.to_nat (last sizes 0 * 2)%Z = (2 * d)%nat) by (unfold d; lia).
  rewrite Hd in Hs.
  unfold DiagNormalNet_forward. rewrite Hh. cbn [rbind].
  rewrite (@size_last_app h batch _ Hs). cbn [rbind].
  replace (2 * d / 2)%nat with d by (rewrite Nat.mul_comm, Nat.div_mul; lia).
  destruct (@slice_to_shape d (2 * d) batch h Hs Hw) as (loc & -> & Hsl & Hwl); [lia|].
  destruct (@slice_from_shape d (2 * d) batch h Hs Hw) as (raw & -> & Hsr & Hwr).
  cbn [rbind]. replace (2 * d - d)%nat with d in Hsr by lia.
  eexists. eexists. split; [reflexivity|].
  split; [exact Hsl|]. split; [exact Hsr|]. split; [exact Hwl|].
  now do 2 apply tmap_wf.
Qed.

(** [DiagNormalNet.forward] halves the output of its network: for a
    network built from [sizes], an input with last dimension [sizes[0]]
    yields a location and a scale that both have the leading dimensions
    of the input and last dimension [sizes[-1]]. *)
Theorem DiagNormalNet_forward_shapes (sizes : list Z) (n0 n1 : nat)
        (net : DiagNormalNet) (batch : list nat) (x : tensor) :
  DiagNormalNet_init (map PyInt sizes) n0 = Ok (net, n1) ->
  Forall (fun z => (0 <= z)%Z) sizes ->
  shape x = batch ++ [Z.to_nat (hd 0%Z sizes)] ->
  exists loc scale,
    DiagNormalNet_forward params net x = Ok (loc, scale) /\
    shape loc = batch ++ [Z.to_nat (last sizes 0%Z)] /\
    shape scale = shape loc /\
    wf loc /\ wf scale.
Proof.
  intros Hinit Hpos Hx.
  destruct (@DiagNormalNet_forward_total sizes n0 n1 net batch x Hinit Hpos Hx)
    as (loc & scale & H & Hl & Hs & Hwl & Hws).
  exists loc, scale. repeat split; auto. congruence.
Qed.

(** [BernoulliNet.forward] drops the last dimension: for a network built
    from [sizes], an input with last dimension [sizes[0]] yields logits
    with the leading dimensions of the input, which are the entries of
    the single output column of the network. *)
Theorem BernoulliNet_forward_squeezes (sizes : list Z) (n0 n1 : nat)
        (net : BernoulliNet) (batch : list nat) (x : tensor) :
  BernoulliNet_init (map PyInt sizes) n0 = Ok (net, n1) ->
  Forall (fun z => (0 <= z)%Z) sizes ->
  shape x = batch ++ [Z.to_nat (hd 0%Z sizes)] ->
  exists h logits,
    FullyConnected_forward params (bn_fc net) x = Ok h /\
    shape h = batch ++ [1%nat] /\
    BernoulliNet_forward params net x = Ok logits /\
    shape logits = batch /\ data logits = data h /\ wf logits.
Proof.
  intros Hinit Hpos Hx.
  destruct (BernoulliNet_init_fc _ _ Hinit) as (Hlen & Hfc).
  destruct (@FullyConnected_forward_total _ n0 n1 (bn_fc net) batch x Hfc)
    as (h & Hh & Hs & Hw).
  { apply Forall_app. split; [exact Hpos|]. constructor; [lia|constructor]. }
  { rewrite Hx. do 3 f_equal. destruct sizes; [simpl in Hlen; lia|reflexivity]. }
  rewrite last_last in Hs. change (Z.to_nat 1) with 1%nat in Hs.
  assert (Hn : List.length (data h) = numel batch).
  { unfold wf in Hw. rewrite Hw, Hs, numel_app. simpl. lia. }
  exists h. unfold BernoulliNet_forward. rewrite Hh. cbn [rbind].
  eexists. split; [reflexivity|]. split; [exact Hs|]. split; [reflexivity|].
  unfold squeeze_last. rewrite Hs.
  destruct (batch ++ [1%nat]) as [|d0 sh] eqn:E; [now destruct batch|].
  rewrite <- E, last_last, removelast_app_one. cbn [Nat.eqb shape data].
  split; [reflexivity|]. split; [reflexivity|exact Hn].
Qed.

End ForwardShapes.

(** ** Broadcasting *)

Lemma mapM_ok {A C : Type} (P : C -> Prop) (f : A -> result C) (l : list A) :
  Forall (fun a => exists b, f a = Ok b /\ P b) l ->
  exists l', mapM f l = Ok l' /\ Forall P l' /\ List.length l' = List.length l.
Proof.
  induction 1 as [|a l (b & Hb & HP) _ (l' & Hl' & HPl & Hlen)]; simpl.
  - exists []. auto.
  - rewrite Hb, Hl'. cbn [rbind]. exists (b :: l'). repeat split; auto.
    simpl. now rewrite Hlen.
Qed.

Lemma length_concat_repeat {A : Type} (r : list A) (k : nat) :
  List.length (List.concat (repeat r k)) = (k * List.length r)%nat.
Proof.
  induction k as [|k IH]; simpl; [reflexivity|]. now rewrite length_app, IH.
Qed.

Lemma expand_data_ok (src tgt : list nat) :
  Forall2 (fun m k => m = k \/ m = 1%nat) src tgt ->
  forall d, List.length d = numel src ->
  exists d', expand_data tgt src d = Ok d' /\ List.length d' = numel tgt.
Proof.
  induction 1 as [|m k src tgt Hmk _ IH]; intros d Hd.
  - exists d. auto.
  - cbn [expand_data]. change (numel (m :: src)) with (m * numel src)%nat in Hd.
    change (numel (k :: tgt)) with (k * numel tgt)%nat.
    destruct (Nat.eqb_spec m k) as [->|Hne].
    + destruct (@mapM_ok _ _ (fun r => List.length r = numel tgt)
                  (expand_data tgt src) (split_rows k (numel src) d))
        as (rs & -> & Hrs & Hlen).
      { eapply Forall_impl; [|apply split_rows_widths; lia].
        intros r Hr. cbv beta in Hr. exact (IH r Hr). }
      cbn [rbind]. eexists. split; [reflexivity|].
      rewrite (length_concat_rows Hrs), Hlen, length_split_rows. reflexivity.
    + destruct Hmk as [->| ->]; [contradiction|]. cbn [Nat.eqb].
      destruct (IH d) as (r & -> & Hr); [lia|].
      cbn [rbind]. eexists. split; [reflexivity|].
      now rewrite length_concat_repeat, Hr.
Qed.

Lemma split_rows_incl (m w : nat) (d r : list Q) :
  In r (split_rows m w d) -> incl r d.
Proof.
  revert d. induction m as [|m IH]; intros d; simpl; [contradiction|].
  intros [<-|Hin] v Hv.
  - rewrite <- (firstn_skipn w d). apply in_or_app. now left.
  - rewrite <- (firstn_skipn w d). apply in_or_app. right. exact (IH _ Hin v Hv).
Qed.

Lemma concat_repeat_incl {A : Type} (r : list A) (k : nat) :
  incl (List.concat (repeat r k)) r.
Proof.
  induction k as [|k IH]; simpl; intros v Hv; [contradiction|].
  apply in_app_or in Hv as [Hv|Hv]; auto.
Qed.

Lemma Forall2_In_r {A C : Type} (R : A -> C -> Prop) (l1 : list A) (l2 : list C) (c : C) :
  Forall2 R l1 l2 -> In c l2 -> exists a, In a l1 /\ R a c.
Proof.
  induction 1 as [|a c' l1 l2 Hac _ IH]; simpl; [contradiction|].
  intros [<-|Hin]; [eauto|]. destruct (IH Hin) as (a' & Ha' & HR). eauto.
Qed.

(** Expansion only replicates entries. *)
Lemma expand_data_incl (tgt : list nat) :
  forall (src : list nat) (d d' : list Q),
    expand_data tgt src d = Ok d' -> incl d' d.
Proof.
  induction tgt as [|k tgt IH]; intros [|m src] d d' H; try discriminate.
  - injection H as <-. apply incl_refl.
  - cbn [expand_data] in H. destruct (m =? k)%nat.
    + destruct (mapM (expand_data tgt src) (split_rows m (numel src) d))
        as [rs|] eqn:Hrs; [|discriminate].
      injection H as <-. apply mapM_Forall2 in Hrs.
      intros v Hv. apply in_concat in Hv as (r' & Hr' & Hv).
      destruct (@Forall2_In_r _ _ _ _ _ _ Hrs Hr') as (r & Hr & Hrr').
      apply (@split_rows_incl _ _ _ _ Hr). exact (IH _ _ _ Hrr' v Hv).
    + destruct (m =? 1)%nat; [|discriminate].
      destruct (expand_data tgt src d) as [r|] eqn:Hr; [|discriminate].
      injection H as <-. intros v Hv.
      apply (IH _ _ _ Hr). exact (@concat_repeat_incl _ _ _ _ Hv).
Qed.

Lemma rcompat_pad (r1 r : list nat) :
  rcompat r1 r ->
  Forall2 (fun m k => m = k \/ m = 1%nat)
          (r1 ++ repeat 1%nat (List.length r - List.length r1)) r.
Proof.
  revert r. induction r1 as [|a r1 IH]; intros r H.
  - simpl. rewrite Nat.sub_0_r. clear H.
    induction r as [|k r IHr]; simpl; constructor; auto.
  - destruct r as [|k r]; [contradiction|]. destruct H as [Hak H].
    simpl. constructor; auto.
Qed.

Lemma rcompat_length (r1 r : list nat) : rcompat r1 r -> (List.length r1 <= List.length r)%nat.
Proof.
  revert r. induction r1 as [|a r1 IH]; intros [|k r] H; simpl in *; try lia.
  destruct H as [_ H]. apply IH in H. lia.
Qed.

Lemma rcompat_refl (r : list nat) : rcompat r r.
Proof. induction r; simpl; auto. Qed.

Lemma rcompat_trans (r1 r2 r3 : list nat) :
  rcompat r1 r2 -> rcompat r2 r3 -> rcompat r1 r3.
Proof.
  revert r2 r3. induction r1 as [|a r1 IH]; intros [|b r2] [|c r3] H12 H23;
    simpl in *; try tauto.
  destruct H12 as [Hab H12], H23 as [Hbc H23].
  split; [|exact (IH _ _ H12 H23)].
  destruct Hab as [->|Hab]; auto.
Qed.

Lemma rev_repeat {A : Type} (a : A) (n : nat) : rev (repeat a n) = repeat a n.
Proof.
  induction n as [|n IH]; [reflexivity|].
  simpl. rewrite IH. symmetry. apply repeat_cons.
Qed.

Lemma Forall2_rev_both {A C : Type} (R : A -> C -> Prop) (l1 : list A) (l2 : list C) :
  Forall2 R l1 l2 -> Forall2 R (rev l1) (rev l2).
Proof.
  induction 1 as [|a c l1 l2 Hac _ IH]; simpl; [constructor|].
  apply Forall2_app; [exact IH|]. constructor; [exact Hac|constructor].
Qed.

Lemma expand_ok (s : list nat) (x : tensor) :
  broadcastable_to (shape x) s -> wf x ->
  exists d, expand s x = Ok (mkTensor s d) /\ List.length d = numel s /\ incl d (data x).
Proof.
  intros Hc Hw. unfold broadcastable_to in Hc.
  pose proof (Forall2_rev_both (rcompat_pad _ _ Hc)) as HF.
  rewrite rev_app_distr, rev_repeat, !rev_involutive, !length_rev in HF.
  unfold expand.
  destruct (@expand_data_ok _ _ HF (data x)) as (d & Hd & Hlen).
  { unfold wf in Hw. rewrite Hw. unfold numel. rewrite fold_right_app.
    clear. induction (List.length s - List.length (shape x))%nat as [|n IH];
      simpl; [reflexivity|]. rewrite <- IH. lia. }
  rewrite Hd. cbn [rbind]. exists d. split; [reflexivity|]. split; [exact Hlen|].
  exact (expand_data_incl _ _ _ Hd).
Qed.

Lemma broadcast_rev_compat (r1 r2 r : list nat) :
  broadcast_rev r1 r2 = Ok r -> rcompat r1 r /\ rcompat r2 r.
Proof.
  revert r2 r. induction r1 as [|a r1 IH]; intros r2 r H.
  - simpl in H. injection H as <-. split; [exact I|apply rcompat_refl].
  - destruct r2 as [|b r2].
    + simpl in H. injection H as <-. split; [apply rcompat_refl|exact I].
    + cbn [broadcast_rev] in H.
      destruct (broadcast_rev r1 r2) as [r'|] eqn:Hr; [|discriminate].
      cbn [rbind] in H. destruct (IH _ _ Hr) as [H1 H2].
      destruct (Nat.eqb_spec a b) as [->|Hab].
      { injection H as <-. simpl. auto. }
      destruct (Nat.eqb_spec a 1) as [->|Ha1].
      { injection H as <-. simpl. auto. }
      destruct (Nat.eqb_spec b 1) as [->|Hb1]; [|discriminate].
      injection H as <-. simpl. auto.
Qed.

Lemma broadcast_shapes_compat (s1 s2 s : list nat) :
  broadcast_shapes s1 s2 = Ok s -> broadcastable_to s1 s /\ broadcastable_to s2 s.
Proof.
  unfold broadcast_shapes, broadcastable_to.
  destruct (broadcast_rev (rev s1) (rev s2)) as [r|] eqn:Hr; [|discriminate].
  intros [= <-]. rewrite rev_involutive. exact (broadcast_rev_compat _ _ Hr).
Qed.

Lemma broadcastable_to_trans (s1 s2 s3 : list nat) :
  broadcastable_to s1 s2 -> broadcastable_to s2 s3 -> broadcastable_to s1 s3.
Proof. apply rcompat_trans. Qed.

Lemma tzip_ok (f : Q -> Q -> Q) (x y : tensor) (s : list nat) :
  wf x -> wf y -> broadcast_shapes (shape x) (shape y) = Ok s ->
  exists z, tzip f x y = Ok z /\ shape z = s /\ wf z.
Proof.
  intros Hx Hy Hs. destruct (broadcast_shapes_compat _ _ Hs) as [H1 H2].
  destruct (@expand_ok _ _ H1 Hx) as (dx & Ex & Lx & _).
  destruct (@expand_ok _ _ H2 Hy) as (dy & Ey & Ly & _).
  unfold tzip. rewrite Hs. cbn [rbind]. rewrite Ex. cbn [rbind]. rewrite Ey.
  cbn [rbind data]. eexists. split; [reflexivity|]. split; [reflexivity|].
  unfold wf. cbn [data shape]. rewrite length_map, length_combine. lia.
Qed.

Lemma torch_where_ok (cond a b : tensor) (s0 s : list nat) :
  wf cond -> wf a -> wf b ->
  broadcast_shapes (shape a) (shape b) = Ok s0 ->
  broadcast_shapes (shape cond) s0 = Ok s ->
  exists r, torch_where cond a b = Ok r /\ shape r = s /\ wf r /\
            Forall (fun v => In v (data a) \/ In v (data b)) (data r).
Proof.
  intros Hc Ha Hb Hs0 Hs.
  destruct (broadcast_shapes_compat _ _ Hs0) as [H1 H2].
  destruct (broadcast_shapes_compat _ _ Hs) as [H3 H4].
  destruct (@expand_ok _ _ H3 Hc) as (dc & Ec & Lc & _).
  destruct (@expand_ok _ _ (@broadcastable_to_trans _ _ _ H1 H4) Ha) as (da & Ea & La & Ia).
  destruct (@expand_ok _ _ (@broadcastable_to_trans _ _ _ H2 H4) Hb) as (db & Eb & Lb & Ib).
  unfold torch_where. rewrite Hs0. cbn [rbind]. rewrite Hs. cbn [rbind].
  rewrite Ec. cbn [rbind]. rewrite Ea. cbn [rbind]. rewrite Eb. cbn [rbind data].
  eexists. split; [reflexivity|]. split; [reflexivity|]. split.
  - unfold wf. cbn [data shape]. rewrite length_map, !length_combine. lia.
  - cbn [data]. apply Forall_forall. intros v Hv.
    apply in_map_iff in Hv as ([c [va vb]] & <- & Hin).
    apply in_combine_r in Hin. pose proof (in_combine_l _ _ _ _ Hin) as Hva.
    apply in_combine_r in Hin. cbn [fst snd]. unfold select.
    destruct (to_bool c); [left; now apply Ia|right; now apply Ib].
Qed.

Lemma broadcast_shapes_last_one (batch : list nat) (k : nat) :
  broadcast_shapes (batch ++ [1%nat]) (batch ++ [k]) = Ok (batch ++ [k]).
Proof.
  pose proof (broadcast_shapes_same batch) as Hb. unfold broadcast_shapes in *.
  rewrite !rev_app_distr. cbn [rev app broadcast_rev].
  destruct (broadcast_rev (rev batch) (rev batch)) as [r|]; [|discriminate].
  cbn [rbind] in Hb |- *. injection Hb as Hb.
  destruct (Nat.eqb_spec 1 k) as [<-|Hk]; cbn [rbind Nat.eqb rev];
    rewrite Hb; reflexivity.
Qed.

Lemma broadcast_shapes_nil_l (s : list nat) : broadcast_shapes [] s = Ok s.
Proof. unfold broadcast_shapes. cbn. now rewrite rev_involutive. Qed.

Lemma broadcast_shapes_nil_r (s : list nat) : broadcast_shapes s [] = Ok s.
Proof. rewrite broadcast_shapes_sym. apply broadcast_shapes_nil_l. Qed.

(** ** The distributions of the model and of the guide *)

Lemma shape_eqb_refl (s : list nat) : shape_eqb s s = true.
Proof. unfold shape_eqb. destruct (list_eq_dec Nat.eq_dec s s); congruence. Qed.

Lemma unsqueeze_last_wf (x : tensor) : wf x -> wf (unsqueeze_last x).
Proof.
  unfold wf, unsqueeze_last. cbn [data shape]. intros ->.
  rewrite numel_app. simpl. lia.
Qed.

Lemma last_repeated (a h k : Z) :
  (0 < k)%Z -> last ([a] ++ repeated h k) 0%Z = h.
Proof.
  intros Hk. unfold repeated.
  destruct (Z.to_nat k) as [|n] eqn:E; [lia|].
  cbn [repeat]. rewrite repeat_cons, app_assoc. apply last_last.
Qed.

Lemma cat_last_shape (a b : tensor) (batch : list nat) (wa wb : nat) :
  shape a = batch ++ [wa] -> shape b = batch ++ [wb] -> wf a -> wf b ->
  exists c, cat_last a b = Ok c /\ shape c = batch ++ [(wa + wb)%nat] /\ wf c.
Proof.
  intros Ha Hb Hwa Hwb.
  destruct (@rows_widths a batch wa Ha Hwa) as [Hna Hra].
  destruct (@rows_widths b batch wb Hb Hwb) as [Hnb Hrb].
  unfold cat_last. rewrite (@size_last_app a batch wa Ha), (@size_last_app b batch wb Hb).
  cbn [rbind]. rewrite Ha, Hb, !removelast_app_one, shape_eqb_refl. cbn [rbind].
  eexists. split; [reflexivity|]. split; [reflexivity|].
  apply of_rows_wf.
  - rewrite length_map, length_combine. lia.
  - apply Forall_forall. intros r Hr.
    apply in_map_iff in Hr as ([ra rb] & <- & Hin).
    rewrite Forall_forall in Hra, Hrb. cbn [fst snd]. rewrite length_app.
    rewrite (Hra ra (in_combine_l _ _ _ _ Hin)), (Hrb rb (in_combine_r _ _ _ _ Hin)).
    reflexivity.
Qed.

Section Distributions.
Context {B : Backend}.
Variable params : store.

Lemma Guide_z_dist_ok (c : config) (n0 n1 : nat) (self : Guide)
      (batch : list nat) (y t x : tensor) :
  Guide_init c n0 = Ok (self, n1) ->
  (0 <= int_value (feature_dim c))%Z -> (0 <= int_value (hidden_dim c))%Z ->
  (0 <= int_value (latent_dim c))%Z ->
  shape x = batch ++ [Z.to_nat (int_value (feature_dim c))] -> wf x ->
  shape t = batch -> wf t -> shape y = batch -> wf y ->
  exists y_x loc0 scale0 loc1 scale1 loc scale,
    DiagNormalNet_forward params (g_z0_nn self) y_x = Ok (loc0, scale0) /\
    DiagNormalNet_forward params (g_z1_nn self) y_x = Ok (loc1, scale1) /\
    Guide_z_dist params self y t x = Ok (Normal loc scale 1) /\
    shape loc = batch ++ [Z.to_nat (int_value (latent_dim c))] /\
    shape scale = batch ++ [Z.to_nat (int_value (latent_dim c))] /\
    wf loc /\ wf scale /\
    Forall (fun v => In v (data loc1) \/ In v (data loc0)) (data loc) /\
    Forall (fun v => In v (data scale1) \/ In v (data scale0)) (data scale).
Proof.
  intros Hinit Hf Hh Hl Hx Hwx Ht Hwt Hy Hwy.
  destruct (Guide_init_parts _ _ Hinit)
    as (k1 & k2 & k3 & k4 & k5 & _ & _ & _ & _ & Hz0 & Hz1 & _).
  cbv zeta in Hz0, Hz1.
  set (sizes := [(1 + int_value (feature_dim c))%Z]
                ++ repeated (int_value (hidden_dim c)) (int_value (num_layers c))
                ++ [int_value (latent_dim c)]) in *.
  assert (Hpos : Forall (fun z => (0 <= z)%Z) sizes)
    by (apply Forall_sizes3; lia).
  assert (Hlast : last sizes 0%Z = int_value (latent_dim c)) by apply last_app3.
  destruct (@cat_last_shape (unsqueeze_last y) x batch 1
              (Z.to_nat (int_value (feature_dim c)))) as (y_x & Hc & Hs & Hw);
    auto using unsqueeze_last_wf.
  { unfold unsqueeze_last. cbn [shape]. now rewrite Hy. }
  assert (Hs' : shape y_x = batch ++ [Z.to_nat (hd 0%Z sizes)]).
  { rewrite Hs. do 2 f_equal. unfold sizes. cbn [hd app]. lia. }
  destruct (@DiagNormalNet_forward_total B params sizes k4 k5 _ batch y_x Hz0 Hpos Hs')
    as (loc0 & scale0 & H0 & Hl0 & Hs0 & Hwl0 & Hws0).
  destruct (@DiagNormalNet_forward_total B params sizes k5 n1 _ batch y_x Hz1 Hpos Hs')
    as (loc1 & scale1 & H1 & Hl1 & Hs1 & Hwl1 & Hws1).
  rewrite Hlast in *.
  set (s := batch ++ [Z.to_nat (int_value (latent_dim c))]) in *.
  assert (Hut : shape (unsqueeze_last t) = batch ++ [1%nat])
    by (unfold unsqueeze_last; cbn [shape]; now rewrite Ht).
  destruct (@torch_where_ok (unsqueeze_last t) loc1 loc0 s s)
    as (loc & Hloc & Hsl & Hwl & Hinl); auto using unsqueeze_last_wf.
  { rewrite Hl1, Hl0. apply broadcast_shapes_same. }
  { rewrite Hut. apply broadcast_shapes_last_one. }
  destruct (@torch_where_ok (unsqueeze_last t) scale1 scale0 s s)
    as (scale & Hscale & Hss & Hws & Hins); auto using unsqueeze_last_wf.
  { rewrite Hs1, Hs0. apply broadcast_shapes_same. }
  { rewrite Hut. apply broadcast_shapes_last_one. }
  exists y_x, loc0, scale0, loc1, scale1, loc, scale.
  split; [exact H0|]. split; [exact H1|]. split.
  { unfold Guide_z_dist.
    rewrite Hc. cbn [rbind]. rewrite H0. cbn [rbind]. rewrite H1. cbn [rbind].
    rewrite Hloc. cbn [rbind]. rewrite Hscale. reflexivity. }
  repeat split; assumption.
Qed.

(** [Guide.z_dist]: for a guide built by [Guide.__init__], covariates with
    one row of width [feature_dim] per unit and a treatment and an outcome
    with one entry per unit, the distribution of [z] is a diagonal normal
    with one location and one scale of width [latent_dim] per unit: one
    event of that width per unit. *)
Theorem Guide_z_dist_total (c : config) (n0 n1 : nat) (self : Guide)
        (batch : list nat) (y t x : tensor) :
  Guide_init c n0 = Ok (self, n1) ->
  (0 <= int_value (feature_dim c))%Z -> (0 <= int_value (hidden_dim c))%Z ->
  (0 <= int_value (latent_dim c))%Z ->
  shape x = batch ++ [Z.to_nat (int_value (feature_dim c))] -> wf x ->
  shape t = batch -> wf t -> shape y = batch -> wf y ->
  exists loc scale,
    Guide_z_dist params self y t x = Ok (Normal loc scale 1) /\
    shape loc = batch ++ [Z.to_nat (int_value (latent_dim c))] /\
    shape scale = shape loc /\ wf loc /\ wf scale /\
    batch_shape (Normal loc scale 1) = batch /\
    event_shape (Normal loc scale 1) = [Z.to_nat (int_value (latent_dim c))].
Proof.
  intros Hinit Hf Hh Hl Hx Hwx Ht Hwt Hy Hwy.
  destruct (@Guide_z_dist_ok c n0 n1 self batch y t x Hinit Hf Hh Hl Hx Hwx Ht Hwt Hy Hwy)
    as (y_x & loc0 & scale0 & loc1 & scale1 & loc & scale
        & H0 & H1 & Hz & Hsl & Hss & Hwl & Hws & _ & _).
  exists loc, scale. split; [exact Hz|]. split; [exact Hsl|].
  split; [congruence|]. split; [exact Hwl|]. split; [exact Hws|].
  cbn [batch_shape event_shape]. rewrite Hsl, length_app. cbn [List.length].
  replace (List.length batch + 1 - 1)%nat with (List.length batch + 0)%nat by lia.
  rewrite firstn_app_2, skipn_app, Nat.add_0_r, skipn_all.
  replace (List.length batch - List.length batch)%nat with 0%nat by lia.
  cbn [firstn skipn app]. rewrite app_nil_r. split; reflexivity.
Qed.

Lemma Guide_y_dist_ok (c : config) (n0 n1 : nat) (self : Guide)
      (batch : list nat) (t x : tensor) :
  Guide_init c n0 = Ok (self, n1) ->
  (0 <= int_value (feature_dim c))%Z -> (0 <= int_value (hidden_dim c))%Z ->
  shape x = batch ++ [Z.to_nat (int_value (feature_dim c))] ->
  shape t = batch -> wf t ->
  exists hidden logits0 logits1,
    FullyConnected_forward params (g_y_nn self) x = Ok hidden /\
    shape hidden = batch ++ [Z.to_nat (int_value (hidden_dim c))] /\
    BernoulliNet_forward params (g_y0_nn self) hidden = Ok logits0 /\
    BernoulliNet_forward params (g_y1_nn self) hidden = Ok logits1 /\
    shape logits0 = batch /\ shape logits1 = batch /\ wf logits0 /\ wf logits1 /\
    Guide_y_dist params self t x
    = Ok (Bernoulli
            (mkTensor batch
               (map (fun p => select (to_bool (fst p)) (fst (snd p)) (snd (snd p)))
                    (combine (data t) (combine (data logits1) (data logits0)))))).
Proof.
  intros Hinit Hf Hh Hx Ht Hwt.
  destruct (Guide_init_params _ _ Hinit) as (Hk & _ & _).
  destruct (Guide_init_parts _ _ Hinit)
    as (k1 & k2 & k3 & k4 & k5 & _ & Hy & Hy0 & Hy1 & _).
  cbv zeta in Hy, Hy0, Hy1.
  set (sizes := [int_value (feature_dim c)]
                ++ repeated (int_value (hidden_dim c)) (int_value (num_layers c))) in *.
  assert (Hpos : Forall (fun z => (0 <= z)%Z) sizes) by (apply Forall_sizes2; lia).
  destruct (@FullyConnected_forward_total B params sizes k1 k2 _ batch x Hy Hpos Hx)
    as (hidden & Hhid & Hsh & Hwh).
  unfold sizes in Hsh. rewrite (last_repeated _ _ Hk) in Hsh.
  assert (Hpos1 : Forall (fun z => (0 <= z)%Z) [int_value (hidden_dim c)])
    by (constructor; [lia|constructor]).
  destruct (@BernoulliNet_forward_total B params _ k2 k3 _ batch hidden Hy0
              ltac:(discriminate) Hpos1 Hsh) as (logits0 & Hl0 & Hs0 & Hw0).
  destruct (@BernoulliNet_forward_total B params _ k3 k4 _ batch hidden Hy1
              ltac:(discriminate) Hpos1 Hsh) as (logits1 & Hl1 & Hs1 & Hw1).
  exists hidden, logits0, logits1.
  split; [exact Hhid|]. split; [exact Hsh|]. split; [exact Hl0|]. split; [exact Hl1|].
  do 4 (split; [assumption|]).
  unfold Guide_y_dist. rewrite Hhid. cbn [rbind]. rewrite Hl0, Hl1. cbn [rbind].
  rewrite torch_where_same_shape; try assumption; try congruence.
  cbn [rbind]. now rewrite Hs1.
Qed.


Lemma Model_dists_ok (c : config) (n0 n1 : nat) (self : Model)
      (batch : list nat) (z : tensor) :
  Model_init c n0 = Ok (self, n1) ->
  (0 <= int_value (feature_dim c))%Z -> (0 <= int_value (hidden_dim c))%Z ->
  (0 <= int_value (latent_dim c))%Z ->
  shape z = batch ++ [Z.to_nat (int_value (latent_dim c))] ->
  exists loc scale logits,
    DiagNormalNet_forward params (m_x_nn self) z = Ok (loc, scale) /\
    Model_x_dist params self z = Ok (Normal loc scale 1) /\
    shape loc = batch ++ [Z.to_nat (int_value (feature_dim c))] /\
    shape scale = batch ++ [Z.to_nat (int_value (feature_dim c))] /\
    wf loc /\ wf scale /\
    Model_t_dist params self z = Ok (Bernoulli logits) /\
    shape logits = batch /\ wf logits.
Proof.
  intros Hinit Hf Hh Hl Hz.
  destruct (Model_init_parts _ _ Hinit) as (k1 & k2 & k3 & Hx & _ & _ & Ht & _).
  cbv zeta in Hx, Ht.
  destruct (@DiagNormalNet_forward_total B params _ n0 k1 _ batch z Hx)
    as (loc & scale & Hd & Hsl & Hss & Hwl & Hws).
  { apply Forall_sizes3; lia. }
  { exact Hz. }
  rewrite last_app3 in Hsl, Hss.
  destruct (@BernoulliNet_forward_total B params _ k3 n1 _ batch z Ht)
    as (logits & Hlg & Hsg & Hwg).
  { discriminate. }
  { constructor; [lia|constructor]. }
  { exact Hz. }
  exists loc, scale, logits.
  unfold Model_x_dist, Model_t_dist. rewrite Hd, Hlg. cbn [rbind].
  repeat split; assumption.
Qed.

(** The distributions of the model: for a model built by
    [Model.__init__] and a latent tensor with one row of width
    [latent_dim] per unit, the prior of [z] has one event of width
    [latent_dim], [x_dist] has one event of width [feature_dim] per
    unit, and [t_dist] has one logit per unit. *)
Theorem Model_dists_shapes (c : config) (n0 n1 : nat) (self : Model)
        (batch : list nat) (z : tensor) :
  Model_init c n0 = Ok (self, n1) ->
  (0 <= int_value (feature_dim c))%Z -> (0 <= int_value (hidden_dim c))%Z ->
  (0 <= int_value (latent_dim c))%Z ->
  shape z = batch ++ [Z.to_nat (int_value (latent_dim c))] ->
  batch_shape (Model_z_dist self) = [] /\
  event_shape (Model_z_dist self) = [Z.to_nat (int_value (latent_dim c))] /\
  exists loc scale logits,
    Model_x_dist params self z = Ok (Normal loc scale 1) /\
    batch_shape (Normal loc scale 1) = batch /\
    event_shape (Normal loc scale 1) = [Z.to_nat (int_value (feature_dim c))] /\
    shape scale = shape loc /\ wf loc /\ wf scale /\
    Model_t_dist params self z = Ok (Bernoulli logits) /\
    batch_shape (Bernoulli logits) = batch /\ wf logits.
Proof.
  intros Hinit Hf Hh Hl Hz.
  destruct (Model_init_parts _ _ Hinit) as (_ & _ & _ & _ & _ & _ & _ & Hlat & _).
  cbv zeta in Hlat.
  split; [unfold Model_z_dist; now rewrite Hlat|].
  split; [unfold Model_z_dist; now rewrite Hlat|].
  destruct (@Model_dists_ok c n0 n1 self batch z Hinit Hf Hh Hl Hz)
    as (loc & scale & logits & Hd & Hxd & Hsl & Hss & Hwl & Hws & Htd & Hsg & Hwg).
  exists loc, scale, logits.
  split; [exact Hxd|]. cbn [batch_shape event_shape]. rewrite Hsl, length_app.
  cbn [List.length].
  replace (List.length batch + 1 - 1)%nat with (List.length batch + 0)%nat by lia.
  rewrite firstn_app_2, skipn_app, Nat.add_0_r, skipn_all.
  replace (List.length batch - List.length batch)%nat with 0%nat by lia.
  cbn [firstn skipn app]. rewrite app_nil_r.
  split; [reflexivity|]. split; [reflexivity|]. split; [congruence|].
  split; [exact Hwl|]. split; [exact Hws|].
  split; [exact Htd|]. split; [exact Hsg|exact Hwg].
Qed.

End Distributions.

(** ** The objective on an arbitrary guide trace *)

Lemma lookup_NoDup {A : Type} (l : list (string * A)) (k : string) (v : A) :
  NoDup (map fst l) -> In (k, v) l -> lookup k l = Some v.
Proof.
  induction l as [|[k' v'] l IH]; simpl; [contradiction|].
  intros Hnd [Heq|Hin].
  - injection Heq as -> ->. now rewrite String.eqb_refl.
  - apply NoDup_cons_iff in Hnd as [Hni Hnd].
    destruct (String.eqb_spec k' k) as [->|Hne].
    + exfalso. apply Hni. change k with (fst (k, v)). now apply in_map.
    + now apply IH.
Qed.

Lemma lookup_some_in {A : Type} (l : list (string * A)) (k : string) :
  In k (map fst l) -> exists v, lookup k l = Some v.
Proof.
  induction l as [|[k' v'] l IH]; simpl; [contradiction|].
  intros [->|Hin].
  - rewrite String.eqb_refl. eauto.
  - destruct (String.eqb k' k); eauto.
Qed.

Lemma filter_filter {A : Type} (f g : A -> bool) (l : list A) :
  filter f (filter g l) = filter (fun x => g x && f x) l.
Proof.
  induction l as [|a l IH]; simpl; [reflexivity|].
  destruct (g a); simpl; [destruct (f a)|]; now rewrite IH.
Qed.

Lemma del_nodes_filter (names : list string) :
  forall tr : trace,
    NoDup names -> incl names (map fst tr) ->
    del_nodes names tr = Ok (filter (fun p => negb (mem (fst p) names)) tr).
Proof.
  induction names as [|name rest IH]; intros tr Hnd Hincl.
  - simpl. f_equal. symmetry. apply forallb_filter_id.
    apply forallb_forall. reflexivity.
  - apply NoDup_cons_iff in Hnd as [Hni Hnd].
    cbn [del_nodes]. unfold del_node.
    destruct (@lookup_some_in _ tr name) as (s & ->); [apply Hincl; now left|].
    cbn [rbind]. rewrite IH; [|exact Hnd|].
    + f_equal. rewrite filter_filter. apply filter_ext. intros p.
      unfold mem. cbn [existsb]. now rewrite negb_orb.
    + intros k Hk. pose proof (Hincl k (or_intror Hk)) as Hin.
      apply in_map_iff in Hin as (p & <- & Hp). apply in_map.
      apply filter_In. split; [exact Hp|].
      destruct (String.eqb_spec (fst p) name) as [E|]; [|reflexivity].
      rewrite E in Hk. contradiction.
Qed.

Lemma NoDup_map_filter {A C : Type} (f : A -> C) (g : A -> bool) (l : list A) :
  NoDup (map f l) -> NoDup (map f (filter g l)).
Proof.
  induction l as [|a l IH]; simpl; [auto|].
  intros Hnd. apply NoDup_cons_iff in Hnd as [Hni Hnd].
  destruct (g a); [|auto]. simpl. constructor; [|auto].
  intros Hin. apply Hni. apply in_map_iff in Hin as (b & Hb & Hin).
  apply filter_In in Hin as [Hin _]. rewrite <- Hb. now apply in_map.
Qed.

Lemma mem_blocked_names (tr : trace) (p : string * site) :
  NoDup (map fst tr) -> In p tr ->
  mem (fst p) (blocked_names tr) = is_blocked p.
Proof.
  intros Hnd Hp. unfold mem, blocked_names.
  destruct (is_blocked p) eqn:Hb.
  - apply existsb_exists. exists (fst p). split; [|apply String.eqb_refl].
    apply in_map. apply filter_In. auto.
  - destruct (existsb _ _) eqn:He; [|reflexivity].
    apply existsb_exists in He as (k & Hk & Hkp).
    apply String.eqb_eq in Hkp. subst k.
    apply in_map_iff in Hk as ([k s] & Hk & Hq). cbn [fst] in Hk.
    apply filter_In in Hq as [Hq Hqb].
    destruct p as [k' s']. cbn [fst] in Hk. subst k'.
    pose proof (lookup_NoDup _ _ _ Hnd Hq) as L1.
    pose proof (lookup_NoDup _ _ _ Hnd Hp) as L2.
    rewrite L1 in L2. injection L2 as ->.
    unfold is_blocked in Hb. cbn [snd] in Hb, Hqb. congruence.
Qed.

Lemma blocked_trace (guide_trace : trace) :
  NoDup (map fst guide_trace) ->
  del_nodes (blocked_names guide_trace) guide_trace
  = Ok (filter (fun p => negb (is_blocked p)) guide_trace).
Proof.
  intros Hnd. rewrite del_nodes_filter.
  - f_equal. apply filter_ext_in. intros p Hp.
    now rewrite (mem_blocked_names _ _ Hnd Hp).
  - unfold blocked_names. now apply NoDup_map_filter.
  - unfold blocked_names. intros k Hk.
    apply in_map_iff in Hk as (p & <- & Hp). apply filter_In in Hp as [Hp _].
    now apply in_map.
Qed.

(** The reduced guide trace: on a trace that names every site once, the
    deletions never raise [KeyError], and what is left are exactly the
    sites that are not observed sample sites, in their order. *)
Theorem blocked_guide_trace_is_filter (guide_trace : trace) :
  NoDup (map fst guide_trace) ->
  del_nodes (blocked_names guide_trace) guide_trace
  = Ok (filter (fun p => negb (is_blocked p)) guide_trace) /\
  blocked_names (filter (fun p => negb (is_blocked p)) guide_trace) = [].
Proof.
  intros Hnd. split; [now apply blocked_trace|].
  unfold blocked_names. rewrite filter_filter.
  replace (filter _ guide_trace) with (@nil (string * site)); [reflexivity|].
  symmetry. induction guide_trace as [|p l IH]; [reflexivity|].
  apply NoDup_cons_iff in Hnd as [_ Hnd]. simpl. unfold is_blocked at 1.
  destruct (is_sample (snd p) && is_observed (snd p)); simpl; auto.
Qed.

Lemma add_log_q_sum (guide_trace : trace) (ps : list (string * site)) :
  (forall p, In p ps -> lookup (fst p) guide_trace = Some (snd p)) ->
  forall (loss0 : Q) (s0 : tensor) (loss : Q) (surrogate : tensor),
    add_log_q guide_trace (map fst ps) loss0 s0 = Ok (loss, surrogate) ->
    exists lps qs,
      Forall2 (fun p lp => log_prob_sum (snd p) = Some lp) ps lps /\
      Forall2 (fun lp q => torch_item lp = Ok q) lps qs /\
      loss = fold_left Qminus qs loss0 /\
      tsub_all s0 lps = Ok surrogate.
Proof.
  induction ps as [|p ps IH]; intros Hl loss0 s0 loss surrogate H.
  - simpl in H. injection H as <- <-. exists [], []. repeat split; constructor.
  - cbn [map add_log_q] in H. unfold getitem in H.
    rewrite (Hl p (or_introl eq_refl)) in H. cbn [rbind] in H.
    unfold get_log_prob_sum in H.
    destruct (log_prob_sum (snd p)) as [lp|] eqn:Hlp; [|discriminate].
    cbn [rbind] in H.
    destruct (torch_item lp) as [q|] eqn:Hq; [|discriminate]. cbn [rbind] in H.
    destruct (tsub s0 lp) as [s1|] eqn:Hs1; [|discriminate]. cbn [rbind] in H.
    destruct (IH (fun p' Hp' => Hl p' (or_intror Hp')) _ _ _ _ H)
      as (lps & qs & HF1 & HF2 & -> & Hsur).
    exists (lp :: lps), (q :: qs).
    split; [now constructor|]. split; [now constructor|].
    split; [reflexivity|]. cbn [tsub_all]. now rewrite Hs1.
Qed.

Section GeneralObjective.
Variable super_loss_particle : trace -> trace -> result (Q * tensor).

(** The two losses on an arbitrary guide trace: whenever the objective
    returns, the parent class was run on the model trace and the reduced
    guide trace, and the log-density of every observed sample site of the
    guide, in the order of the trace, was subtracted from the parent's
    reporting loss as a float and from its surrogate loss as a tensor. *)
Theorem loss_subtracts_every_observed_site
        (model_trace guide_trace : trace) (loss : Q) (surrogate : tensor) :
  NoDup (map fst guide_trace) ->
  differentiable_loss_particle super_loss_particle model_trace guide_trace
  = Ok (loss, surrogate) ->
  exists elbo s0 lps qs,
    super_loss_particle model_trace (filter (fun p => negb (is_blocked p)) guide_trace)
    = Ok (elbo, s0) /\
    Forall2 (fun p lp => log_prob_sum (snd p) = Some lp)
            (filter is_blocked guide_trace) lps /\
    Forall2 (fun lp q => torch_item lp = Ok q) lps qs /\
    loss = fold_left Qminus qs elbo /\
    tsub_all s0 lps = Ok surrogate.
Proof.
  intros Hnd. unfold differentiable_loss_particle.
  rewrite (@blocked_trace guide_trace Hnd). cbn [rbind].
  destruct (super_loss_particle model_trace _) as [[elbo s0]|]; [|discriminate].
  cbn [rbind]. intros H.
  assert (Hl : forall p, In p (filter is_blocked guide_trace) ->
                         lookup (fst p) guide_trace = Some (snd p)).
  { intros [k s] Hp. apply filter_In in Hp as [Hp _]. now apply lookup_NoDup. }
  destruct (@add_log_q_sum guide_trace _ Hl elbo s0 loss surrogate H)
    as (lps & qs & HF1 & HF2 & Hq & Hs).
  exists elbo, s0, lps, qs. auto.
Qed.

(** Without an observed sample site in the guide trace, the objective is
    the parent's. *)
Theorem objective_without_observed_sites (model_trace guide_trace : trace) :
  Forall (fun p => is_blocked p = false) guide_trace ->
  differentiable_loss_particle super_loss_particle model_trace guide_trace
  = super_loss_particle model_trace guide_trace.
Proof.
  intros Hall. unfold differentiable_loss_particle.
  assert (Hb : blocked_names guide_trace = []).
  { unfold blocked_names. replace (filter _ guide_trace) with (@nil (string * site));
      [reflexivity|].
    symmetry. induction Hall as [|p l Hp _ IH]; [reflexivity|].
    simpl. unfold is_blocked in Hp. now rewrite Hp. }
  rewrite Hb. cbn [del_nodes rbind add_log_q].
  now destruct (super_loss_particle model_trace guide_trace) as [[l s]|].
Qed.

End GeneralObjective.

(** ** The sites of the model and of the guide *)

Section Sites.
Context {B : Backend}.
Variable params : store.

Lemma pyro_sample_site (hs : stack) (name : string) (fn : distribution)
      (obs : option tensor) (aux : bool) (st st' : state) (v : tensor) :
  records hs name = true ->
  pyro_sample hs name fn obs aux st = Ok (v, st') ->
  exists s,
    recorded st' = recorded st ++ [(name, s)] /\
    site_kind s = SampleSite /\ site_fn s = fn /\ site_value s = v /\
    is_auxiliary s = aux /\
    (intervened hs name = None -> forall o, obs = Some o -> v = o /\ is_observed s = true).
Proof.
  unfold records, intervened, pyro_sample. set (h := handlers_of (reached name hs)).
  intros Hr H. rewrite Hr in H.
  destruct (site_value_of h name fn obs (gen st)) as [[[v0 o] g']|] eqn:Hv;
    [|discriminate].
  cbn [rbind] in H. unfold add_node in H.
  destruct (lookup name (recorded st)); [discriminate|]. cbn [rbind] in H.
  injection H as <- <-. cbn [recorded].
  eexists. split; [reflexivity|]. cbn.
  do 4 (split; [reflexivity|]).
  intros Hdo ob ->. unfold site_value_of in Hv. rewrite Hdo in Hv.
  injection Hv as <- <- _. auto.
Qed.

(** [Model.forward] samples [z], [x], [t] and [y] in this order, each
    from the distribution that the model computes from the values of the
    sites before it: [x] and [t] from [z], and [y] from [t] and [z].  The
    site [x] holds the covariates and is observed, the value of [y] is
    returned, and no site is auxiliary. *)
Theorem Model_forward_sites (hs : stack) (self : Model)
        (x : tensor) (t y : option tensor) (size : option nat)
        (st st' : state) (v : tensor) :
  Forall (fun name => records hs name = true) ["z"; "x"; "t"; "y"] ->
  intervened hs "x" = None ->
  Model_forward params hs self x t y size st = Ok (v, st') ->
  exists sz sx s_t sy,
    recorded st' = recorded st ++ [("z", sz); ("x", sx); ("t", s_t); ("y", sy)] /\
    site_fn sz = Model_z_dist self /\
    Model_x_dist params self (site_value sz) = Ok (site_fn sx) /\
    Model_t_dist params self (site_value sz) = Ok (site_fn s_t) /\
    Model_y_dist params self (site_value s_t) (site_value sz) = Ok (site_fn sy) /\
    site_value sx = x /\ is_observed sx = true /\
    site_value sy = v /\
    Forall (fun s => site_kind s = SampleSite /\ is_auxiliary s = false) [sz; sx; s_t; sy].
Proof.
  intros Hrec Hdo H.
  apply Forall_cons_iff in Hrec as [Rz Hrec]. apply Forall_cons_iff in Hrec as [Rx Hrec].
  apply Forall_cons_iff in Hrec as [Rt Hrec]. apply Forall_cons_iff in Hrec as [Ry _].
  unfold Model_forward in H.
  apply mbind_ok in H as (size' & s1 & H1 & H). apply lift_ok in H1 as [_ ->].
  apply mbind_ok in H as (n & s1 & H1 & H). apply lift_ok in H1 as [_ ->].
  apply mbind_ok in H as (hp & s1 & H1 & H). apply lift_ok in H1 as [Hp ->].
  destruct (@plate_keeps _ _ _ _ _ "z" Hp) as (_ & Kz & _).
  destruct (@plate_keeps _ _ _ _ _ "x" Hp) as (Ix & Kx & _).
  destruct (@plate_keeps _ _ _ _ _ "t" Hp) as (_ & Kt & _).
  destruct (@plate_keeps _ _ _ _ _ "y" Hp) as (_ & Ky & _).
  rewrite <- Kz in Rz. rewrite <- Kx in Rx. rewrite <- Kt in Rt. rewrite <- Ky in Ry.
  rewrite <- Ix in Hdo.
  apply mbind_ok in H as (z & s1 & Hz & H).
  apply mbind_ok in H as (xd & s2 & H2 & H). apply lift_ok in H2 as [Hxd ->].
  apply mbind_ok in H as (x' & s3 & Hx & H).
  apply mbind_ok in H as (td & s4 & H4 & H). apply lift_ok in H4 as [Htd ->].
  apply mbind_ok in H as (t' & s5 & Ht & H).
  apply mbind_ok in H as (yd & s6 & H6 & H). apply lift_ok in H6 as [Hyd ->].
  apply mbind_ok in H as (y' & s7 & Hy & H).
  unfold mret in H. injection H as <- <-.
  apply (@pyro_sample_site _ _ _ _ _ _ _ _ Rz) in Hz as (sz & Ez & Kz' & Fz & Vz & Az & _).
  apply (@pyro_sample_site _ _ _ _ _ _ _ _ Rx) in Hx as (sx & Ex & Kx' & Fx & Vx & Ax & Ox).
  apply (@pyro_sample_site _ _ _ _ _ _ _ _ Rt) in Ht as (s_t & Et & Kt' & Ft & Vt & At & _).
  apply (@pyro_sample_site _ _ _ _ _ _ _ _ Ry) in Hy as (sy & Ey & Ky' & Fy & Vy & Ay & _).
  destruct (Ox Hdo x eq_refl) as [-> Obx].
  exists sz, sx, s_t, sy.
  split; [rewrite Ey, Et, Ex, Ez, <- !app_assoc; reflexivity|].
  rewrite Fz, Vz, Fx, Ft, Vt, Fy.
  repeat split; auto.
  repeat constructor; auto.
Qed.

(** [Guide.forward] samples [t], [y] and [z] in this order: [t] from the
    covariates, [y] from [t] and the covariates, and [z] from [y], [t]
    and the covariates.  The sites [t] and [y] are auxiliary and [z] is
    not; a treatment or an outcome that is given is the value of its
    site, which is then observed. *)
Theorem Guide_forward_sites (hs : stack) (self : Guide)
        (x : tensor) (t y : option tensor) (size : option nat)
        (st st' : state) (u : unit) :
  Forall (fun name => records hs name = true) ["t"; "y"; "z"] ->
  Guide_forward params hs self x t y size st = Ok (u, st') ->
  exists s_t sy sz,
    recorded st' = recorded st ++ [("t", s_t); ("y", sy); ("z", sz)] /\
    Guide_t_dist params self x = Ok (site_fn s_t) /\
    Guide_y_dist params self (site_value s_t) x = Ok (site_fn sy) /\
    Guide_z_dist params self (site_value sy) (site_value s_t) x = Ok (site_fn sz) /\
    is_auxiliary s_t = true /\ is_auxiliary sy = true /\ is_auxiliary sz = false /\
    Forall (fun s => site_kind s = SampleSite) [s_t; sy; sz] /\
    (intervened hs "t" = None ->
     forall o, t = Some o -> site_value s_t = o /\ is_observed s_t = true) /\
    (intervened hs "y" = None ->
     forall o, y = Some o -> site_value sy = o /\ is_observed sy = true).
Proof.
  intros Hrec H.
  apply Forall_cons_iff in Hrec as [Rt Hrec]. apply Forall_cons_iff in Hrec as [Ry Hrec].
  apply Forall_cons_iff in Hrec as [Rz _].
  unfold Guide_forward in H.
  apply mbind_ok in H as (size' & s1 & H1 & H). apply lift_ok in H1 as [_ ->].
  apply mbind_ok in H as (n & s1 & H1 & H). apply lift_ok in H1 as [_ ->].
  apply mbind_ok in H as (hp & s1 & H1 & H). apply lift_ok in H1 as [Hp ->].
  destruct (@plate_keeps _ _ _ _ _ "z" Hp) as (_ & Kz & _).
  destruct (@plate_keeps _ _ _ _ _ "t" Hp) as (It & Kt & _).
  destruct (@plate_keeps _ _ _ _ _ "y" Hp) as (Iy & Ky & _).
  rewrite <- Kz in Rz. rewrite <- Kt in Rt. rewrite <- Ky in Ry.
  rewrite <- It, <- Iy.
  apply mbind_ok in H as (td & s2 & H2 & H). apply lift_ok in H2 as [Htd ->].
  apply mbind_ok in H as (t' & s3 & Ht & H).
  apply mbind_ok in H as (yd & s4 & H4 & H). apply lift_ok in H4 as [Hyd ->].
  apply mbind_ok in H as (y' & s5 & Hy & H).
  apply mbind_ok in H as (zd & s6 & H6 & H). apply lift_ok in H6 as [Hzd ->].
  apply mbind_ok in H as (z' & s7 & Hz & H).
  unfold mret in H. injection H as _ <-.
  apply (@pyro_sample_site _ _ _ _ _ _ _ _ Rt) in Ht as (s_t & Et & Kt' & Ft & Vt & At & Ot).
  apply (@pyro_sample_site _ _ _ _ _ _ _ _ Ry) in Hy as (sy & Ey & Ky' & Fy & Vy & Ay & Oy).
  apply (@pyro_sample_site _ _ _ _ _ _ _ _ Rz) in Hz as (sz & Ez & Kz' & Fz & Vz & Az & _).
  exists s_t, sy, sz.
  split; [rewrite Ez, Ey, Et, <- !app_assoc; reflexivity|].
  rewrite Ft, Vt, Fy, Vy, Fz.
  split; [exact Htd|]. split; [exact Hyd|]. split; [exact Hzd|].
  split; [exact At|]. split; [exact Ay|]. split; [exact Az|].
  split; [repeat constructor; assumption|].
  split.
  - intros Hdo o Ho. exact (Ot Hdo o Ho).
  - intros Hdo o Ho. exact (Oy Hdo o Ho).
Qed.

End Sites.

(** ** The effect estimate *)

Lemma concat_repeat_repeat {A : Type} (a : A) (m k : nat) :
  List.concat (repeat (repeat a m) k) = repeat a (k * m).
Proof.
  induction k as [|k IH]; simpl; [reflexivity|]. now rewrite IH, repeat_app.
Qed.

Lemma numel_repeat_one (m : nat) : numel (repeat 1%nat m) = 1%nat.
Proof. unfold numel. induction m as [|m IH]; simpl; lia. Qed.

(** A 0-dimensional tensor expands to a constant tensor. *)
Lemma expand_data_scalar (v : Q) (tgt : list nat) :
  expand_data tgt (repeat 1%nat (List.length tgt)) [v] = Ok (repeat v (numel tgt)).
Proof.
  induction tgt as [|k tgt IH]; [reflexivity|].
  cbn [List.length repeat expand_data].
  change (numel (k :: tgt)) with (k * numel tgt)%nat.
  destruct (Nat.eqb_spec 1 k) as [<-|Hk].
  - rewrite numel_repeat_one. cbn [split_rows firstn mapM]. rewrite IH. cbn [rbind].
    cbn [List.concat]. rewrite app_nil_r. f_equal. f_equal. lia.
  - cbn [Nat.eqb]. rewrite IH. cbn [rbind]. now rewrite concat_repeat_repeat.
Qed.

Lemma expand_scalar (v : Q) (s : list nat) :
  expand s (scalar v) = Ok (full s v).
Proof.
  unfold expand, scalar, full. cbn [shape data List.length].
  rewrite Nat.sub_0_r, app_nil_r, expand_data_scalar. reflexivity.
Qed.

Lemma select_const (c : bool) (N : nat) (v : Q) (xs ys : list Q) :
  to_bool v = c -> List.length xs = N -> List.length ys = N ->
  map (fun p => select (to_bool (fst p)) (fst (snd p)) (snd (snd p)))
      (combine (repeat v N) (combine xs ys))
  = if c then xs else ys.
Proof.
  intros Hc. revert xs ys. induction N as [|N IH]; intros xs ys Hx Hy.
  - destruct xs, ys; try discriminate. now destruct c.
  - destruct xs as [|a xs], ys as [|b ys]; try discriminate.
    cbn [repeat combine map fst snd]. rewrite Hc.
    injection Hx as Hx. injection Hy as Hy. rewrite (IH _ _ Hx Hy).
    now destruct c.
Qed.

Lemma torch_where_scalar (v : Q) (a b : tensor) :
  wf a -> wf b -> shape b = shape a ->
  torch_where (scalar v) a b = Ok (if to_bool v then a else b).
Proof.
  intros Ha Hb Hs. unfold torch_where.
  rewrite Hs, broadcast_shapes_same. cbn [rbind].
  change (shape (scalar v)) with (@nil nat). rewrite broadcast_shapes_nil_l.
  cbn [rbind]. rewrite expand_scalar. cbn [rbind].
  rewrite (expand_same Ha). cbn [rbind].
  rewrite <- Hs. rewrite (expand_same Hb). cbn [rbind].
  unfold full. cbn [data].
  rewrite (@select_const (to_bool v) (numel (shape b)) v (data a) (data b) eq_refl).
  - destruct (to_bool v); [rewrite Hs; now destruct a|now destruct b].
  - unfold wf in Ha. now rewrite Ha, Hs.
  - exact Hb.
Qed.

Section Intervention.
Context {B : Backend}.
Variable params : store.

Lemma Model_y_dist_do (c : config) (n0 n1 : nat) (self : Model)
      (batch : list nat) (v : Q) (z : tensor) :
  Model_init c n0 = Ok (self, n1) ->
  (0 <= int_value (latent_dim c))%Z -> (0 <= int_value (hidden_dim c))%Z ->
  shape z = batch ++ [Z.to_nat (int_value (latent_dim c))] ->
  exists logits0 logits1,
    BernoulliNet_forward params (m_y0_nn self) z = Ok logits0 /\
    BernoulliNet_forward params (m_y1_nn self) z = Ok logits1 /\
    shape logits0 = batch /\ shape logits1 = batch /\ wf logits0 /\ wf logits1 /\
    Model_y_dist params self (scalar v) z
    = Ok (Bernoulli (if to_bool v then logits1 else logits0)).
Proof.
  intros Hinit Hl Hh Hz.
  destruct (Model_init_parts _ _ Hinit) as (k1 & k2 & k3 & _ & H0 & H1 & _).
  cbv zeta in H0, H1.
  assert (Hpos : Forall (fun z => (0 <= z)%Z)
                   ([int_value (latent_dim c)]
                    ++ repeated (int_value (hidden_dim c)) (int_value (num_layers c))))
    by (apply Forall_sizes2; lia).
  destruct (@BernoulliNet_forward_total B params _ k1 k2 _ batch z H0
              ltac:(discriminate) Hpos Hz) as (logits0 & Hl0 & Hs0 & Hw0).
  destruct (@BernoulliNet_forward_total B params _ k2 k3 _ batch z H1
              ltac:(discriminate) Hpos Hz) as (logits1 & Hl1 & Hs1 & Hw1).
  exists logits0, logits1. repeat split; auto.
  unfold Model_y_dist. rewrite Hl0, Hl1. cbn [rbind].
  rewrite torch_where_scalar; auto; congruence.
Qed.

(** Under an intervention that fixes the treatment to a constant, the
    outcome distribution of the model is that of a single head: [y1_nn]
    for a non-zero constant, [y0_nn] for zero; the other head has no
    influence. *)
Theorem Model_y_dist_under_do (c : config) (n0 n1 : nat) (self : Model)
        (batch : list nat) (v : Q) (z : tensor) :
  Model_init c n0 = Ok (self, n1) ->
  (0 <= int_value (latent_dim c))%Z -> (0 <= int_value (hidden_dim c))%Z ->
  shape z = batch ++ [Z.to_nat (int_value (latent_dim c))] ->
  exists logits,
    BernoulliNet_forward params (if to_bool v then m_y1_nn self else m_y0_nn self) z
    = Ok logits /\
    shape logits = batch /\
    Model_y_dist params self (scalar v) z = Ok (Bernoulli logits).
Proof.
  intros Hinit Hl Hh Hz.
  destruct (@Model_y_dist_do c n0 n1 self batch v z Hinit Hl Hh Hz)
    as (l0 & l1 & H0 & H1 & S0 & S1 & _ & _ & Hy).
  exists (if to_bool v then l1 else l0). destruct (to_bool v); auto.
Qed.

End Intervention.

(** ** One effect per unit *)

Lemma firstn_length_app {A : Type} (l1 l2 : list A) :
  firstn (List.length l1) (l1 ++ l2) = l1.
Proof. induction l1 as [|a l1 IH]; simpl; [now destruct l2|now rewrite IH]. Qed.

Lemma skipn_length_app {A : Type} (l1 l2 : list A) :
  skipn (List.length l1) (l1 ++ l2) = l2.
Proof. induction l1 as [|a l1 IH]; simpl; auto. Qed.

Lemma broadcast_shapes_particles (S n : nat) :
  broadcast_shapes [n] [S; n] = Ok [S; n].
Proof. unfold broadcast_shapes. cbn. now rewrite Nat.eqb_refl. Qed.

Lemma length_sum_rows (w : nat) (rs : list (list Q)) :
  Forall (fun r => List.length r = w) rs -> List.length (sum_rows w rs) = w.
Proof.
  unfold sum_rows. induction 1 as [|r rs Hr _ IH]; simpl.
  - apply repeat_length.
  - rewrite length_map, length_combine, IH, Hr. apply Nat.min_id.
Qed.

Lemma mean0_shape (x : tensor) (k : nat) (rest : list nat) :
  shape x = k :: rest -> wf x ->
  exists m, mean0 x = Ok m /\ shape m = rest /\ wf m.
Proof.
  intros Hs Hw. unfold mean0. rewrite Hs.
  eexists. split; [reflexivity|]. split; [reflexivity|].
  unfold wf. cbn [data shape]. rewrite length_map. apply length_sum_rows.
  apply split_rows_widths. unfold wf in Hw. rewrite Hw, Hs. reflexivity.
Qed.

Lemma validate_ok_inv (items : list (string * pyobj)) :
  validate items = Ok tt -> Forall (fun p => positive_int (snd p)) items.
Proof.
  induction items as [|[name size] items IH]; simpl; [constructor|].
  destruct (valid_size size) eqn:Hv; [|discriminate]. cbn [negb].
  intros H. constructor; [now apply valid_size_spec|auto].
Qed.

Lemma CEVAE_init_parts (f l h k : pyobj) (n0 n2 : nat) (self : CEVAE) :
  CEVAE_init f l h k n0 = Ok (self, n2) ->
  Forall positive_int [f; l; h; k] /\
  cevae_feature_dim self = int_value f /\
  exists n1,
    Model_init (mkConfig f l h k) n0 = Ok (cevae_model self, n1) /\
    Guide_init (mkConfig f l h k) n1 = Ok (cevae_guide self, n2).
Proof.
  unfold CEVAE_init. intros H.
  apply cbind_ok in H as (u & n & Hv & H).
  unfold clift in Hv. destruct (validate _) as [[]|] eqn:Hval; [|discriminate].
  injection Hv as _ <-.
  apply cbind_ok in H as (model & n1 & Hm & H).
  apply cbind_ok in H as (guide & n3 & Hg & H).
  unfold cret in H. injection H as <- <-.
  split; [apply Forall_config_items; now apply validate_ok_inv|].
  split; [reflexivity|]. exists n1. auto.
Qed.

Section EffectEstimate.
Context {B : Backend}.
Variable params : store.

Lemma length_draw_bernoulli (ls : list Q) (g : rng) :
  List.length (fst (draw_bernoulli ls g)) = List.length ls.
Proof.
  revert g. induction ls as [|l ls IH]; intros g; simpl; [reflexivity|].
  destruct (bernoulli l g) as [v g1]. specialize (IH g1).
  destruct (draw_bernoulli ls g1) as [vs g2]. simpl in *. now rewrite IH.
Qed.

Lemma length_draw_normal (ps : list (Q * Q)) (g : rng) :
  List.length (fst (draw_normal ps g)) = List.length ps.
Proof.
  revert g. induction ps as [|[l s] ps IH]; intros g; simpl; [reflexivity|].
  destruct (randn g) as [v g1]. specialize (IH g1).
  destruct (draw_normal ps g1) as [vs g2]. simpl in *. now rewrite IH.
Qed.

Lemma sample_dist_bernoulli_ok (logits : tensor) (ps s : list nat) (g : rng) :
  wf logits -> broadcast_shapes (shape logits) ps = Ok s ->
  exists v g', sample_dist ps (Bernoulli logits) g = Ok (v, g') /\ shape v = s /\ wf v.
Proof.
  intros Hw Hs. unfold sample_dist. cbn [batch_shape event_shape].
  rewrite Hs. cbn [rbind]. rewrite app_nil_r.
  destruct (broadcast_shapes_compat _ _ Hs) as [H1 _].
  destruct (@expand_ok _ _ H1 Hw) as (d & -> & Ld & _). cbn [rbind data].
  pose proof (length_draw_bernoulli d g) as Hlen.
  destruct (draw_bernoulli d g) as [vs g']. cbn [fst] in Hlen.
  exists (mkTensor s vs), g'. split; [reflexivity|]. split; [reflexivity|].
  unfold wf. cbn [data shape]. congruence.
Qed.

Lemma sample_dist_normal_ok (loc scale : tensor) (b : list nat) (e : nat)
      (ps s : list nat) (g : rng) :
  shape loc = b ++ [e] -> shape scale = b ++ [e] -> wf loc -> wf scale ->
  broadcast_shapes b ps = Ok s ->
  exists v g',
    sample_dist ps (Normal loc scale 1) g = Ok (v, g') /\
    shape v = s ++ [e] /\ wf v.
Proof.
  intros Hl Hsc Hwl Hws Hs. unfold sample_dist. cbn [batch_shape event_shape].
  rewrite Hl, length_app. cbn [List.length].
  replace (List.length b + 1 - 1)%nat with (List.length b) by lia.
  rewrite firstn_length_app, skipn_length_app, Hs. cbn [rbind].
  destruct (broadcast_shapes_compat _ _ Hs) as [H1 _].
  assert (Hc : broadcastable_to (b ++ [e]) (s ++ [e])).
  { unfold broadcastable_to in *. rewrite !rev_app_distr. cbn. auto. }
  destruct (@expand_ok (s ++ [e]) loc) as (dl & -> & Ll & _); [now rewrite Hl|exact Hwl|].
  destruct (@expand_ok (s ++ [e]) scale) as (ds & -> & Ls & _);
    [now rewrite Hsc|exact Hws|].
  cbn [rbind data].
  pose proof (length_draw_normal (combine dl ds) g) as Hlen.
  destruct (draw_normal (combine dl ds) g) as [vs g']. cbn [fst] in Hlen.
  exists (mkTensor (s ++ [e]) vs), g'. split; [reflexivity|]. split; [reflexivity|].
  unfold wf. cbn [data shape]. rewrite Hlen, length_combine. lia.
Qed.

Lemma mbind_eq {A C : Type} (m : M A) (k : A -> M C) (st st' : state) (a : A) :
  m st = Ok (a, st') -> mbind m k st = k a st'.
Proof. unfold mbind. now intros ->. Qed.

Lemma pyro_sample_draw (hs : stack) (name : string) (fn : distribution) (aux : bool)
      (g g' : rng) (tr : trace) (v : tensor) :
  lookup name (do_data (handlers_of (reached name hs))) = None ->
  match replay (handlers_of (reached name hs)) with
  | Some tr0 => lookup name tr0
  | None => None
  end = None ->
  sample_dist (plate_shape (plates (handlers_of (reached name hs)))) fn g = Ok (v, g') ->
  pyro_sample hs name fn None aux (mkState g tr)
  = (tr' <- (if tracing (handlers_of (reached name hs))
             then add_node name
                    (mkSite SampleSite fn v false
                            (scale (handlers_of (reached name hs))) aux None None) tr
             else Ok tr) ;;
     Ok (v, mkState g' tr'))%result.
Proof.
  intros Hdo Hrep Hs. unfold pyro_sample, site_value_of. cbn [gen recorded].
  rewrite Hdo, Hrep, Hs. reflexivity.
Qed.

Lemma Guide_t_dist_ok (c : config) (n0 n1 : nat) (self : Guide)
      (batch : list nat) (x : tensor) :
  Guide_init c n0 = Ok (self, n1) ->
  (0 <= int_value (feature_dim c))%Z ->
  shape x = batch ++ [Z.to_nat (int_value (feature_dim c))] ->
  exists logits,
    Guide_t_dist params self x = Ok (Bernoulli logits) /\
    shape logits = batch /\ wf logits.
Proof.
  intros Hinit Hf Hx.
  destruct (Guide_init_parts _ _ Hinit) as (k1 & _ & _ & _ & _ & Ht & _).
  cbv zeta in Ht.
  destruct (@BernoulliNet_forward_total B params _ n0 k1 _ batch x Ht)
    as (logits & Hl & Hs & Hw).
  { discriminate. }
  { constructor; [lia|constructor]. }
  { exact Hx. }
  exists logits. unfold Guide_t_dist. rewrite Hl. auto.
Qed.

(** The trace of the guide in [ite]: the hidden sites [t] and [y] are
    drawn per unit and not recorded; the site [z] is drawn per particle
    and per unit. *)
Lemma ite_guide_trace_ok (c : config) (n0 n1 : nat) (self : CEVAE)
      (x : tensor) (n S : nat) (g : rng) :
  Guide_init c n0 = Ok (cevae_guide self, n1) ->
  (0 <= int_value (feature_dim c))%Z -> (0 <= int_value (hidden_dim c))%Z ->
  (0 <= int_value (latent_dim c))%Z ->
  shape x = [n; Z.to_nat (int_value (feature_dim c))] -> wf x ->
  (0 < n)%nat ->
  exists sz g',
    ite_guide_trace params [PlateMessenger S S 2] self x g = Ok ([("z", sz)], g') /\
    shape (site_value sz) = [S; n; Z.to_nat (int_value (latent_dim c))] /\
    wf (site_value sz).
Proof.
  intros Hinit Hf Hh Hl Hx Hwx Hn.
  set (hg := BlockMessenger ["y"; "t"] :: TraceMessenger :: [PlateMessenger S S 2]).
  set (hp := PlateMessenger n n 1 :: hg).
  assert (Hplate : plate n n None hg = Ok hp).
  { unfold plate. destruct n; [lia|]. reflexivity. }
  assert (Hx' : shape x = [n] ++ [Z.to_nat (int_value (feature_dim c))]) by exact Hx.
  destruct (@Guide_t_dist_ok c n0 n1 _ [n] x Hinit Hf Hx') as (lt & Ht & Hst & Hwt).
  destruct (@sample_dist_bernoulli_ok lt [n] [n] g Hwt) as (t' & g1 & Hdt & Hst' & Hwt').
  { rewrite Hst. apply broadcast_shapes_same. }
  destruct (@Guide_y_dist_ok B params c n0 n1 _ [n] t' x Hinit Hf Hh Hx' Hst' Hwt')
    as (hidden & l0 & l1 & _ & _ & _ & _ & Hs0 & Hs1 & Hw0 & Hw1 & Hy).
  match type of Hy with _ = Ok (Bernoulli ?l) => set (ly := l) in * end.
  assert (Hsy : shape ly = [n]) by reflexivity.
  assert (Hwy : wf ly).
  { unfold wf in *. unfold ly. cbn [shape data].
    rewrite length_map, !length_combine. rewrite Hw0, Hw1, Hwt', Hs0, Hs1, Hst'. lia. }
  destruct (@sample_dist_bernoulli_ok ly [n] [n] g1 Hwy) as (y' & g2 & Hdy & Hsy' & Hwy').
  { rewrite Hsy. apply broadcast_shapes_same. }
  destruct (@Guide_z_dist_ok B params c n0 n1 _ [n] y' t' x Hinit Hf Hh Hl Hx' Hwx
              Hst' Hwt' Hsy' Hwy')
    as (y_x & zl0 & zs0 & zl1 & zs1 & zloc & zscale
        & _ & _ & Hz & Hsl & Hss & Hwl & Hws & _).
  destruct (@sample_dist_normal_ok zloc zscale [n] _ [S; n] [S; n] g2 Hsl Hss Hwl Hws)
    as (z' & g3 & Hdz & Hsz & Hwz).
  { apply broadcast_shapes_particles. }
  exists (mkSite SampleSite (Normal zloc zscale 1) z' false
                 (scale (handlers_of (reached "z" hp))) false None None), g3.
  split; [|split; [exact Hsz|exact Hwz]].
  unfold ite_guide_trace, Guide_forward. fold hg.
  rewrite mbind_lift. cbn [size_or_default]. unfold size_first. rewrite Hx.
  cbv beta iota. rewrite mbind_lift. cbv beta iota.
  rewrite mbind_lift, Hplate. cbv beta iota.
  rewrite mbind_lift, Ht. cbv beta iota.
  rewrite (@mbind_eq _ _ _ _ (mkState g []) (mkState g1 []) t').
  2:{ rewrite (@pyro_sample_draw hp "t" _ true g g1 [] t'); try reflexivity. exact Hdt. }
  rewrite mbind_lift, Hy. cbv beta iota.
  rewrite (@mbind_eq _ _ _ _ (mkState g1 []) (mkState g2 []) y').
  2:{ rewrite (@pyro_sample_draw hp "y" _ true g1 g2 [] y'); try reflexivity. exact Hdy. }
  rewrite mbind_lift, Hz. cbv beta iota.
  rewrite (@mbind_eq _ _ _ _ (mkState g2 [])
             (mkState g3 [("z", mkSite SampleSite (Normal zloc zscale 1) z' false
                                       (scale (handlers_of (reached "z" hp)))
                                       false None None)]) z').
  2:{ rewrite (@pyro_sample_draw hp "z" _ false g2 g3 [] z'); try reflexivity. exact Hdz. }
  reflexivity.
Qed.

Lemma pyro_sample_untraced (hs : stack) (name : string) (fn : distribution)
      (obs : option tensor) (aux : bool) (g g' : rng) (tr : trace) (v : tensor) (o : bool) :
  site_value_of (handlers_of (reached name hs)) name fn obs g = Ok (v, o, g') ->
  tracing (handlers_of (reached name hs)) = false ->
  pyro_sample hs name fn obs aux (mkState g tr) = Ok (v, mkState g' tr).
Proof.
  intros Hv Ht. unfold pyro_sample. cbn [gen recorded]. rewrite Hv, Ht. reflexivity.
Qed.

(** One replay of the model in [ite]: [z] is taken from the trace of the
    guide, [x] is the data, [t] is the constant of the intervention and
    [y] is drawn per particle and per unit. *)
Lemma counterfactual_ok (c : config) (n0 n1 : nat) (self : CEVAE)
      (x : tensor) (n S : nat) (xs : list nat) (v : Q) (g : rng) (sz : site) :
  Model_init c n0 = Ok (cevae_model self, n1) ->
  (0 <= int_value (feature_dim c))%Z -> (0 <= int_value (hidden_dim c))%Z ->
  (0 <= int_value (latent_dim c))%Z ->
  shape x = n :: xs -> (0 < n)%nat ->
  shape (site_value sz) = [S; n; Z.to_nat (int_value (latent_dim c))] ->
  exists y g',
    counterfactual params [PlateMessenger S S 2] self [("z", sz)] v x g = Ok (y, g') /\
    shape y = [S; n] /\ wf y.
Proof.
  intros Hinit Hf Hh Hl Hx Hn Hsz.
  set (z := site_value sz) in *.
  set (hd := ReplayMessenger [("z", sz)] :: DoMessenger [("t", scalar v)]
             :: [PlateMessenger S S 2]).
  set (hp := PlateMessenger n n 1 :: hd).
  assert (Hplate : plate n n None hd = Ok hp).
  { unfold plate. destruct n; [lia|]. reflexivity. }
  assert (Hz' : shape z = [S; n] ++ [Z.to_nat (int_value (latent_dim c))]) by exact Hsz.
  destruct (@Model_dists_ok B params c n0 n1 _ [S; n] z Hinit Hf Hh Hl Hz')
    as (xloc & xscale & lt & _ & Hxd & _ & _ & _ & _ & Htd & _).
  destruct (@Model_y_dist_do B params c n0 n1 _ [S; n] v z Hinit Hl Hh Hz')
    as (l0 & l1 & _ & _ & Hs0 & Hs1 & Hw0 & Hw1 & Hyd).
  set (ly := if to_bool v then l1 else l0) in *.
  assert (Hsly : shape ly = [S; n]) by (unfold ly; now destruct (to_bool v)).
  assert (Hwly : wf ly) by (unfold ly; now destruct (to_bool v)).
  destruct (@sample_dist_bernoulli_ok ly [S; n] [S; n] g Hwly) as (y & g' & Hdy & Hsy & Hwy).
  { rewrite Hsly. apply broadcast_shapes_same. }
  exists y, g'. split; [|split; [exact Hsy|exact Hwy]].
  unfold counterfactual, Model_forward. fold hd.
  rewrite mbind_lift. cbn [size_or_default]. unfold size_first. rewrite Hx.
  cbv beta iota. rewrite mbind_lift. cbv beta iota.
  rewrite mbind_lift, Hplate. cbv beta iota.
  rewrite (@mbind_eq _ _ _ _ (mkState g []) (mkState g []) z).
  2:{ apply (@pyro_sample_untraced hp "z" _ None false g g [] z false); reflexivity. }
  rewrite mbind_lift, Hxd. cbv beta iota.
  rewrite (@mbind_eq _ _ _ _ (mkState g []) (mkState g []) x).
  2:{ apply (@pyro_sample_untraced hp "x" _ (Some x) false g g [] x true); reflexivity. }
  rewrite mbind_lift, Htd. cbv beta iota.
  rewrite (@mbind_eq _ _ _ _ (mkState g []) (mkState g []) (scalar v)).
  2:{ apply (@pyro_sample_untraced hp "t" _ None false g g [] (scalar v) true);
      reflexivity. }
  rewrite mbind_lift, Hyd. cbv beta iota.
  rewrite (@mbind_eq _ _ _ _ (mkState g []) (mkState g' []) y).
  2:{ rewrite (@pyro_sample_draw hp "y" _ false g g' [] y); try reflexivity. exact Hdy. }
  reflexivity.
Qed.

Lemma ite_ok (f l h k : pyobj) (n0 n1 : nat) (self : CEVAE)
      (x : tensor) (n S : nat) (g : rng) :
  CEVAE_init f l h k n0 = Ok (self, n1) ->
  shape x = [n; Z.to_nat (int_value f)] -> wf x ->
  (0 < n)%nat -> (0 < S)%nat ->
  exists effect g',
    ite params self x S g = Ok (effect, g') /\ shape effect = [n] /\ wf effect.
Proof.
  intros Hinit Hx Hwx Hn HS.
  destruct (CEVAE_init_parts _ _ _ _ _ Hinit) as (Hpos & Hfd & k1 & Hm & Hg).
  apply Forall_cons_iff in Hpos as [[_ Hf] Hpos].
  apply Forall_cons_iff in Hpos as [[_ Hl] Hpos].
  apply Forall_cons_iff in Hpos as [[_ Hh] _].
  set (c := mkConfig f l h k) in *.
  assert (Hf' : (0 <= int_value (feature_dim c))%Z) by (cbn; lia).
  assert (Hh' : (0 <= int_value (hidden_dim c))%Z) by (cbn; lia).
  assert (Hl' : (0 <= int_value (latent_dim c))%Z) by (cbn; lia).
  destruct (@ite_guide_trace_ok c k1 n1 self x n S g Hg Hf' Hh' Hl' Hx Hwx Hn)
    as (sz & g1 & Htr & Hsz & _).
  destruct (@counterfactual_ok c n0 k1 self x n S _ 0 g1 sz Hm Hf' Hh' Hl' Hx Hn Hsz)
    as (y0 & g2 & Hy0 & Hs0 & Hw0).
  destruct (@counterfactual_ok c n0 k1 self x n S _ 1 g2 sz Hm Hf' Hh' Hl' Hx Hn Hsz)
    as (y1 & g3 & Hy1 & Hs1 & Hw1).
  destruct (@tzip_ok Qminus y1 y0 [S; n] Hw1 Hw0) as (d & Hd & Hsd & Hwd).
  { rewrite Hs1, Hs0. apply broadcast_shapes_same. }
  destruct (@mean0_shape d S [n] Hsd Hwd) as (effect & He & Hse & Hwe).
  exists effect, g3. split; [|split; [exact Hse|exact Hwe]].
  unfold ite, dim. rewrite Hx, Hfd. cbn [List.length last Nat.eqb].
  rewrite Z2Nat.id by lia. rewrite Z.eqb_refl. cbn [andb py_assert rbind].
  unfold plate. destruct S as [|S']; [lia|]. cbn [rbind].
  rewrite Htr. cbn [rbind]. unfold ite_replays. rewrite Hy0. cbn [rbind].
  rewrite Hy1. cbn [rbind]. unfold ite_effect, tsub. rewrite Hd. cbn [rbind].
  rewrite He. reflexivity.
Qed.

End EffectEstimate.

Section EffectEstimateFacts.
Context {B : Backend}.
Variable params : store.

(** The guide in [ite]: for an estimator built by the constructor, at
    least one particle and covariates with [n > 0] rows of width
    [feature_dim], the trace that
    the two replays share holds the site [z] and nothing else, the sites
    [y] and [t] being hidden; [z] holds one row of width [latent_dim] per
    particle and per unit. *)
Theorem ite_guide_trace_holds_only_z (f l h k : pyobj) (n0 n1 : nat) (self : CEVAE)
        (x : tensor) (n S : nat) (g : rng) :
  CEVAE_init f l h k n0 = Ok (self, n1) ->
  shape x = [n; Z.to_nat (int_value f)] -> wf x -> (0 < n)%nat -> (0 < S)%nat ->
  exists sz g',
    ite_guide_trace params [PlateMessenger S S 2] self x g = Ok ([("z", sz)], g') /\
    shape (site_value sz) = [S; n; Z.to_nat (int_value l)] /\
    wf (site_value sz) /\ is_observed sz = false.
Proof.
  intros Hinit Hx Hwx Hn _.
  destruct (CEVAE_init_parts _ _ _ _ _ Hinit) as (Hpos & _ & k1 & _ & Hg).
  apply Forall_cons_iff in Hpos as [[_ Hf] Hpos].
  apply Forall_cons_iff in Hpos as [[_ Hl] Hpos].
  apply Forall_cons_iff in Hpos as [[_ Hh] _].
  destruct (@ite_guide_trace_ok B params (mkConfig f l h k) k1 n1 self x n S g Hg)
    as (sz & g1 & Htr & Hsz & Hwz); cbn; try lia; auto.
  exists sz, g1. repeat split; auto.
  pose proof Htr as Htr'. unfold ite_guide_trace in Htr'.
  destruct (Guide_forward _ _ _ _ _ _ _ _) as [[u st]|] eqn:HG; [|discriminate].
  cbn [rbind] in Htr'. injection Htr' as Hrec _.
  unfold Guide_forward in HG.
  apply mbind_ok in HG as (size' & s1 & H1 & HG). apply lift_ok in H1 as [_ ->].
  apply mbind_ok in HG as (m & s1 & H1 & HG). apply lift_ok in H1 as [_ ->].
  apply mbind_ok in HG as (hp & s1 & H1 & HG). apply lift_ok in H1 as [Hp ->].
  apply mbind_ok in HG as (td & s2 & H2 & HG). apply lift_ok in H2 as [_ ->].
  apply mbind_ok in HG as (t' & s3 & Ht & HG).
  apply mbind_ok in HG as (yd & s4 & H4 & HG). apply lift_ok in H4 as [_ ->].
  apply mbind_ok in HG as (y' & s5 & Hy & HG).
  apply mbind_ok in HG as (zd & s6 & H6 & HG). apply lift_ok in H6 as [_ ->].
  apply mbind_ok in HG as (z' & s7 & Hz & HG).
  unfold mret in HG. injection HG as _ <-.
  unfold plate in Hp. destruct m as [|m]; [discriminate|]. injection Hp as <-.
  apply pyro_sample_recorded in Ht as (ot & Rt & _).
  apply pyro_sample_recorded in Hy as (oy & Ry & _).
  apply pyro_sample_recorded in Hz as (oz & Rz & Oz).
  cbn in Rt, Ry, Rz, Oz. rewrite Rz, Ry, Rt in Hrec. cbn in Hrec.
  injection Hrec as <-. cbn. now apply Oz.
Qed.

(** [CEVAE.ite] returns one effect per unit: for an estimator built by
    the constructor, at least one particle and well-formed covariates, the
    call returns a tensor of [n] entries when the covariates have [n > 0]
    rows of width [feature_dim], and raises [AssertionError] when they
    are not two-dimensional or have another width. *)
Theorem ite_one_effect_per_unit (f l h k : pyobj) (n0 n1 : nat) (self : CEVAE)
        (x : tensor) (S : nat) (g : rng) :
  CEVAE_init f l h k n0 = Ok (self, n1) -> wf x -> (0 < S)%nat ->
  (forall n, shape x = [n; Z.to_nat (int_value f)] -> (0 < n)%nat ->
             exists effect g',
               ite params self x S g = Ok (effect, g') /\
               shape effect = [n] /\ wf effect) /\
  ((forall n, shape x <> [n; Z.to_nat (int_value f)]) ->
   ite params self x S g = Raise AssertionError).
Proof.
  intros Hinit Hwx HS. split.
  - intros n Hx Hn. exact (@ite_ok B params f l h k n0 n1 self x n S g Hinit Hx Hwx Hn HS).
  - intros Hne.
    destruct (CEVAE_init_parts _ _ _ _ _ Hinit) as (Hpos & Hfd & _).
    apply Forall_cons_iff in Hpos as [[_ Hf] _].
    unfold ite, dim. rewrite Hfd.
    destruct (shape x) as [|n [|w [|? ?]]] eqn:Hs; try reflexivity.
    cbn [List.length last Nat.eqb andb].
    destruct (Z.eqb_spec (Z.of_nat w) (int_value f)) as [Hw|Hw]; [|reflexivity].
    exfalso. apply (Hne n). rewrite <- Hw, Nat2Z.id. reflexivity.
Qed.

End EffectEstimateFacts.

(** ** The shapes that [fit] accepts *)

Lemma fit_asserts_raises (fd : Z) (xs ts ys : list nat) (e : exn) :
  fit_asserts fd xs ts ys = Raise e -> e = AssertionError.
Proof.
  unfold fit_asserts, py_assert.
  destruct (_ && _); cbn [rbind]; [|congruence].
  destruct (shape_eqb ts _); cbn [rbind]; [|congruence].
  destruct (shape_eqb ys _); cbn [rbind]; [discriminate|congruence].
Qed.

(** The shapes the assertions of [fit] accept: covariates with two
    dimensions and [feature_dim] columns, one treatment per row of the
    covariates, and an outcome of one dimension at most, of any length;
    everything else raises [AssertionError]. *)
Theorem fit_checks_shapes (fd : Z) (xs ts ys : list nat) :
  match fit_asserts fd xs ts ys with
  | Ok _ =>
      (exists n w, xs = [n; w] /\ Z.of_nat w = fd /\ ts = [n]) /\
      (List.length ys <= 1)%nat
  | Raise e =>
      e = AssertionError /\
      ~ ((exists n w, xs = [n; w] /\ Z.of_nat w = fd /\ ts = [n]) /\
         (List.length ys <= 1)%nat)
  end.
Proof.
  destruct (fit_asserts fd xs ts ys) as [[]|e] eqn:H.
  - now apply fit_asserts_spec.
  - split; [exact (fit_asserts_raises _ _ _ _ H)|].
    intros Hok. apply fit_asserts_spec in Hok. congruence.
Qed.

(** What [fit] does before it trains: covariates with two dimensions and
    [feature_dim] columns, one treatment and one outcome per row of the
    covariates are accepted; an outcome without dimensions, next to
    accepted covariates and treatments, raises [IndexError] when the
    data set asks for its first dimension; every other input raises
    [AssertionError], in particular an outcome vector whose length is not
    the number of rows of the covariates. *)
Theorem fit_dataset_checks (fd : Z) (xs ts ys : list nat) :
  match fit_dataset fd xs ts ys with
  | Ok _ => exists n w, xs = [n; w] /\ Z.of_nat w = fd /\ ts = [n] /\ ys = [n]
  | Raise e =>
      if match ys with [] => true | _ :: _ => false end
         && match fit_asserts fd xs ts ys with Ok _ => true | Raise _ => false end
      then e = IndexError /\ exists n w, xs = [n; w] /\ Z.of_nat w = fd /\ ts = [n]
      else e = AssertionError /\
           ~ exists n w, xs = [n; w] /\ Z.of_nat w = fd /\ ts = [n] /\ ys = [n]
  end.
Proof.
  unfold fit_dataset.
  destruct (fit_asserts fd xs ts ys) as [[]|e] eqn:H; cbn [rbind].
  - apply fit_asserts_spec in H as [(n & w & -> & Hw & ->) Hy].
    unfold TensorDataset.
    destruct ys as [|m [|? ?]]; [| |simpl in Hy; lia];
      cbn [hd all_same_size0 shape_size0 rbind andb]; rewrite !Nat.eqb_refl;
      cbn [rbind].
    + split; [reflexivity|]. exists n, w. auto.
    + destruct (Nat.eqb_spec n m) as [<-|Hne]; cbn [rbind py_assert].
      * exists n, w. auto.
      * split; [reflexivity|]. intros (n' & w' & [= <- <-] & _ & _ & [= E]).
        congruence.
  - rewrite andb_false_r. split; [exact (fit_asserts_raises _ _ _ _ H)|].
    intros (n & w & -> & Hw & -> & ->).
    assert (Hok : fit_asserts fd [n; w] [n] [n] = Ok tt).
    { apply fit_asserts_spec. split; [exists n, w; auto|simpl; lia]. }
    congruence.
Qed.

(** ** The range of the effect estimate *)

Lemma expand_incl (s : list nat) (x x' : tensor) :
  expand s x = Ok x' -> incl (data x') (data x).
Proof.
  unfold expand. destruct (expand_data _ _ _) as [d|] eqn:Hd; [|discriminate].
  intros [= <-]. exact (expand_data_incl _ _ _ Hd).
Qed.

Lemma tzip_entries (f : Q -> Q -> Q) (x y z : tensor) :
  tzip f x y = Ok z ->
  Forall (fun v => exists a b, In a (data x) /\ In b (data y) /\ v = f a b) (data z).
Proof.
  unfold tzip. destruct (broadcast_shapes _ _) as [s|]; [|discriminate]. cbn [rbind].
  destruct (expand s x) as [x'|] eqn:Hx; [|discriminate]. cbn [rbind].
  destruct (expand s y) as [y'|] eqn:Hy; [|discriminate]. cbn [rbind].
  intros [= <-]. cbn [data]. apply Forall_forall. intros v Hv.
  apply in_map_iff in Hv as ([a b] & <- & Hin).
  exists a, b. split; [|split; [|reflexivity]].
  - apply (expand_incl _ _ Hx). exact (in_combine_l _ _ _ _ Hin).
  - apply (expand_incl _ _ Hy). exact (in_combine_r _ _ _ _ Hin).
Qed.

Lemma binary_difference (a b : Q) : binary a -> binary b -> -1 <= a - b <= 1.
Proof. unfold binary. intros [Ha|Ha] [Hb|Hb]; rewrite Ha, Hb; split; discriminate. Qed.

Lemma sum_rows_bounded (w : nat) (rs : list (list Q)) :
  Forall (Forall (fun v => -1 <= v <= 1)) rs ->
  Forall (fun v => - inject_Z (Z.of_nat (List.length rs)) <= v
                   <= inject_Z (Z.of_nat (List.length rs)))
         (sum_rows w rs).
Proof.
  unfold sum_rows. induction 1 as [|r rs Hr _ IH]; simpl fold_right.
  - apply Forall_forall. intros v Hv. apply repeat_spec in Hv. subst v.
    split; discriminate.
  - apply Forall_forall. intros v Hv.
    apply in_map_iff in Hv as ([a b] & <- & Hin). cbn [fst snd].
    rewrite Forall_forall in Hr, IH.
    pose proof (Hr a (in_combine_l _ _ _ _ Hin)) as [Ha1 Ha2].
    pose proof (IH b (in_combine_r _ _ _ _ Hin)) as [Hb1 Hb2].
    cbn [List.length]. rewrite Nat2Z.inj_succ, <- Z.add_1_l, inject_Z_plus.
    change (inject_Z 1) with 1. lra.
Qed.

Lemma mean_bounded (k : nat) (v : Q) :
  - inject_Z (Z.of_nat k) <= v <= inject_Z (Z.of_nat k) ->
  -1 <= v / inject_Z (Z.of_nat k) <= 1.
Proof.
  intros [H1 H2]. destruct k as [|k].
  - change (inject_Z (Z.of_nat 0)) with 0 in *.
    assert (Hv : v == 0) by lra. rewrite Hv. split; discriminate.
  - assert (Hk : 0 < inject_Z (Z.of_nat (S k))).
    { change 0 with (inject_Z 0). rewrite <- Zlt_Qlt. lia. }
    split.
    + apply Qle_shift_div_l; [exact Hk|]. lra.
    + apply Qle_shift_div_r; [exact Hk|]. lra.
Qed.

Lemma mean0_bounded (x m : tensor) :
  Forall (fun v => -1 <= v <= 1) (data x) ->
  mean0 x = Ok m ->
  Forall (fun v => -1 <= v <= 1) (data m).
Proof.
  intros Hx. unfold mean0. destruct (shape x) as [|k rest]; [discriminate|].
  intros [= <-]. cbn [data]. apply Forall_map.
  pose proof (@sum_rows_bounded (numel rest) (split_rows k (numel rest) (data x))) as Hs.
  rewrite length_split_rows in Hs.
  eapply Forall_impl; [|apply Hs].
  - intros v Hv. now apply mean_bounded.
  - apply Forall_forall. intros r Hr. apply Forall_forall. intros v Hv.
    rewrite Forall_forall in Hx. apply Hx. exact (@split_rows_incl _ _ _ _ Hr v Hv).
Qed.

Section EffectRange.
Context {B : Backend}.
Variable params : store.
Hypothesis Hbinary : binary_draws B.

Lemma draw_bernoulli_binary (ls : list Q) (g : rng) :
  Forall binary (fst (draw_bernoulli ls g)).
Proof.
  revert g. induction ls as [|l ls IH]; intros g; simpl; [constructor|].
  pose proof (Hbinary l g) as Hb.
  destruct (bernoulli l g) as [v g1]. specialize (IH g1).
  destruct (draw_bernoulli ls g1) as [vs g2]. simpl in *. now constructor.
Qed.

Lemma sample_dist_bernoulli_binary (ps : list nat) (logits v : tensor) (g g' : rng) :
  sample_dist ps (Bernoulli logits) g = Ok (v, g') -> Forall binary (data v).
Proof.
  unfold sample_dist. destruct (broadcast_shapes _ _) as [bs|]; [|discriminate].
  cbn [rbind]. destruct (expand _ logits) as [l'|]; [|discriminate]. cbn [rbind].
  pose proof (draw_bernoulli_binary (data l') g) as Hd.
  destruct (draw_bernoulli (data l') g) as [vs g1]. intros [= <- _]. exact Hd.
Qed.

Lemma ite_inv (self : CEVAE) (x : tensor) (S : nat) (g g' : rng) (effect : tensor) :
  ite params self x S g = Ok (effect, g') ->
  exists tr g1 y0 y1,
    ite_guide_trace params [PlateMessenger S S 2] self x g = Ok (tr, g1) /\
    ite_replays params [PlateMessenger S S 2] self tr x g1 = Ok (y0, y1, g') /\
    ite_effect y1 y0 = Ok effect.
Proof.
  unfold ite. destruct (py_assert _); [|discriminate]. cbn [rbind].
  unfold plate. destruct S as [|S']; [discriminate|]. cbn [rbind].
  destruct (ite_guide_trace _ _ _ _ _) as [[tr g1]|] eqn:Htr; [|discriminate].
  cbn [rbind].
  destruct (ite_replays _ _ _ _ _ _) as [[[y0 y1] g2]|] eqn:Hrep; [|discriminate].
  cbn [rbind].
  destruct (ite_effect y1 y0) as [e|] eqn:He; [|discriminate]. cbn [rbind].
  intros [= <- <-]. exists tr, g1, y0, y1. auto.
Qed.

Lemma ite_guide_trace_inv (self : CEVAE) (x : tensor) (S : nat) (g g' : rng) (tr : trace) :
  ite_guide_trace params [PlateMessenger S S 2] self x g = Ok (tr, g') ->
  exists sz, tr = [("z", sz)].
Proof.
  unfold ite_guide_trace.
  destruct (Guide_forward _ _ _ _ _ _ _ _) as [[u st]|] eqn:HG; [|discriminate].
  cbn [rbind]. intros [= <- _].
  unfold Guide_forward in HG.
  apply mbind_ok in HG as (size' & s1 & H1 & HG). apply lift_ok in H1 as [_ ->].
  apply mbind_ok in HG as (m & s1 & H1 & HG). apply lift_ok in H1 as [_ ->].
  apply mbind_ok in HG as (hp & s1 & H1 & HG). apply lift_ok in H1 as [Hp ->].
  apply mbind_ok in HG as (td & s2 & H2 & HG). apply lift_ok in H2 as [_ ->].
  apply mbind_ok in HG as (t' & s3 & Ht & HG).
  apply mbind_ok in HG as (yd & s4 & H4 & HG). apply lift_ok in H4 as [_ ->].
  apply mbind_ok in HG as (y' & s5 & Hy & HG).
  apply mbind_ok in HG as (zd & s6 & H6 & HG). apply lift_ok in H6 as [_ ->].
  apply mbind_ok in HG as (z' & s7 & Hz & HG).
  unfold mret in HG. injection HG as _ <-.
  unfold plate in Hp. destruct m as [|m]; [discriminate|]. injection Hp as <-.
  apply pyro_sample_recorded in Ht as (ot & Rt & _).
  apply pyro_sample_recorded in Hy as (oy & Ry & _).
  apply pyro_sample_recorded in Hz as (oz & Rz & _).
  cbn in Rt, Ry, Rz. rewrite Rz, Ry, Rt. cbn. eauto.
Qed.

Lemma counterfactual_binary (self : CEVAE) (x : tensor) (S : nat) (sz : site)
      (v : Q) (g g' : rng) (y : tensor) :
  counterfactual params [PlateMessenger S S 2] self [("z", sz)] v x g = Ok (y, g') ->
  Forall binary (data y).
Proof.
  unfold counterfactual.
  destruct (Model_forward _ _ _ _ _ _ _ _) as [[y' st]|] eqn:HM; [|discriminate].
  cbn [rbind]. intros [= <- _].
  unfold Model_forward in HM.
  apply mbind_ok in HM as (size' & s1 & H1 & HM). apply lift_ok in H1 as [_ ->].
  apply mbind_ok in HM as (m & s1 & H1 & HM). apply lift_ok in H1 as [_ ->].
  apply mbind_ok in HM as (hp & s1 & H1 & HM). apply lift_ok in H1 as [Hp ->].
  apply mbind_ok in HM as (z & s1 & _ & HM).
  apply mbind_ok in HM as (xd & s2 & _ & HM).
  apply mbind_ok in HM as (x' & s3 & _ & HM).
  apply mbind_ok in HM as (td & s4 & _ & HM).
  apply mbind_ok in HM as (t' & s5 & _ & HM).
  apply mbind_ok in HM as (yd & s6 & H6 & HM). apply lift_ok in H6 as [Hyd ->].
  apply mbind_ok in HM as (y0 & s7 & Hy & HM).
  unfold mret in HM. injection HM as <- _.
  unfold plate in Hp. destruct m as [|m]; [discriminate|]. injection Hp as <-.
  unfold Model_y_dist in Hyd.
  destruct (BernoulliNet_forward _ _ _) as [l0|]; [|discriminate]. cbn [rbind] in Hyd.
  destruct (BernoulliNet_forward _ _ _) as [l1|]; [|discriminate]. cbn [rbind] in Hyd.
  destruct (torch_where _ _ _) as [ly|]; [|discriminate]. cbn [rbind] in Hyd.
  injection Hyd as <-.
  unfold pyro_sample, site_value_of in Hy. cbn in Hy.
  destruct (sample_dist _ _ _) as [[v0 g0]|] eqn:Hs; [|discriminate].
  cbn in Hy. injection Hy as <- _.
  exact (sample_dist_bernoulli_binary _ _ _ Hs).
Qed.

End EffectRange.

Section EffectRangeOfIte.
Context {B : Backend}.
Variable params : store.

(** The estimates of [CEVAE.ite] lie between -1 and 1: with Bernoulli
    variates that are 0 or 1, every entry of the tensor returned by a
    successful call is a mean of differences of such variates. *)
Theorem ite_effect_bounded (self : CEVAE) (x : tensor) (S : nat)
        (g g' : rng) (effect : tensor) :
  binary_draws B ->
  ite params self x S g = Ok (effect, g') ->
  Forall (fun v => -1 <= v <= 1) (data effect).
Proof.
  intros Hb H.
  destruct (@ite_inv B params self x S g g' effect H)
    as (tr & g1 & y0 & y1 & Htr & Hrep & Heff).
  destruct (@ite_guide_trace_inv B params self x S g g1 tr Htr) as (sz & ->).
  unfold ite_replays in Hrep.
  destruct (counterfactual _ _ _ _ 0 _ _) as [[y0' g2]|] eqn:H0; [|discriminate].
  cbn [rbind] in Hrep.
  destruct (counterfactual _ _ _ _ 1 _ _) as [[y1' g3]|] eqn:H1; [|discriminate].
  cbn [rbind] in Hrep. injection Hrep as <- <- _.
  apply (@counterfactual_binary B params Hb) in H0.
  apply (@counterfactual_binary B params Hb) in H1.
  unfold ite_effect in Heff.
  destruct (tsub y1' y0') as [d|] eqn:Hd; [|discriminate]. cbn [rbind] in Heff.
  apply (@mean0_bounded d effect); [|exact Heff].
  pose proof (@tzip_entries _ _ _ _ Hd) as He.
  rewrite Forall_forall in He, H0, H1 |- *.
  intros v Hv. destruct (He v Hv) as (a & b & Ha & Hb' & ->).
  apply binary_difference; auto.
Qed.

End EffectRangeOfIte.

(** ** The first invalid argument *)

Lemma validate_find (items : list (string * pyobj)) :
  validate items
  = match find (fun p => negb (valid_size (snd p))) items with
    | Some (name, size) => Raise (ValueError (expected_msg name size))
    | None => Ok tt
    end.
Proof.
  induction items as [|[name size] items IH]; [reflexivity|].
  cbn [validate find snd]. destruct (negb (valid_size size)); [reflexivity|exact IH].
Qed.

(** [CEVAE.__init__] reports the first invalid argument, in the order
    [feature_dim], [latent_dim], [hidden_dim], [num_layers]: the first one
    that is not a positive instance of [int] gives the [ValueError],
    whatever the arguments after it; when there is none the construction
    succeeds for four ints proper, and raises [TypeError] when the width
    of the hidden layers is [True]. *)
Theorem CEVAE_init_reports_first_invalid (f l h k : pyobj) (n0 : nat) :
  match find (fun p => negb (valid_size (snd p))) (config_items (mkConfig f l h k)) with
  | Some (name, size) =>
      CEVAE_init f l h k n0 = Raise (ValueError (expected_msg name size))
  | None =>
      (Forall is_int [f; l; h; k] ->
       exists self n1, CEVAE_init f l h k n0 = Ok (self, n1)) /\
      (h = PyBool true -> CEVAE_init f l h k n0 = Raise TypeError)
  end.
Proof.
  pose proof (validate_find (config_items (mkConfig f l h k))) as Hv.
  destruct (find _ _) as [[name size]|].
  - unfold CEVAE_init, cbind, clift. now rewrite Hv.
  - assert (Hpos : Forall positive_int [f; l; h; k]).
    { apply Forall_config_items. now apply validate_ok_inv. }
    split.
    + intros Hint. apply Forall4 in Hint as (_ & _ & Hh & _).
      now apply CEVAE_init_ok.
    + intros ->. now apply CEVAE_init_hidden_True.
Qed.

(** ** The scale of a minibatch *)

Section MinibatchScale.
Context {B : Backend}.
Variable params : store.

Lemma pyro_sample_scale (hs : stack) (name : string) (fn : distribution)
      (obs : option tensor) (aux : bool) (st st' : state) (v : tensor) :
  pyro_sample hs name fn obs aux st = Ok (v, st') ->
  exists new,
    recorded st' = recorded st ++ new /\
    Forall (fun p => fst p = name /\
                     site_scale (snd p) = scale (handlers_of (reached name hs))) new.
Proof.
  intros H. destruct (@pyro_sample_recorded B hs name fn obs aux st st' v H)
    as (o & Hrec & _).
  destruct (records hs name).
  - eexists. split; [exact Hrec|]. repeat constructor.
  - exists []. rewrite app_nil_r. split; [exact Hrec|constructor].
Qed.

Lemma plate_scale (size n : nat) (d : option nat) (hs hp : stack) (name : string) :
  plate size n d hs = Ok hp ->
  scale (handlers_of (reached name hp))
  = scale (handlers_of (reached name hs))
    * (inject_Z (Z.of_nat size) / inject_Z (Z.of_nat n)).
Proof.
  unfold plate. destruct n; [discriminate|]. intros [= <-]. reflexivity.
Qed.

(** [Model.forward] scales every site it records by [size / len(x)],
    the ratio of the size of the data set to the size of the minibatch,
    on top of the scale of the enclosing handlers; without a [size] the
    ratio is [len(x) / len(x)]. *)
Theorem Model_forward_minibatch_scale (hs : stack) (self : Model)
        (x : tensor) (t y : option tensor) (size : option nat)
        (n : nat) (xs : list nat) (st st' : state) (v : tensor) :
  shape x = n :: xs ->
  Model_forward params hs self x t y size st = Ok (v, st') ->
  exists new,
    recorded st' = recorded st ++ new /\
    Forall (fun p =>
              site_scale (snd p)
              = scale (handlers_of (reached (fst p) hs))
                * (inject_Z (Z.of_nat (match size with Some s => s | None => n end))
                   / inject_Z (Z.of_nat n))) new.
Proof.
  intros Hx H. unfold Model_forward in H.
  apply mbind_ok in H as (size' & s1 & H1 & H). apply lift_ok in H1 as [Hsize ->].
  apply mbind_ok in H as (m & s1 & H1 & H). apply lift_ok in H1 as [Hm ->].
  apply mbind_ok in H as (hp & s1 & H1 & H). apply lift_ok in H1 as [Hp ->].
  unfold size_first in Hm. rewrite Hx in Hm. injection Hm as <-.
  assert (Hs : size' = match size with Some s => s | None => n end).
  { destruct size; cbn in Hsize; [congruence|].
    unfold size_first in Hsize. rewrite Hx in Hsize. congruence. }
  subst size'.
  apply mbind_ok in H as (z & s1 & Hz & H).
  apply mbind_ok in H as (xd & s2 & H2 & H). apply lift_ok in H2 as [_ ->].
  apply mbind_ok in H as (x' & s3 & Hx' & H).
  apply mbind_ok in H as (td & s4 & H4 & H). apply lift_ok in H4 as [_ ->].
  apply mbind_ok in H as (t' & s5 & Ht & H).
  apply mbind_ok in H as (yd & s6 & H6 & H). apply lift_ok in H6 as [_ ->].
  apply mbind_ok in H as (y' & s7 & Hy & H).
  unfold mret in H. injection H as _ <-.
  apply pyro_sample_scale in Hz as (nz & Ez & Fz).
  apply pyro_sample_scale in Hx' as (nx & Ex & Fx).
  apply pyro_sample_scale in Ht as (nt & Et & Ft).
  apply pyro_sample_scale in Hy as (ny & Ey & Fy).
  exists (nz ++ nx ++ nt ++ ny).
  split; [rewrite Ey, Et, Ex, Ez, <- !app_assoc; reflexivity|].
  repeat (apply Forall_app; split);
    (eapply Forall_impl; [|eassumption]);
    intros p [-> ->]; exact (@plate_scale _ _ _ _ _ _ Hp).
Qed.

(** [Guide.forward] scales the sites it records in the same way. *)
Theorem Guide_forward_minibatch_scale (hs : stack) (self : Guide)
        (x : tensor) (t y : option tensor) (size : option nat)
        (n : nat) (xs : list nat) (st st' : state) (u : unit) :
  shape x = n :: xs ->
  Guide_forward params hs self x t y size st = Ok (u, st') ->
  exists new,
    recorded st' = recorded st ++ new /\
    Forall (fun p =>
              site_scale (snd p)
              = scale (handlers_of (reached (fst p) hs))
                * (inject_Z (Z.of_nat (match size with Some s => s | None => n end))
                   / inject_Z (Z.of_nat n))) new.
Proof.
  intros Hx H. unfold Guide_forward in H.
  apply mbind_ok in H as (size' & s1 & H1 & H). apply lift_ok in H1 as [Hsize ->].
  apply mbind_ok in H as (m & s1 & H1 & H). apply lift_ok in H1 as [Hm ->].
  apply mbind_ok in H as (hp & s1 & H1 & H). apply lift_ok in H1 as [Hp ->].
  unfold size_first in Hm. rewrite Hx in Hm. injection Hm as <-.
  assert (Hs : size' = match size with Some s => s | None => n end).
  { destruct size; cbn in Hsize; [congruence|].
    unfold size_first in Hsize. rewrite Hx in Hsize. congruence. }
  subst size'.
  apply mbind_ok in H as (td & s2 & H2 & H). apply lift_ok in H2 as [_ ->].
  apply mbind_ok in H as (t' & s3 & Ht & H).
  apply mbind_ok in H as (yd & s4 & H4 & H). apply lift_ok in H4 as [_ ->].
  apply mbind_ok in H as (y' & s5 & Hy & H).
  apply mbind_ok in H as (zd & s6 & H6 & H). apply lift_ok in H6 as [_ ->].
  apply mbind_ok in H as (z' & s7 & Hz & H).
  unfold mret in H. injection H as _ <-.
  apply pyro_sample_scale in Ht as (nt & Et & Ft).
  apply pyro_sample_scale in Hy as (ny & Ey & Fy).
  apply pyro_sample_scale in Hz as (nz & Ez & Fz).
  exists (nt ++ ny ++ nz).
  split; [rewrite Ez, Ey, Et, <- !app_assoc; reflexivity|].
  repeat (apply Forall_app; split);
    (eapply Forall_impl; [|eassumption]);
    intros p [-> ->]; exact (@plate_scale _ _ _ _ _ _ Hp).
Qed.

End MinibatchScale.

(** ** The objective on scored traces *)

Lemma log_density_total (tr : trace) :
  fully_scored tr ->
  forall a b, exists q v, log_density tr (a, scalar b) = Ok (q, scalar v).
Proof.
  induction 1 as [|[name s] tr Hs _ IH]; intros a b.
  - exists a, b. reflexivity.
  - cbn [log_density]. cbn [snd] in Hs.
    destruct (is_sample s); [|apply IH].
    destruct (Hs eq_refl) as (v & Hv). unfold get_log_prob_sum. rewrite Hv.
    cbn [rbind fst snd]. change (torch_item (scalar v)) with (@Ok Q v). cbn [rbind].
    unfold tadd. rewrite (@tzip_scalar Qplus (scalar b) (scalar v) b v) by reflexivity.
    cbn [rbind]. apply IH.
Qed.

Lemma Trace_ELBO_total (model_trace guide_trace : trace) :
  fully_scored model_trace -> fully_scored guide_trace ->
  exists loss v,
    Trace_ELBO_differentiable_loss_particle model_trace guide_trace = Ok (loss, scalar v).
Proof.
  intros Hm Hg. unfold Trace_ELBO_differentiable_loss_particle.
  destruct (log_density_total Hm 0 0) as (p & pv & ->).
  destruct (log_density_total Hg 0 0) as (q & qv & ->). cbn [rbind].
  unfold tsub. rewrite (@tzip_scalar Qminus _ _ (- pv) (- qv)) by reflexivity.
  cbn [rbind]. eauto.
Qed.

Lemma add_log_q_total (guide_trace : trace) (names : list string) :
  (forall name, In name names ->
                exists s q, lookup name guide_trace = Some s /\
                            log_prob_sum s = Some (scalar q)) ->
  forall loss0 v0, exists loss v,
    add_log_q guide_trace names loss0 (scalar v0) = Ok (loss, scalar v).
Proof.
  induction names as [|name names IH]; intros Hn loss0 v0.
  - exists loss0, v0. reflexivity.
  - destruct (Hn name (or_introl eq_refl)) as (s & q & Hl & Hq).
    cbn [add_log_q]. unfold getitem, get_log_prob_sum. rewrite Hl. cbn [rbind].
    rewrite Hq. cbn [rbind]. change (torch_item (scalar q)) with (@Ok Q q). cbn [rbind].
    unfold tsub. rewrite (@tzip_scalar Qminus (scalar v0) (scalar q) v0 q)
      by reflexivity.
    cbn [rbind]. apply IH. intros n' Hn'. apply Hn. now right.
Qed.

Lemma fully_scored_filter (f : string * site -> bool) (tr : trace) :
  fully_scored tr -> fully_scored (filter f tr).
Proof.
  unfold fully_scored. rewrite !Forall_forall. intros H p Hp.
  apply filter_In in Hp as [Hp _]. auto.
Qed.

(** The observed sample sites of a scored trace can be read back. *)
Lemma blocked_names_scored (guide_trace : trace) :
  NoDup (map fst guide_trace) -> fully_scored guide_trace ->
  forall name, In name (blocked_names guide_trace) ->
    exists s q, lookup name guide_trace = Some s /\ log_prob_sum s = Some (scalar q).
Proof.
  intros Hnd Hg name Hn. unfold blocked_names in Hn.
  apply in_map_iff in Hn as ([k s] & <- & Hp).
  apply filter_In in Hp as [Hp Hb]. cbn [fst snd] in *.
  apply andb_prop in Hb as [Hsample _].
  unfold fully_scored in Hg. rewrite Forall_forall in Hg.
  destruct (Hg _ Hp Hsample) as (q & Hq).
  exists s, q. split; [now apply lookup_NoDup|exact Hq].
Qed.

Lemma scalar_of_shape (x : tensor) : shape x = [] -> wf x -> exists v, x = scalar v.
Proof.
  destruct x as [sh d]. unfold wf. cbn [shape data]. intros -> Hd.
  destruct d as [|v [|? ?]]; try discriminate. now exists v.
Qed.

Section ObjectiveTotal.
Variable super_loss_particle : trace -> trace -> result (Q * tensor).

(** On a scored guide trace the objective adds nothing that can fail: for
    a guide trace that names every site once and whose sample sites carry
    their summed log-density, whenever the method of the parent class
    returns a loss and a 0-dimensional surrogate on the trace without the
    observed sites, [_differentiable_loss_particle] raises nothing and
    returns a loss and a 0-dimensional surrogate. *)
Theorem objective_total (model_trace guide_trace : trace) (elbo : Q) (s0 : tensor) :
  NoDup (map fst guide_trace) -> fully_scored guide_trace ->
  super_loss_particle model_trace (filter (fun p => negb (is_blocked p)) guide_trace)
  = Ok (elbo, s0) ->
  shape s0 = [] -> wf s0 ->
  exists loss surrogate,
    differentiable_loss_particle super_loss_particle model_trace guide_trace
    = Ok (loss, surrogate) /\
    shape surrogate = [] /\ wf surrogate.
Proof.
  intros Hnd Hg Hs Hsh Hwf.
  destruct (@scalar_of_shape s0 Hsh Hwf) as (v0 & ->).
  unfold differentiable_loss_particle.
  rewrite (@blocked_trace guide_trace Hnd). cbn [rbind].
  rewrite Hs. cbn [rbind].
  destruct (@add_log_q_total guide_trace (blocked_names guide_trace)
              (@blocked_names_scored guide_trace Hnd Hg) elbo v0) as (loss & v & ->).
  exists loss, (scalar v). split; [reflexivity|]. split; reflexivity.
Qed.
End ObjectiveTotal.

(** ** A training step *)

Section TrainingStep.
Context {B : Backend}.
Variable params : store.

Lemma score_site_scored (s s' : site) :
  score_site s = Ok s' ->
  is_sample s' = is_sample s /\
  (is_sample s = true -> exists q, log_prob_sum s' = Some (scalar q)).
Proof.
  unfold score_site. destruct (is_sample s) eqn:Hs.
  - destruct (dist_log_prob _ _) as [lp|]; [|discriminate]. cbn [rbind].
    intros [= <-]. split; [exact Hs|]. intros _. cbn [log_prob_sum].
    unfold tsum. eauto.
  - intros [= <-]. split; [exact Hs|discriminate].
Qed.

Lemma compute_log_prob_fully_scored (tr tr' : trace) :
  compute_log_prob tr = Ok tr' ->
  fully_scored tr' /\ map fst tr' = map fst tr.
Proof.
  unfold compute_log_prob. intros H. apply mapM_Forall2 in H.
  induction H as [|[k s] [k' s'] tr tr' Hp _ [IH1 IH2]]; [split; [constructor|reflexivity]|].
  cbn [fst snd] in Hp.
  destruct (score_site s) as [s0|] eqn:Hs; [|discriminate]. cbn [rbind] in Hp.
  injection Hp as <- <-. destruct (score_site_scored _ Hs) as [Hk Hq].
  split.
  - constructor; [|exact IH1]. cbn [snd]. rewrite Hk. exact Hq.
  - cbn [map fst]. now rewrite IH2.
Qed.

Lemma compute_log_prob_total (tr : trace) :
  Forall (fun p => exists lp, dist_log_prob (site_fn (snd p)) (site_value (snd p)) = Ok lp)
         tr ->
  exists tr', compute_log_prob tr = Ok tr'.
Proof.
  intros H. unfold compute_log_prob.
  destruct (@mapM_ok _ _ (fun _ => True)
              (fun p => (s <- score_site (snd p) ;; Ok (fst p, s))%result) tr)
    as (tr' & Htr & _).
  - eapply Forall_impl; [|exact H]. intros [k s] (lp & Hlp). cbn [fst snd] in *.
    unfold score_site. destruct (is_sample s); [rewrite Hlp|]; cbn [rbind]; eauto.
  - eauto.
Qed.

Lemma dist_log_prob_bernoulli_ok (logits value : tensor) (s : list nat) :
  wf logits -> wf value -> broadcast_shapes (shape logits) (shape value) = Ok s ->
  exists lp, dist_log_prob (Bernoulli logits) value = Ok lp.
Proof.
  intros Hl Hv Hs. cbn [dist_log_prob].
  destruct (@tzip_ok bernoulli_log_prob logits value s Hl Hv Hs) as (lp & -> & _).
  eauto.
Qed.

Lemma dist_log_prob_normal_ok (loc scale value : tensor) (b : list nat) (e : nat) :
  shape scale = shape loc -> wf loc -> wf scale -> wf value ->
  broadcast_shapes (shape loc) (shape value) = Ok (b ++ [e]) ->
  exists lp, dist_log_prob (Normal loc scale 1) value = Ok lp.
Proof.
  intros Hsc Hwl Hws Hwv Hs. cbn [dist_log_prob sum_event].
  rewrite Hsc, broadcast_shapes_same. cbn [rbind]. rewrite Hs. cbn [rbind].
  destruct (broadcast_shapes_compat _ _ Hs) as [H1 H2].
  destruct (@expand_ok (b ++ [e]) loc H1 Hwl) as (dl & -> & _). cbn [rbind].
  destruct (@expand_ok (b ++ [e]) scale) as (ds & -> & _);
    [now rewrite Hsc|exact Hws|]. cbn [rbind].
  destruct (@expand_ok (b ++ [e]) value H2 Hwv) as (dv & -> & _). cbn [rbind data].
  unfold sum_last, size_last. cbn [shape].
  destruct (b ++ [e]) eqn:E; [now destruct b|]. cbn [rbind]. eauto.
Qed.

Lemma pyro_sample_traced (hs : stack) (name : string) (fn : distribution)
      (obs : option tensor) (aux : bool) (g g' : rng) (tr : trace) (v : tensor) (o : bool) :
  site_value_of (handlers_of (reached name hs)) name fn obs g = Ok (v, o, g') ->
  tracing (handlers_of (reached name hs)) = true ->
  lookup name tr = None ->
  pyro_sample hs name fn obs aux (mkState g tr)
  = Ok (v, mkState g' (tr ++ [(name, mkSite SampleSite fn v o
                                           (scale (handlers_of (reached name hs)))
                                           aux None None)])).
Proof.
  intros Hv Ht Hl. unfold pyro_sample. cbn [gen recorded]. rewrite Hv, Ht.
  cbn [rbind]. unfold add_node. rewrite Hl. reflexivity.
Qed.

Lemma Model_y_dist_ok (c : config) (n0 n1 : nat) (self : Model)
      (batch : list nat) (t z : tensor) :
  Model_init c n0 = Ok (self, n1) ->
  (0 <= int_value (latent_dim c))%Z -> (0 <= int_value (hidden_dim c))%Z ->
  shape z = batch ++ [Z.to_nat (int_value (latent_dim c))] ->
  shape t = batch -> wf t ->
  exists logits,
    Model_y_dist params self t z = Ok (Bernoulli logits) /\
    shape logits = batch /\ wf logits.
Proof.
  intros Hinit Hl Hh Hz Ht Hwt.
  destruct (Model_init_parts _ _ Hinit) as (k1 & k2 & k3 & _ & H0 & H1 & _).
  cbv zeta in H0, H1.
  assert (Hpos : Forall (fun z => (0 <= z)%Z)
                   ([int_value (latent_dim c)]
                    ++ repeated (int_value (hidden_dim c)) (int_value (num_layers c))))
    by (apply Forall_sizes2; lia).
  destruct (@BernoulliNet_forward_total B params _ k1 k2 _ batch z H0
              ltac:(discriminate) Hpos Hz) as (logits0 & Hl0 & Hs0 & Hw0).
  destruct (@BernoulliNet_forward_total B params _ k2 k3 _ batch z H1
              ltac:(discriminate) Hpos Hz) as (logits1 & Hl1 & Hs1 & Hw1).
  unfold Model_y_dist. rewrite Hl0, Hl1. cbn [rbind].
  rewrite torch_where_same_shape; try assumption; try congruence.
  cbn [rbind]. eexists. split; [reflexivity|]. cbn [shape]. split; [exact Hs1|].
  unfold wf in *. cbn [shape data]. rewrite length_map, !length_combine.
  rewrite Hw0, Hw1, Hwt, Hs0, Hs1, Ht. lia.
Qed.

(** The traces of a training step exist on a minibatch of covariates,
    treatments and outcomes of matching shapes. *)
Lemma svi_traces_ok (c : config) (n0 k1 n1 : nat) (model : Model) (guide : Guide)
      (x t y : tensor) (n size : nat) (g : rng) :
  Model_init c n0 = Ok (model, k1) -> Guide_init c k1 = Ok (guide, n1) ->
  (0 <= int_value (feature_dim c))%Z -> (0 <= int_value (hidden_dim c))%Z ->
  (0 <= int_value (latent_dim c))%Z ->
  shape x = [n; Z.to_nat (int_value (feature_dim c))] -> wf x ->
  shape t = [n] -> wf t -> shape y = [n] -> wf y -> (0 < n)%nat ->
  exists model_trace guide_trace g',
    svi_traces params model guide x t y size g = Ok (model_trace, guide_trace, g') /\
    fully_scored model_trace /\ fully_scored guide_trace /\
    map fst model_trace = ["z"; "x"; "t"; "y"] /\
    map fst guide_trace = ["t"; "y"; "z"].
Proof.
  intros Hm Hg Hf Hh Hl Hx Hwx Ht Hwt Hy Hwy Hn.
  assert (Hx' : shape x = [n] ++ [Z.to_nat (int_value (feature_dim c))]) by exact Hx.
  (* the guide *)
  set (hg := PlateMessenger size n 1 :: [TraceMessenger]).
  assert (Hpg : plate size n None [TraceMessenger] = Ok hg).
  { unfold plate. destruct n; [lia|]. reflexivity. }
  destruct (@Guide_t_dist_ok B params c k1 n1 guide [n] x Hg Hf Hx') as (lt & Htd & Hslt & Hwlt).
  destruct (@Guide_y_dist_ok B params c k1 n1 guide [n] t x Hg Hf Hh Hx' Ht Hwt)
    as (hidden & l0 & l1 & _ & _ & _ & _ & Hs0 & Hs1 & Hw0 & Hw1 & Hyd).
  match type of Hyd with _ = Ok (Bernoulli ?l) => set (ly := l) in * end.
  assert (Hwly : wf ly).
  { unfold wf in *. unfold ly. cbn [shape data].
    rewrite length_map, !length_combine. rewrite Hw0, Hw1, Hwt, Hs0, Hs1, Ht. lia. }
  destruct (@Guide_z_dist_ok B params c k1 n1 guide [n] y t x Hg Hf Hh Hl Hx' Hwx
              Ht Hwt Hy Hwy)
    as (y_x & zl0 & zs0 & zl1 & zs1 & zloc & zscale
        & _ & _ & Hzd & Hszl & Hszs & Hwzl & Hwzs & _).
  destruct (@sample_dist_normal_ok B zloc zscale [n] _ [n] [n] g Hszl Hszs Hwzl Hwzs)
    as (z & g1 & Hdz & Hsz & Hwz).
  { apply broadcast_shapes_same. }
  set (sc := scale (handlers_of hg)).
  set (gt := [("t", mkSite SampleSite (Bernoulli lt) t true sc true None None);
              ("y", mkSite SampleSite (Bernoulli ly) y true sc true None None);
              ("z", mkSite SampleSite (Normal zloc zscale 1) z false sc false None None)]).
  assert (HG : Guide_forward params [TraceMessenger] guide x (Some t) (Some y) (Some size)
                 (mkState g []) = Ok (tt, mkState g1 gt)).
  { unfold Guide_forward.
    rewrite mbind_lift. cbn [size_or_default]. cbv beta iota.
    rewrite mbind_lift. unfold size_first. rewrite Hx. cbv beta iota.
    rewrite mbind_lift, Hpg. cbv beta iota.
    rewrite mbind_lift, Htd. cbv beta iota.
    rewrite (@mbind_eq B _ _ _ _ (mkState g []) (mkState g (firstn 1 gt)) t).
    2:{ apply (@pyro_sample_traced hg "t" _ (Some t) true g g [] t true); reflexivity. }
    rewrite mbind_lift, Hyd. cbv beta iota.
    rewrite (@mbind_eq B _ _ _ _ (mkState g (firstn 1 gt)) (mkState g (firstn 2 gt)) y).
    2:{ apply (@pyro_sample_traced hg "y" _ (Some y) true g g (firstn 1 gt) y true);
        reflexivity. }
    rewrite mbind_lift, Hzd. cbv beta iota.
    rewrite (@mbind_eq B _ _ _ _ (mkState g (firstn 2 gt)) (mkState g1 gt) z).
    2:{ apply (@pyro_sample_traced hg "z" _ None false g g1 (firstn 2 gt) z false);
        try reflexivity.
        unfold site_value_of. cbn [hg reached handlers_of do_data replay lookup].
        change (plate_shape _) with [n]. now rewrite Hdz. }
    reflexivity. }
  (* the model, replayed *)
  set (hm := PlateMessenger size n 1 :: [ReplayMessenger gt; TraceMessenger]).
  assert (Hpm : plate size n None [ReplayMessenger gt; TraceMessenger] = Ok hm).
  { unfold plate. destruct n; [lia|]. reflexivity. }
  assert (Hsz' : shape z = [n] ++ [Z.to_nat (int_value (latent_dim c))]) by exact Hsz.
  destruct (@Model_dists_ok B params c n0 k1 model [n] z Hm Hf Hh Hl Hsz')
    as (xloc & xscale & mlt & _ & Hxd & Hsxl & Hsxs & Hwxl & Hwxs & Hmtd & Hsmlt & Hwmlt).
  destruct (@Model_y_dist_ok c n0 k1 model [n] t z Hm Hl Hh Hsz' Ht Hwt)
    as (mly & Hmyd & Hsmly & Hwmly).
  set (mt := [("z", mkSite SampleSite (Model_z_dist model) z false sc false None None);
              ("x", mkSite SampleSite (Normal xloc xscale 1) x true sc false None None);
              ("t", mkSite SampleSite (Bernoulli mlt) t true sc false None None);
              ("y", mkSite SampleSite (Bernoulli mly) y true sc false None None)]).
  assert (HM : Model_forward params [ReplayMessenger gt; TraceMessenger] model
                 x (Some t) (Some y) (Some size) (mkState g1 [])
               = Ok (y, mkState g1 mt)).
  { unfold Model_forward.
    rewrite mbind_lift. cbn [size_or_default]. cbv beta iota.
    rewrite mbind_lift. unfold size_first. rewrite Hx. cbv beta iota.
    rewrite mbind_lift, Hpm. cbv beta iota.
    rewrite (@mbind_eq B _ _ _ _ (mkState g1 []) (mkState g1 (firstn 1 mt)) z).
    2:{ apply (@pyro_sample_traced hm "z" _ None false g1 g1 [] z false); reflexivity. }
    rewrite mbind_lift, Hxd. cbv beta iota.
    rewrite (@mbind_eq B _ _ _ _ (mkState g1 (firstn 1 mt)) (mkState g1 (firstn 2 mt)) x).
    2:{ apply (@pyro_sample_traced hm "x" _ (Some x) false g1 g1 (firstn 1 mt) x true);
        reflexivity. }
    rewrite mbind_lift, Hmtd. cbv beta iota.
    rewrite (@mbind_eq B _ _ _ _ (mkState g1 (firstn 2 mt)) (mkState g1 (firstn 3 mt)) t).
    2:{ apply (@pyro_sample_traced hm "t" _ (Some t) false g1 g1 (firstn 2 mt) t true);
        reflexivity. }
    rewrite mbind_lift, Hmyd. cbv beta iota.
    rewrite (@mbind_eq B _ _ _ _ (mkState g1 (firstn 3 mt)) (mkState g1 mt) y).
    2:{ apply (@pyro_sample_traced hm "y" _ (Some y) false g1 g1 (firstn 3 mt) y true);
        reflexivity. }
    reflexivity. }
  (* scoring *)
  destruct (@compute_log_prob_total gt) as (gt' & Hgt').
  { repeat apply Forall_cons; try apply Forall_nil; cbn [snd site_fn site_value].
    - apply (@dist_log_prob_bernoulli_ok lt t [n] Hwlt Hwt).
      rewrite Hslt, Ht. apply broadcast_shapes_same.
    - apply (@dist_log_prob_bernoulli_ok ly y [n] Hwly Hwy).
      rewrite Hy. apply broadcast_shapes_same.
    - apply (@dist_log_prob_normal_ok zloc zscale z [n]
               (Z.to_nat (int_value (latent_dim c)))); try assumption.
      + congruence.
      + rewrite Hszl, Hsz. apply broadcast_shapes_same. }
  destruct (@compute_log_prob_total mt) as (mt' & Hmt').
  { repeat apply Forall_cons; try apply Forall_nil; cbn [snd site_fn site_value].
    - unfold Model_z_dist.
      destruct (Model_init_parts _ _ Hm) as (_ & _ & _ & _ & _ & _ & _ & Hlat & _).
      cbv zeta in Hlat. rewrite Hlat.
      apply (@dist_log_prob_normal_ok _ _ z [n] (Z.to_nat (int_value (latent_dim c)))).
      + reflexivity.
      + unfold wf, full. cbn [data shape]. apply repeat_length.
      + unfold wf, full. cbn [data shape]. apply repeat_length.
      + exact Hwz.
      + cbn [full shape]. rewrite Hsz. apply broadcast_shapes_particles.
    - apply (@dist_log_prob_normal_ok xloc xscale x [n]
               (Z.to_nat (int_value (feature_dim c)))); try assumption.
      + congruence.
      + rewrite Hsxl, Hx. apply broadcast_shapes_same.
    - apply (@dist_log_prob_bernoulli_ok mlt t [n] Hwmlt Hwt).
      rewrite Hsmlt, Ht. apply broadcast_shapes_same.
    - apply (@dist_log_prob_bernoulli_ok mly y [n] Hwmly Hwy).
      rewrite Hsmly, Hy. apply broadcast_shapes_same. }
  destruct (compute_log_prob_fully_scored _ Hgt') as [Fg Ng].
  destruct (compute_log_prob_fully_scored _ Hmt') as [Fm Nm].
  exists mt', gt', g1. split; [|auto].
  unfold svi_traces. rewrite HG. cbn [rbind recorded gen]. rewrite HM.
  cbn [rbind recorded gen]. rewrite Hgt'. cbn [rbind]. rewrite Hmt'. reflexivity.
Qed.

(** One training step is well defined: for an estimator built by the
    constructor and a minibatch of [n > 0] rows of covariates with one
    treatment and one outcome per row, the traces of the step exist, the
    model trace with the sites [z], [x], [t], [y] and the guide trace
    with the sites [t], [y], [z], and the objective raises nothing on
    them: it returns a loss and a 0-dimensional surrogate loss. *)
Theorem training_step_total (f l h k : pyobj) (n0 n1 : nat) (self : CEVAE)
        (x t y : tensor) (n size : nat) (g : rng) :
  CEVAE_init f l h k n0 = Ok (self, n1) ->
  shape x = [n; Z.to_nat (int_value f)] -> wf x ->
  shape t = [n] -> wf t -> shape y = [n] -> wf y ->
  (0 < n)%nat -> (0 < size)%nat ->
  exists model_trace guide_trace g' loss surrogate,
    svi_traces params (cevae_model self) (cevae_guide self) x t y size g
    = Ok (model_trace, guide_trace, g') /\
    map fst model_trace = ["z"; "x"; "t"; "y"] /\
    map fst guide_trace = ["t"; "y"; "z"] /\
    TraceCausalEffect_ELBO_differentiable_loss_particle model_trace guide_trace
    = Ok (loss, surrogate) /\
    shape surrogate = [] /\ wf surrogate.
Proof.
  intros Hinit Hx Hwx Ht Hwt Hy Hwy Hn _.
  destruct (CEVAE_init_parts _ _ _ _ _ Hinit) as (Hpos & _ & k1 & Hm & Hg).
  apply Forall_cons_iff in Hpos as [[_ Hf] Hpos].
  apply Forall_cons_iff in Hpos as [[_ Hl] Hpos].
  apply Forall_cons_iff in Hpos as [[_ Hh] _].
  destruct (@svi_traces_ok (mkConfig f l h k) n0 k1 n1 _ _ x t y n size g Hm Hg)
    as (mt & gt & g' & Hsvi & Fm & Fg & Nm & Ng); cbn; try lia; auto.
  assert (Hnd : NoDup (map fst gt)).
  { rewrite Ng.
    repeat (apply NoDup_cons;
            [cbn; intros H; repeat (destruct H as [H|H]; [discriminate H|]); exact H|]).
    apply NoDup_nil. }
  destruct (@Trace_ELBO_total mt (filter (fun p => negb (is_blocked p)) gt) Fm)
    as (elbo & v0 & Helbo); [now apply fully_scored_filter|].
  destruct (@add_log_q_total gt (blocked_names gt) (@blocked_names_scored gt Hnd Fg) elbo v0)
    as (loss & v & Hadd).
  exists mt, gt, g', loss, (scalar v).
  split; [exact Hsvi|]. split; [exact Nm|]. split; [exact Ng|].
  split; [|split; reflexivity].
  unfold TraceCausalEffect_ELBO_differentiable_loss_particle, differentiable_loss_particle.
  rewrite (@blocked_trace gt Hnd). cbn [rbind]. rewrite Helbo. cbn [rbind]. exact Hadd.
Qed.

(** *** Two evaluations of the model, the generator seeded before each *)




End TrainingStep.

(** ** The properties on the small instance *)

Lemma loss_decomposition_witness :
  blocked_names Example.guide_trace = ["t"; "y"] /\
  (TraceCausalEffect_ELBO_differentiable_loss_particle Example.model_trace Example.guide_trace
   = Ok Example.losses
   <-> exists elbo s0 s1,
       Trace_ELBO_differentiable_loss_particle
         Example.model_trace
         (filter (fun p => negb (mem (fst p) ["t"; "y"])) Example.guide_trace)
       = Ok (elbo, s0) /\
       fst Example.losses = elbo - Example.q_t - Example.q_y /\
       tsub s0 Example.log_q_t = Ok s1 /\
       tsub s1 Example.log_q_y = Ok (snd Example.losses)).
Proof.
  split; [reflexivity|].
  eapply (@loss_decomposition Trace_ELBO_differentiable_loss_particle
            Example.model_trace Example.guide_trace _ _
            Example.log_q_t Example.log_q_y Example.q_t Example.q_y
            (fst Example.losses) (snd Example.losses)).
  all: vm_compute; reflexivity.
Defined.

Lemma DiagNormalNet_scale_positive_or_nan_witness :
  exists loc scale,
    @DiagNormalNet_forward_nan Example.backend Example.params
       (m_x_nn (cevae_model Example.cevae)) (mkETensor [2; 1]%nat [Num 1; Num (-1)])
    = Ok (loc, scale) /\
    (exists loc_scale w raw,
       @FullyConnected_forward_nan Example.backend Example.params
          (dn_fc (m_x_nn (cevae_model Example.cevae)))
          (mkETensor [2; 1]%nat [Num 1; Num (-1)]) = Ok loc_scale /\
       esize_last loc_scale = Ok w /\
       eslice_from (w / 2) loc_scale = Ok raw /\
       Forall2 floored (edata raw) (edata scale)) /\
    (Forall number [Num 1; Num (-1)] -> Forall positive_entry (edata scale)).
Proof.
  eexists. eexists. split; [vm_compute; reflexivity|].
  eapply (@DiagNormalNet_scale_positive_or_nan Example.backend Example.params
            (m_x_nn (cevae_model Example.cevae))
            (mkETensor [2; 1]%nat [Num 1; Num (-1)])).
  vm_compute. reflexivity.
Defined.

(** The scale is not positive on every input: on an input that holds
    NaN, the row of the NaN yields NaN in the scale, which is not
    positive. *)
Lemma DiagNormalNet_scale_nan :
  exists loc scale,
    @DiagNormalNet_forward_nan Example.backend Example.params
       (m_x_nn (cevae_model Example.cevae)) (mkETensor [2; 1]%nat [Num 1; NaN])
    = Ok (loc, scale) /\
    In NaN (edata scale) /\
    ~ Forall positive_entry (edata scale).
Proof.
  eexists. eexists. split; [vm_compute; reflexivity|].
  assert (Hin : In NaN [Num (1 # 10000000000); Num (1 # 10000000000); NaN; NaN]).
  { simpl. auto. }
  split; [exact Hin|].
  intros H. rewrite Forall_forall in H. exact (H NaN Hin).
Qed.



(** Seeding matters: on the small instance, with the generator seeded
    before the first evaluation only, the second evaluation draws another
    [z] and the log-densities of the two traces differ. *)
Lemma forward_twice_seeded_once_differs :
  exists tr1 tr2 st',
    @forward_twice_seeded_once Example.backend Example.params
       (cevae_model Example.cevae) Example.x Example.t Example.y (Some 6%nat) 7%Z
       (mkState (B:=Example.backend) 5%nat [])
    = Ok (tr1, tr2, st') /\
    log_densities tr1 <> log_densities tr2.
Proof.
  eexists. eexists. eexists. split; [vm_compute; reflexivity|].
  intros H. vm_compute in H. discriminate H.
Qed.



Lemma Model_forward_returns_y_witness :
  exists st',
    @Model_forward Example.backend Example.params [TraceMessenger]
       (cevae_model Example.cevae) Example.x (Some Example.t) (Some Example.y) None
       (@mkState Example.backend 0%nat [])
    = Ok (Example.y, st') /\
    exists s, lookup "y" (recorded st') = Some s /\ site_value s = Example.y /\
              is_observed s = true.
Proof.
  eexists. split; [vm_compute; reflexivity|].
  apply (@Model_forward_returns_y Example.backend Example.params
           [TraceMessenger] (cevae_model Example.cevae)
           Example.x (Some Example.t) (Some Example.y) None
           (@mkState Example.backend 0%nat [])).
  - reflexivity.
  - vm_compute. reflexivity.
  - reflexivity.
Defined.


(** ** Further properties on the small instance *)

Lemma FullyConnected_needs_two_sizes_witness :
  match FullyConnected (map PyInt [3%Z]) 0%nat with
  | Ok (layers, n1) =>
      (2 <= List.length [3%Z])%nat /\ n1 = (0 + 2 * (List.length [3%Z] - 1))%nat
  | Raise e => e = IndexError /\ (List.length [3%Z] < 2)%nat
  end.
Proof.
  apply (@FullyConnected_needs_two_sizes [3%Z] 0%nat).
  repeat (apply Forall_cons; [lia|]). apply Forall_nil.
Defined.

Lemma DiagNormalNet_init_asserts_witness :
  match DiagNormalNet_init (map PyInt [3%Z]) 0%nat with
  | Ok (net, n1) =>
      (2 <= List.length [3%Z])%nat /\
      n1 = (0 + 2 * (List.length [3%Z] - 1))%nat /\
      fc_out (dn_fc net) = Some (last [3%Z] 0 * 2)%Z /\
      List.length (linears (dn_fc net)) = (List.length [3%Z] - 1)%nat
  | Raise e => e = AssertionError /\ (List.length [3%Z] < 2)%nat
  end.
Proof.
  apply (@DiagNormalNet_init_asserts [3%Z] 0%nat).
  repeat (apply Forall_cons; [lia|]). apply Forall_nil.
Defined.

Lemma BernoulliNet_init_asserts_witness :
  match BernoulliNet_init (map PyInt [3; 4]%Z) 0%nat with
  | Ok (net, n1) =>
      [3; 4]%Z <> [] /\
      n1 = (0 + 2 * List.length [3; 4]%Z)%nat /\
      fc_out (bn_fc net) = Some 1%Z /\
      List.length (linears (bn_fc net)) = List.length [3; 4]%Z
  | Raise e => e = AssertionError /\ [3; 4]%Z = []
  end.
Proof.
  apply (@BernoulliNet_init_asserts [3; 4]%Z 0%nat).
  repeat (apply Forall_cons; [lia|]). apply Forall_nil.
Defined.

Lemma FullyConnected_layers_witness :
  map widths (linears (dn_fc (m_x_nn (cevae_model Example.cevae))))
  = combine [1; 2; 4]%Z (tl [1; 2; 4]%Z) /\
  List.length (dn_fc (m_x_nn (cevae_model Example.cevae)))
  = (2 * (List.length [1; 2; 4]%Z - 1) - 1)%nat /\
  (forall i, (i < List.length (dn_fc (m_x_nn (cevae_model Example.cevae))))%nat ->
             nth i (dn_fc (m_x_nn (cevae_model Example.cevae))) ELU = ELU
             <-> Nat.odd i = true) /\
  fc_params (dn_fc (m_x_nn (cevae_model Example.cevae))) = seq 0 (4 - 0).
Proof.
  apply (@FullyConnected_layers [1; 2; 4]%Z 0%nat 4%nat
           (dn_fc (m_x_nn (cevae_model Example.cevae)))).
  vm_compute. reflexivity.
Defined.

Lemma Model_init_any_depth_witness :
  exists self,
    Model_init (mkConfig (PyInt 2) (PyInt 1) (PyInt 2) (PyInt 0)) 0%nat
    = Ok (self, 8%nat) /\
    m_latent_dim self = 1%Z /\
    Model_params self = seq 0 8.
Proof.
  apply (@Model_init_any_depth (mkConfig (PyInt 2) (PyInt 1) (PyInt 2) (PyInt 0)) 0%nat);
    try reflexivity; simpl; lia.
Defined.

Lemma Guide_init_needs_a_layer_witness :
  match Guide_init (mkConfig (PyInt 2) (PyInt 1) (PyInt 2) (PyInt 0)) 0%nat with
  | Ok (self, n1) =>
      (0 < 0)%Z /\ n1 = (0 + 6 * 0 + 10)%nat /\ Guide_params self = seq 0 (n1 - 0)
  | Raise e => e = IndexError /\ (0 <= 0)%Z
  end.
Proof.
  apply (@Guide_init_needs_a_layer (mkConfig (PyInt 2) (PyInt 1) (PyInt 2) (PyInt 0)) 0%nat);
    try reflexivity; simpl; lia.
Defined.

Lemma CEVAE_parameters_witness :
  30%nat = (0 + 12 * Z.to_nat (int_value (PyInt 1)) + 18)%nat /\
  CEVAE_params Example.cevae = seq 0 (30 - 0) /\
  NoDup (CEVAE_params Example.cevae) /\
  cevae_feature_dim Example.cevae = int_value (PyInt 2).
Proof.
  apply (@CEVAE_parameters (PyInt 2) (PyInt 1) (PyInt 2) (PyInt 1) 0%nat 30%nat Example.cevae).
  vm_compute. reflexivity.
Defined.

Lemma FullyConnected_forward_checks_width_witness :
  @FullyConnected_forward Example.backend Example.params
     (dn_fc (m_x_nn (cevae_model Example.cevae))) Example.x
  = Raise RuntimeError.
Proof.
  refine (@FullyConnected_forward_checks_width Example.backend Example.params
            [1; 2; 4]%Z 0%nat 4%nat (dn_fc (m_x_nn (cevae_model Example.cevae)))
            Example.x _ _ _).
  - vm_compute. reflexivity.
  - repeat (apply Forall_cons; [lia|]). apply Forall_nil.
  - discriminate.
Defined.

Lemma DiagNormalNet_forward_shapes_witness :
  exists loc scale,
    @DiagNormalNet_forward Example.backend Example.params
       (m_x_nn (cevae_model Example.cevae)) (mkTensor [2; 1]%nat [1; -1])
    = Ok (loc, scale) /\
    shape loc = [2%nat] ++ [Z.to_nat (last [1; 2; 2]%Z 0%Z)] /\
    shape scale = shape loc /\ wf loc /\ wf scale.
Proof.
  apply (@DiagNormalNet_forward_shapes Example.backend Example.params
           [1; 2; 2]%Z 0%nat 4%nat (m_x_nn (cevae_model Example.cevae))
           [2%nat] (mkTensor [2; 1]%nat [1; -1])).
  - vm_compute. reflexivity.
  - repeat (apply Forall_cons; [lia|]). apply Forall_nil.
  - reflexivity.
Defined.

Lemma BernoulliNet_forward_squeezes_witness :
  exists h logits,
    @FullyConnected_forward Example.backend Example.params
       (bn_fc (m_t_nn (cevae_model Example.cevae))) (mkTensor [2; 1]%nat [1; -1]) = Ok h /\
    shape h = [2%nat] ++ [1%nat] /\
    @BernoulliNet_forward Example.backend Example.params
       (m_t_nn (cevae_model Example.cevae)) (mkTensor [2; 1]%nat [1; -1]) = Ok logits /\
    shape logits = [2%nat] /\ data logits = data h /\ wf logits.
Proof.
  apply (@BernoulliNet_forward_squeezes Example.backend Example.params
           [1%Z] 12%nat 14%nat (m_t_nn (cevae_model Example.cevae))
           [2%nat] (mkTensor [2; 1]%nat [1; -1])).
  - vm_compute. reflexivity.
  - repeat (apply Forall_cons; [lia|]). apply Forall_nil.
  - reflexivity.
Defined.

Lemma Guide_z_dist_total_witness :
  exists loc scale,
    @Guide_z_dist Example.backend Example.params (cevae_guide Example.cevae)
       Example.y Example.t Example.x = Ok (Normal loc scale 1) /\
    shape loc = [3%nat] ++ [1%nat] /\
    shape scale = shape loc /\ wf loc /\ wf scale /\
    batch_shape (Normal loc scale 1) = [3%nat] /\
    event_shape (Normal loc scale 1) = [1%nat].
Proof.
  apply (@Guide_z_dist_total Example.backend Example.params
           (mkConfig (PyInt 2) (PyInt 1) (PyInt 2) (PyInt 1)) 14%nat 30%nat
           (cevae_guide Example.cevae) [3%nat] Example.y Example.t Example.x).
  - vm_compute. reflexivity.
  - simpl. lia.
  - simpl. lia.
  - simpl. lia.
  - reflexivity.
  - reflexivity.
  - reflexivity.
  - reflexivity.
  - reflexivity.
  - reflexivity.
Defined.


Lemma Model_dists_shapes_witness :
  batch_shape (Model_z_dist (cevae_model Example.cevae)) = [] /\
  event_shape (Model_z_dist (cevae_model Example.cevae)) = [1%nat] /\
  exists loc scale logits,
    @Model_x_dist Example.backend Example.params (cevae_model Example.cevae)
       (mkTensor [3; 1]%nat [1; -1; 2]) = Ok (Normal loc scale 1) /\
    batch_shape (Normal loc scale 1) = [3%nat] /\
    event_shape (Normal loc scale 1) = [2%nat] /\
    shape scale = shape loc /\ wf loc /\ wf scale /\
    @Model_t_dist Example.backend Example.params (cevae_model Example.cevae)
       (mkTensor [3; 1]%nat [1; -1; 2]) = Ok (Bernoulli logits) /\
    batch_shape (Bernoulli logits) = [3%nat] /\ wf logits.
Proof.
  apply (@Model_dists_shapes Example.backend Example.params
           (mkConfig (PyInt 2) (PyInt 1) (PyInt 2) (PyInt 1)) 0%nat 14%nat
           (cevae_model Example.cevae) [3%nat] (mkTensor [3; 1]%nat [1; -1; 2])).
  - vm_compute. reflexivity.
  - simpl. lia.
  - simpl. lia.
  - simpl. lia.
  - reflexivity.
Defined.

Lemma Model_y_dist_under_do_witness :
  exists logits,
    @BernoulliNet_forward Example.backend Example.params
       (if to_bool 1 then m_y1_nn (cevae_model Example.cevae)
        else m_y0_nn (cevae_model Example.cevae))
       (mkTensor [3; 1]%nat [1; -1; 2])
    = Ok logits /\
    shape logits = [3%nat] /\
    @Model_y_dist Example.backend Example.params (cevae_model Example.cevae)
       (scalar 1) (mkTensor [3; 1]%nat [1; -1; 2]) = Ok (Bernoulli logits).
Proof.
  apply (@Model_y_dist_under_do Example.backend Example.params
           (mkConfig (PyInt 2) (PyInt 1) (PyInt 2) (PyInt 1)) 0%nat 14%nat
           (cevae_model Example.cevae) [3%nat] 1 (mkTensor [3; 1]%nat [1; -1; 2])).
  - vm_compute. reflexivity.
  - simpl. lia.
  - simpl. lia.
  - reflexivity.
Defined.

Lemma Example_guide_trace_names : NoDup (map fst Example.guide_trace).
Proof.
  repeat (apply NoDup_cons;
          [cbn; intros H; repeat (destruct H as [H|H]; [discriminate H|]); exact H|]).
  apply NoDup_nil.
Defined.

Lemma blocked_guide_trace_is_filter_witness :
  del_nodes (blocked_names Example.guide_trace) Example.guide_trace
  = Ok (filter (fun p => negb (is_blocked p)) Example.guide_trace) /\
  blocked_names (filter (fun p => negb (is_blocked p)) Example.guide_trace) = [].
Proof.
  apply (@blocked_guide_trace_is_filter Example.guide_trace).
  exact Example_guide_trace_names.
Defined.

Lemma loss_subtracts_every_observed_site_witness :
  exists elbo s0 lps qs,
    Trace_ELBO_differentiable_loss_particle Example.model_trace
      (filter (fun p => negb (is_blocked p)) Example.guide_trace)
    = Ok (elbo, s0) /\
    Forall2 (fun p lp => log_prob_sum (snd p) = Some lp)
            (filter is_blocked Example.guide_trace) lps /\
    Forall2 (fun lp q => torch_item lp = Ok q) lps qs /\
    fst Example.losses = fold_left Qminus qs elbo /\
    tsub_all s0 lps = Ok (snd Example.losses).
Proof.
  apply (@loss_subtracts_every_observed_site Trace_ELBO_differentiable_loss_particle
           Example.model_trace Example.guide_trace
           (fst Example.losses) (snd Example.losses)).
  - exact Example_guide_trace_names.
  - vm_compute. reflexivity.
Defined.

Lemma objective_without_observed_sites_witness :
  differentiable_loss_particle Trace_ELBO_differentiable_loss_particle
    Example.model_trace (filter (fun p => negb (is_blocked p)) Example.guide_trace)
  = Trace_ELBO_differentiable_loss_particle
      Example.model_trace (filter (fun p => negb (is_blocked p)) Example.guide_trace).
Proof.
  apply (@objective_without_observed_sites Trace_ELBO_differentiable_loss_particle
           Example.model_trace
           (filter (fun p => negb (is_blocked p)) Example.guide_trace)).
  vm_compute. repeat constructor.
Defined.

Lemma Model_forward_sites_witness :
  exists st',
    @Model_forward Example.backend Example.params [TraceMessenger]
       (cevae_model Example.cevae) Example.x (Some Example.t) (Some Example.y) None
       (@mkState Example.backend 0%nat [])
    = Ok (Example.y, st') /\
    exists sz sx s_t sy,
      recorded st' = [] ++ [("z", sz); ("x", sx); ("t", s_t); ("y", sy)] /\
      site_fn sz = Model_z_dist (cevae_model Example.cevae) /\
      @Model_x_dist Example.backend Example.params (cevae_model Example.cevae)
         (site_value sz) = Ok (site_fn sx) /\
      @Model_t_dist Example.backend Example.params (cevae_model Example.cevae)
         (site_value sz) = Ok (site_fn s_t) /\
      @Model_y_dist Example.backend Example.params (cevae_model Example.cevae)
         (site_value s_t) (site_value sz) = Ok (site_fn sy) /\
      site_value sx = Example.x /\ is_observed sx = true /\
      site_value sy = Example.y /\
      Forall (fun s => site_kind s = SampleSite /\ is_auxiliary s = false)
             [sz; sx; s_t; sy].
Proof.
  eexists. split; [vm_compute; reflexivity|].
  apply (@Model_forward_sites Example.backend Example.params
           [TraceMessenger] (cevae_model Example.cevae)
           Example.x (Some Example.t) (Some Example.y) None
           (@mkState Example.backend 0%nat [])).
  - repeat (apply Forall_cons; [reflexivity|]). apply Forall_nil.
  - reflexivity.
  - vm_compute. reflexivity.
Defined.

Lemma Guide_forward_sites_witness :
  exists st',
    @Guide_forward Example.backend Example.params [TraceMessenger]
       (cevae_guide Example.cevae) Example.x (Some Example.t) (Some Example.y) None
       (@mkState Example.backend 0%nat [])
    = Ok (tt, st') /\
    exists s_t sy sz,
      recorded st' = [] ++ [("t", s_t); ("y", sy); ("z", sz)] /\
      @Guide_t_dist Example.backend Example.params (cevae_guide Example.cevae) Example.x
      = Ok (site_fn s_t) /\
      @Guide_y_dist Example.backend Example.params (cevae_guide Example.cevae)
         (site_value s_t) Example.x = Ok (site_fn sy) /\
      @Guide_z_dist Example.backend Example.params (cevae_guide Example.cevae)
         (site_value sy) (site_value s_t) Example.x = Ok (site_fn sz) /\
      is_auxiliary s_t = true /\ is_auxiliary sy = true /\ is_auxiliary sz = false /\
      Forall (fun s => site_kind s = SampleSite) [s_t; sy; sz] /\
      (@intervened [TraceMessenger] "t" = None ->
       forall o, Some Example.t = Some o -> site_value s_t = o /\ is_observed s_t = true) /\
      (@intervened [TraceMessenger] "y" = None ->
       forall o, Some Example.y = Some o -> site_value sy = o /\ is_observed sy = true).
Proof.
  eexists. split; [vm_compute; reflexivity|].
  apply (@Guide_forward_sites Example.backend Example.params
           [TraceMessenger] (cevae_guide Example.cevae)
           Example.x (Some Example.t) (Some Example.y) None
           (@mkState Example.backend 0%nat []) _ tt).
  - repeat (apply Forall_cons; [reflexivity|]). apply Forall_nil.
  - vm_compute. reflexivity.
Defined.

Lemma ite_guide_trace_holds_only_z_witness :
  exists sz g',
    @ite_guide_trace Example.backend Example.params [PlateMessenger 3 3 2]
       Example.cevae Example.x 0%nat = Ok ([("z", sz)], g') /\
    shape (site_value sz) = [3; 3; Z.to_nat (int_value (PyInt 1))]%nat /\
    wf (site_value sz) /\ is_observed sz = false.
Proof.
  apply (@ite_guide_trace_holds_only_z Example.backend Example.params
           (PyInt 2) (PyInt 1) (PyInt 2) (PyInt 1) 0%nat 30%nat
           Example.cevae Example.x 3%nat 3%nat 0%nat).
  - vm_compute. reflexivity.
  - reflexivity.
  - reflexivity.
  - lia.
  - lia.
Defined.

Lemma ite_one_effect_per_unit_witness :
  (forall n, shape Example.x = [n; Z.to_nat (int_value (PyInt 2))] -> (0 < n)%nat ->
             exists effect g',
               @ite Example.backend Example.params Example.cevae Example.x 3%nat 0%nat
               = Ok (effect, g') /\
               shape effect = [n] /\ wf effect) /\
  ((forall n, shape Example.x <> [n; Z.to_nat (int_value (PyInt 2))]) ->
   @ite Example.backend Example.params Example.cevae Example.x 3%nat 0%nat
   = Raise AssertionError).
Proof.
  apply (@ite_one_effect_per_unit Example.backend Example.params
           (PyInt 2) (PyInt 1) (PyInt 2) (PyInt 1) 0%nat 30%nat
           Example.cevae Example.x 3%nat 0%nat).
  - vm_compute. reflexivity.
  - reflexivity.
  - lia.
Defined.

Lemma Example_binary_draws : binary_draws Example.backend.
Proof.
  intros l g. unfold binary. cbn.
  destruct (Qle_bool _ l); [right|left]; reflexivity.
Defined.

Lemma ite_effect_bounded_witness :
  Forall (fun v => -1 <= v <= 1) (data (fst Example.ite_outcome)).
Proof.
  apply (@ite_effect_bounded Example.backend Example.params
           Example.cevae Example.x 3%nat 0%nat
           (snd Example.ite_outcome) (fst Example.ite_outcome)).
  - exact Example_binary_draws.
  - vm_compute. reflexivity.
Defined.

Lemma Model_forward_minibatch_scale_witness :
  exists st',
    @Model_forward Example.backend Example.params [TraceMessenger]
       (cevae_model Example.cevae) Example.x (Some Example.t) (Some Example.y)
       (Some 6%nat) (@mkState Example.backend 0%nat [])
    = Ok (Example.y, st') /\
    exists new,
      recorded st' = [] ++ new /\
      Forall (fun p =>
                site_scale (snd p)
                = scale (handlers_of (reached (fst p) [TraceMessenger]))
                  * (inject_Z (Z.of_nat 6) / inject_Z (Z.of_nat 3))) new.
Proof.
  eexists. split; [vm_compute; reflexivity|].
  apply (@Model_forward_minibatch_scale Example.backend Example.params
           [TraceMessenger] (cevae_model Example.cevae)
           Example.x (Some Example.t) (Some Example.y) (Some 6%nat) 3%nat [2%nat]
           (@mkState Example.backend 0%nat []) _ Example.y).
  - reflexivity.
  - vm_compute. reflexivity.
Defined.

Lemma Guide_forward_minibatch_scale_witness :
  exists st',
    @Guide_forward Example.backend Example.params [TraceMessenger]
       (cevae_guide Example.cevae) Example.x (Some Example.t) (Some Example.y)
       None (@mkState Example.backend 0%nat [])
    = Ok (tt, st') /\
    exists new,
      recorded st' = [] ++ new /\
      Forall (fun p =>
                site_scale (snd p)
                = scale (handlers_of (reached (fst p) [TraceMessenger]))
                  * (inject_Z (Z.of_nat 3) / inject_Z (Z.of_nat 3))) new.
Proof.
  eexists. split; [vm_compute; reflexivity|].
  apply (@Guide_forward_minibatch_scale Example.backend Example.params
           [TraceMessenger] (cevae_guide Example.cevae)
           Example.x (Some Example.t) (Some Example.y) None 3%nat [2%nat]
           (@mkState Example.backend 0%nat []) _ tt).
  - reflexivity.
  - vm_compute. reflexivity.
Defined.

Lemma objective_total_witness :
  exists loss surrogate,
    differentiable_loss_particle Trace_ELBO_differentiable_loss_particle
      Example.model_trace Example.guide_trace
    = Ok (loss, surrogate) /\
    shape surrogate = [] /\ wf surrogate.
Proof.
  eapply (@objective_total Trace_ELBO_differentiable_loss_particle
            Example.model_trace Example.guide_trace).
  - exact Example_guide_trace_names.
  - repeat (apply Forall_cons; [intros _; eexists; reflexivity|]). apply Forall_nil.
  - vm_compute. reflexivity.
  - reflexivity.
  - reflexivity.
Defined.

Lemma training_step_total_witness :
  exists model_trace guide_trace g' loss surrogate,
    @svi_traces Example.backend Example.params
       (cevae_model Example.cevae) (cevae_guide Example.cevae)
       Example.x Example.t Example.y 6%nat 0%nat
    = Ok (model_trace, guide_trace, g') /\
    map fst model_trace = ["z"; "x"; "t"; "y"] /\
    map fst guide_trace = ["t"; "y"; "z"] /\
    TraceCausalEffect_ELBO_differentiable_loss_particle model_trace guide_trace
    = Ok (loss, surrogate) /\
    shape surrogate = [] /\ wf surrogate.
Proof.
  apply (@training_step_total Example.backend Example.params
           (PyInt 2) (PyInt 1) (PyInt 2) (PyInt 1) 0%nat 30%nat Example.cevae
           Example.x Example.t Example.y 3%nat 6%nat 0%nat).
  - vm_compute. reflexivity.
  - reflexivity.
  - reflexivity.
  - reflexivity.
  - reflexivity.
  - reflexivity.
  - reflexivity.
  - lia.
  - lia.
Defined.
